(** * LibFS: an inode file system over a sector-addressed disk

    A shallow embedding of [LibFS.c].  Every C function of the library is
    a Rocq function of the same name; sector buffers are byte maps, the
    on-disk records ([inode_t], [dirent_t]) are read and written through
    their byte offsets, and the global variables ([open_files], [osErrno])
    together with the disk form an explicit state.

    Conventions.  An [int] value is a [Z]; the code is modelled on values
    that stay within the range of [int], only the encoding of an [int]
    in a buffer wraps.  [/] and [%] are [Z.quot] and [Z.rem]; where the
    code divides by a [size_t] constant ([INODES_PER_SECTOR],
    [DIRENTS_PER_SECTOR]) the unsigned and the signed quotient agree as
    long as the operand is not negative, and the theorems about those
    functions are stated for such operands ([remove_inode] on a parent
    without entries, whose size goes from 0 to -1, is outside of them).
    The conversion to [size_t] is written out where an argument of the
    caller meets [sizeof] ([Dir_Read]).  A [for] loop with a constant
    bound is a recursion on the number of iterations left; a [while]
    loop carries a number of steps that no terminating run exceeds. *)

From Stdlib Require Import ZArith List Lia Bool String.
From coqutil Require Import Byte Word.LittleEndianList.
Import ListNotations.
Local Open Scope Z_scope.

(** ** Outcomes of a call

    [Done a] is a normal return.  [Stuck] stands for every run that has no
    return value: a failed [assert] (the process aborts), an access the C
    standard leaves undefined (an index outside [open_files], the read of
    an uninitialised [int]), or a loop that does not terminate. *)

Inductive exec (A : Type) : Type :=
| Done (a : A)
| Stuck.
Arguments Done {A} a.
Arguments Stuck {A}.

Definition bind {A B : Type} (m : exec A) (k : A -> exec B) : exec B :=
  match m with
  | Done a => k a
  | Stuck => Stuck
  end.

Notation "x <- m ;; k" := (bind m (fun x => k))
  (at level 61, m at next level, right associativity).
Notation "' p <- m ;; k" := (bind m (fun x => match x with p => k end))
  (at level 61, p pattern, m at next level, right associativity).

Definition assert (b : bool) : exec unit := if b then Done tt else Stuck.

(** ** Byte buffers

    A buffer ([char buf[SECTOR_SIZE]], a caller's [void*]) is a map from
    offsets to bytes.  Only offsets inside the C array are meaningful. *)

Definition mem : Type := Z -> byte.

Definition zero_mem : mem := fun _ => Byte.x00.

Definition mem_set (m : mem) (j : Z) (b : byte) : mem :=
  fun x => if x =? j then b else m x.

(** [memset(m + off, b, len)] *)
Definition mem_fill (m : mem) (off len : Z) (b : byte) : mem :=
  fun x => if (off <=? x) && (x <? off + len) then b else m x.

(** [memcpy(dst + doff, src + soff, n)] *)
Definition memcpy (dst : mem) (doff : Z) (src : mem) (soff : Z) (n : Z) : mem :=
  fun x => if (doff <=? x) && (x <? doff + n) then src (soff + (x - doff)) else dst x.

(** An [int] is four bytes, least significant first, two's complement. *)
Definition int_min : Z := - 2 ^ 31.
Definition int_max : Z := 2 ^ 31 - 1.

Definition to_signed (u : Z) : Z := if u <? 2 ^ 31 then u else u - 2 ^ 32.

Definition load_int (m : mem) (off : Z) : Z :=
  to_signed (le_combine [m off; m (off + 1); m (off + 2); m (off + 3)]).

Definition store_int (m : mem) (off : Z) (v : Z) : mem :=
  fun x => if (off <=? x) && (x <? off + 4)
           then nth (Z.to_nat (x - off)) (le_split 4 v) Byte.x00
           else m x.

(** [size_t] is 64 bits wide; converting an [int] to it wraps. *)
Definition to_size_t (v : Z) : Z := v mod 2 ^ 64.

(** C strings are lists of non-NUL bytes; the terminator is implicit. *)
Definition cstring : Type := list byte.

Definition c_str (s : string) : cstring := list_byte_of_string s.

(** [strcmp(m + off, s) == 0] *)
Fixpoint streq_at (m : mem) (off : Z) (s : cstring) : bool :=
  match s with
  | [] => Byte.eqb (m off) Byte.x00
  | c :: s' => Byte.eqb (m off) c && streq_at m (off + 1) s'
  end.

(** [strcmp(s, t) == 0] on two strings *)
Fixpoint cstring_eqb (s t : cstring) : bool :=
  match s, t with
  | [], [] => true
  | c :: s', c' :: t' => Byte.eqb c c' && cstring_eqb s' t'
  | _, _ => false
  end.

(** [strncpy(m + off, s, n)]: copies [s], then pads with NUL up to [n]
    bytes; no terminator is written when [s] has [n] bytes or more. *)
Definition strncpy (m : mem) (off : Z) (s : cstring) (n : Z) : mem :=
  fun x => if (off <=? x) && (x <? off + n)
           then nth (Z.to_nat (x - off)) s Byte.x00
           else m x.

(** ** Volume geometry

    [SECTOR_SIZE] and [TOTAL_SECTORS] come from [LibDisk.h], [MAX_FILES]
    and [MAX_SECTORS_PER_FILE] from [LibFS.h]; neither header is part of
    the sources at hand, so the four constants are parameters. *)

Class geometry : Type := {
  SECTOR_SIZE : Z;
  TOTAL_SECTORS : Z;
  MAX_FILES : Z;
  MAX_SECTORS_PER_FILE : Z
}.

(** Error codes of [LibFS.h]. *)
Inductive os_error : Type :=
| E_NONE
| E_GENERAL
| E_CREATE
| E_NO_SUCH_FILE
| E_TOO_MANY_OPEN_FILES
| E_BAD_FD
| E_NO_SPACE
| E_FILE_TOO_BIG
| E_SEEK_OUT_OF_BOUNDS
| E_FILE_IN_USE
| E_NO_SUCH_DIR
| E_DIR_NOT_EMPTY
| E_ROOT_DIR
| E_BUFFER_TOO_SMALL.

Definition MAX_PATH : Z := 256.
Definition MAX_NAME : Z := 16.
Definition MAX_OPEN_FILES : Z := 256.

Definition BYTE10 : list Z := [0; 128; 192; 224; 240; 248; 252; 254; 255].
Definition BYTE1 : list Z := [128; 64; 32; 16; 8; 4; 2; 1].
Definition BYTE0 : list Z := [127; 191; 223; 239; 247; 251; 253; 254].

Definition tbl (t : list Z) (k : Z) : Z := nth (Z.to_nat k) t 0.

Section Volume.
Context {G : geometry}.

Definition SUPERBLOCK_START_SECTOR : Z := 0.
Definition OS_MAGIC : Z := 3735928559.
Definition INODE_BITMAP_START_SECTOR : Z := 1.
Definition INODE_BITMAP_SIZE : Z := (MAX_FILES + 7) ÷ 8.
Definition INODE_BITMAP_SECTORS : Z :=
  (INODE_BITMAP_SIZE + SECTOR_SIZE - 1) ÷ SECTOR_SIZE.
Definition SECTOR_BITMAP_START_SECTOR : Z :=
  INODE_BITMAP_START_SECTOR + INODE_BITMAP_SECTORS.
Definition SECTOR_BITMAP_SIZE : Z := (TOTAL_SECTORS + 7) ÷ 8.
Definition SECTOR_BITMAP_SECTORS : Z :=
  (SECTOR_BITMAP_SIZE + SECTOR_SIZE - 1) ÷ SECTOR_SIZE.
Definition INODE_TABLE_START_SECTOR : Z :=
  SECTOR_BITMAP_START_SECTOR + SECTOR_BITMAP_SECTORS.

(** [inode_t] is [{ int size; int type; int data[MAX_SECTORS_PER_FILE]; }]
    and [dirent_t] is [{ char fname[MAX_NAME]; int inode; }]. *)
Definition sizeof_inode : Z := 8 + 4 * MAX_SECTORS_PER_FILE.
Definition sizeof_dirent : Z := MAX_NAME + 4.

Definition INODES_PER_SECTOR : Z := SECTOR_SIZE ÷ sizeof_inode.
Definition INODE_TABLE_SECTORS : Z :=
  (MAX_FILES + INODES_PER_SECTOR - 1) ÷ INODES_PER_SECTOR.
Definition DATABLOCK_START_SECTOR : Z :=
  INODE_TABLE_START_SECTOR + INODE_TABLE_SECTORS.
Definition DIRENTS_PER_SECTOR : Z := SECTOR_SIZE ÷ sizeof_dirent.

(** Field access through a record's byte offset [p] in a buffer. *)
Definition inode_size (m : mem) (p : Z) : Z := load_int m p.
Definition inode_type (m : mem) (p : Z) : Z := load_int m (p + 4).
Definition inode_data (m : mem) (p : Z) (g : Z) : Z := load_int m (p + 8 + 4 * g).
Definition set_inode_size (m : mem) (p : Z) (v : Z) : mem := store_int m p v.
Definition set_inode_type (m : mem) (p : Z) (v : Z) : mem := store_int m (p + 4) v.
Definition set_inode_data (m : mem) (p : Z) (g : Z) (v : Z) : mem :=
  store_int m (p + 8 + 4 * g) v.

Definition dirent_inode (m : mem) (p : Z) : Z := load_int m (p + MAX_NAME).

(** ** The disk

    Modelled from the spec: the block device of [LibDisk] is absent from
    the sources.  It reads and writes whole sectors and fails on a sector
    number outside the image. *)

Definition disk : Type := Z -> mem.

Definition blank_disk : disk := fun _ => zero_mem.

Definition valid_sector (s : Z) : bool := (0 <=? s) && (s <? TOTAL_SECTORS).

Definition Disk_Read (d : disk) (s : Z) : option mem :=
  if valid_sector s then Some (d s) else None.

Definition Disk_Write (d : disk) (s : Z) (buf : mem) : option disk :=
  if valid_sector s then Some (fun s' => if s' =? s then buf else d s') else None.

(** ** Bitmaps *)

(** The inner loop of [bitmap_init]: bytes [j], [j+1], ... of one sector;
    [n] is the number of iterations left. *)
Fixpoint bitmap_init_bytes (n : nat) (j : Z) (buf : mem) (nbits : Z) : mem * Z :=
  match n with
  | O => (buf, nbits)
  | S n' =>
      if 8 <? nbits
      then bitmap_init_bytes n' (j + 1) (mem_set buf j (byte.of_Z 255)) (nbits - 8)
      else bitmap_init_bytes n' (j + 1) (mem_set buf j (byte.of_Z (tbl BYTE10 nbits))) 0
  end.

Fixpoint bitmap_init_loop (n : nat) (i : Z) (d : disk) (start : Z)
  (buf : mem) (nbits : Z) : disk :=
  match n with
  | O => d
  | S n' =>
      let '(buf', nbits') :=
        if 0 <? nbits
        then bitmap_init_bytes (Z.to_nat SECTOR_SIZE) 0 buf nbits
        else (mem_fill buf 0 SECTOR_SIZE Byte.x00, nbits) in
      match Disk_Write d (start + i) buf' with
      | None => d
      | Some d' => bitmap_init_loop n' (i + 1) d' start buf' nbits'
      end
  end.

Definition bitmap_init (d : disk) (start num nbits : Z) : disk :=
  bitmap_init_loop (Z.to_nat num) 0 d start zero_mem nbits.

(** The [while (k < 8)] loop of [bitmap_first_unused] on the byte [b]:
    returns the updated byte and [k]. *)
Fixpoint set_first_clear (n : nat) (k : Z) (b : Z) : Z * Z :=
  match n with
  | O => (b, k)
  | S n' =>
      if Z.land (tbl BYTE1 k) b =? 0
      then (Z.lor b (tbl BYTE1 k), k)
      else set_first_clear n' (k + 1) b
  end.

(** The [for (j ...)] loop over the bytes of one sector: [Some] when a
    byte below [0xff] is met, with the updated buffer and [j * 8 + k]. *)
Fixpoint scan_sector (n : nat) (j : Z) (buf : mem) (nbits : Z) : option (mem * Z) :=
  match n with
  | O => None
  | S n' =>
      if nbits <=? j then None
      else if byte.unsigned (buf j) <? 255
      then let '(b', k) := set_first_clear 8 0 (byte.unsigned (buf j)) in
           Some (mem_set buf j (byte.of_Z b'), j * 8 + k)
      else scan_sector n' (j + 1) buf nbits
  end.

Fixpoint bitmap_first_unused_loop (n : nat) (i : Z) (d : disk)
  (start nbits : Z) : disk * Z :=
  match n with
  | O => (d, -1)
  | S n' =>
      match Disk_Read d (start + i) with
      | None => (d, -1)
      | Some buf =>
          match scan_sector (Z.to_nat SECTOR_SIZE) 0 buf nbits with
          | Some (buf', r) =>
              match Disk_Write d (start + i) buf' with
              | None => (d, -1)
              | Some d' => (d', i * SECTOR_SIZE * 8 + r)
              end
          | None => bitmap_first_unused_loop n' (i + 1) d start (nbits - SECTOR_SIZE)
          end
      end
  end.

Definition bitmap_first_unused (d : disk) (start num nbits : Z) : disk * Z :=
  bitmap_first_unused_loop (Z.to_nat num) 0 d start nbits.

Definition bitmap_reset (d : disk) (start num ibit : Z) : exec (disk * Z) :=
  let ibyte := ibit ÷ 8 in
  let i := ibyte ÷ SECTOR_SIZE in
  _ <- assert ((0 <=? i) && (i <? num)) ;;
  match Disk_Read d (start + i) with
  | None => Done (d, -1)
  | Some buf =>
      let j := Z.rem ibyte SECTOR_SIZE in
      let b := Z.land (byte.unsigned (buf j)) (tbl BYTE0 (Z.rem ibit 8)) in
      match Disk_Write d (start + i) (mem_set buf j (byte.of_Z b)) with
      | None => Done (d, -1)
      | Some d' => Done (d', 0)
      end
  end.

(** Bit [ibit] of the bitmap that starts at sector [start]; bit 0 is the
    most significant bit of byte 0. *)
Definition bitmap_bit (d : disk) (start ibit : Z) : bool :=
  negb (Z.land (byte.unsigned (d (start + (ibit ÷ 8) ÷ SECTOR_SIZE)
                                 (Z.rem (ibit ÷ 8) SECTOR_SIZE)))
               (tbl BYTE1 (Z.rem ibit 8)) =? 0).

(** ** File names and path resolution *)

(** [(int)name[i]] for a [char]: bytes above 127 are negative. *)
Definition char_to_int (c : byte) : Z :=
  let u := byte.unsigned c in if u <? 128 then u else u - 256.

(** The test inside the loop of [illegal_filename], as written. *)
Definition illegal_char (ch : Z) : bool :=
  ((ch <? 65) && (90 <? ch)) && ((ch <? 97) && (122 <? ch))
  && ((ch <? 48) && (57 <? ch))
  && negb (ch =? 45) && negb (ch =? 46) && negb (ch =? 95).

Fixpoint illegal_filename_loop (name : cstring) : Z :=
  match name with
  | [] => 0
  | c :: name' =>
      if illegal_char (char_to_int c) then 1 else illegal_filename_loop name'
  end.

Definition illegal_filename (name : cstring) : Z :=
  let name_size := Z.of_nat (List.length name) in
  if MAX_NAME - 1 <? name_size then 1 else illegal_filename_loop name.

(** The [for (i ...)] loop of [find_child_inode] over one sector of
    directory entries. *)
Fixpoint scan_dirents (n : nat) (i : Z) (buf : mem) (fname : cstring)
  (nentries : Z) : option Z :=
  match n with
  | O => None
  | S n' =>
      if nentries <? i then None
      else if streq_at buf (i * sizeof_dirent) fname
      then Some (dirent_inode buf (i * sizeof_dirent))
      else scan_dirents n' (i + 1) buf fname nentries
  end.

(** The [while (nentries > 0)] loop of [find_child_inode]; the result is
    the return value with the new [cached_inode_sector] and
    [cached_inode_buffer]. *)
Fixpoint find_child_loop (fuel : nat) (d : disk) (parent : Z) (fname : cstring)
  (csec : Z) (cbuf : mem) (nentries idx : Z) : exec (Z * Z * mem) :=
  if 0 <? nentries then
    match fuel with
    | O => Stuck
    | S fuel' =>
        match Disk_Read d (inode_data cbuf parent idx) with
        | None => Done (-2, csec, cbuf)
        | Some buf =>
            match scan_dirents (Z.to_nat DIRENTS_PER_SECTOR) 0 buf fname nentries with
            | Some child_inode =>
                let sector := INODE_TABLE_START_SECTOR + child_inode ÷ INODES_PER_SECTOR in
                if negb (sector =? csec) then
                  match Disk_Read d sector with
                  | None => Done (-2, sector, cbuf)
                  | Some cbuf' => Done (child_inode, sector, cbuf')
                  end
                else Done (child_inode, csec, cbuf)
            | None =>
                find_child_loop fuel' d parent fname csec cbuf
                  (nentries - DIRENTS_PER_SECTOR) (idx + 1)
            end
        end
    end
  else Done (-1, csec, cbuf).

Definition find_child_inode (d : disk) (parent_inode : Z) (fname : cstring)
  (cached_inode_sector : Z) (cached_inode_buffer : mem) : exec (Z * Z * mem) :=
  let cached_start_entry :=
    (cached_inode_sector - INODE_TABLE_START_SECTOR) * INODES_PER_SECTOR in
  let offset := parent_inode - cached_start_entry in
  _ <- assert ((0 <=? offset) && (offset <? INODES_PER_SECTOR)) ;;
  let parent := offset * sizeof_inode in
  if negb (inode_type cached_inode_buffer parent =? 1)
  then Done (-2, cached_inode_sector, cached_inode_buffer)
  else
    let nentries := inode_size cached_inode_buffer parent in
    find_child_loop (Z.to_nat nentries) d parent fname
      cached_inode_sector cached_inode_buffer nentries 0.

(** [strsep(&lpath, "/")], called until it returns [NULL]: the pieces
    between the separators, empty ones included. *)
Definition slash : byte := Byte.x2f.

Fixpoint strsep_all (s : cstring) (cur : cstring) : list cstring :=
  match s with
  | [] => [rev cur]
  | c :: s' =>
      if Byte.eqb c slash then rev cur :: strsep_all s' []
      else strsep_all s' (c :: cur)
  end.

(** What [follow_path] hands back: [PathError] is the return value -1,
    which leaves [*last_inode] unwritten; [PathOk] carries the returned
    parent inode, [*last_inode] and the last name copied to [last_fname]
    (empty when the path has no component). *)
Inductive path_result : Type :=
| PathError
| PathOk (parent_inode last_inode : Z) (last_fname : cstring).

Fixpoint follow_tokens (d : disk) (tokens : list cstring)
  (parent_inode child_inode : Z) (csec : Z) (cbuf : mem)
  (last_fname : cstring) : exec path_result :=
  match tokens with
  | [] =>
      if child_inode <? -1 then Done PathError
      else
        let parent_inode :=
          if (parent_inode =? -1) && (child_inode =? 0) then 0 else parent_inode in
        Done (PathOk parent_inode child_inode last_fname)
  | token :: rest =>
      match token with
      | [] => follow_tokens d rest parent_inode child_inode csec cbuf last_fname
      | _ =>
          if negb (illegal_filename token =? 0) then Done PathError
          else if child_inode <? 0 then Done PathError
          else
            '(r, csec', cbuf') <- find_child_inode d child_inode token csec cbuf ;;
            follow_tokens d rest child_inode r csec' cbuf' token
      end
  end.

Definition follow_path (d : disk) (path : option cstring) : exec path_result :=
  match path with
  | None => Done PathError
  | Some [] => Done PathError
  | Some (c :: rest) =>
      if negb (Byte.eqb c slash) then Done PathError
      else
        let pathstore := firstn (Z.to_nat (MAX_PATH - 1)) rest in
        let cached_sector := INODE_TABLE_START_SECTOR in
        match Disk_Read d cached_sector with
        | None => Done PathError
        | Some cached_buffer =>
            follow_tokens d (strsep_all pathstore []) (-1) 0
              cached_sector cached_buffer []
        end
  end.

(** ** Directory entries: [add_inode] and [remove_inode] *)

(** The tail of [add_inode], from "add the dirent and write to disk". *)
Definition add_dirent (d : disk) (inode_sector : Z) (inode_buffer : mem)
  (parent : Z) (group : Z) (dirent_buffer : mem) (file : cstring)
  (child_inode : Z) : exec (disk * Z) :=
  let start_entry := group * DIRENTS_PER_SECTOR in
  let offset := inode_size inode_buffer parent - start_entry in
  let dirent := offset * sizeof_dirent in
  let dirent_buffer :=
    store_int (strncpy dirent_buffer dirent file MAX_NAME)
      (dirent + MAX_NAME) child_inode in
  match Disk_Write d (inode_data inode_buffer parent group) dirent_buffer with
  | None => Done (d, -1)
  | Some d =>
      let inode_buffer :=
        set_inode_size inode_buffer parent (inode_size inode_buffer parent + 1) in
      match Disk_Write d inode_sector inode_buffer with
      | None => Done (d, -1)
      | Some d => Done (d, 0)
      end
  end.

Definition add_inode (d : disk) (type : Z) (parent_inode : Z) (file : cstring)
  : exec (disk * Z) :=
  let '(d, child_inode) :=
    bitmap_first_unused d INODE_BITMAP_START_SECTOR INODE_BITMAP_SECTORS
      INODE_BITMAP_SIZE in
  if child_inode <? 0 then Done (d, -1)
  else
    let inode_sector := INODE_TABLE_START_SECTOR + child_inode ÷ INODES_PER_SECTOR in
    match Disk_Read d inode_sector with
    | None => Done (d, -1)
    | Some inode_buffer =>
        let inode_start_entry :=
          (inode_sector - INODE_TABLE_START_SECTOR) * INODES_PER_SECTOR in
        let offset := child_inode - inode_start_entry in
        _ <- assert ((0 <=? offset) && (offset <? INODES_PER_SECTOR)) ;;
        let child := offset * sizeof_inode in
        let inode_buffer :=
          set_inode_type (mem_fill inode_buffer child sizeof_inode Byte.x00)
            child type in
        match Disk_Write d inode_sector inode_buffer with
        | None => Done (d, -1)
        | Some d =>
            let inode_sector :=
              INODE_TABLE_START_SECTOR + parent_inode ÷ INODES_PER_SECTOR in
            match Disk_Read d inode_sector with
            | None => Done (d, -1)
            | Some inode_buffer =>
                let inode_start_entry :=
                  (inode_sector - INODE_TABLE_START_SECTOR) * INODES_PER_SECTOR in
                let offset := parent_inode - inode_start_entry in
                _ <- assert ((0 <=? offset) && (offset <? INODES_PER_SECTOR)) ;;
                let parent := offset * sizeof_inode in
                if negb (inode_type inode_buffer parent =? 1) then Done (d, -2)
                else
                  let group := inode_size inode_buffer parent ÷ DIRENTS_PER_SECTOR in
                  if group * DIRENTS_PER_SECTOR =? inode_size inode_buffer parent
                  then
                    let '(d, newsec) :=
                      bitmap_first_unused d SECTOR_BITMAP_START_SECTOR
                        SECTOR_BITMAP_SECTORS SECTOR_BITMAP_SIZE in
                    if newsec <? 0 then Done (d, -1)
                    else
                      add_dirent d inode_sector
                        (set_inode_data inode_buffer parent group newsec)
                        parent group
                        (mem_fill zero_mem 0 SECTOR_SIZE Byte.x00)
                        file child_inode
                  else
                    match Disk_Read d (inode_data inode_buffer parent group) with
                    | None => Done (d, -1)
                    | Some dirent_buffer =>
                        add_dirent d inode_sector inode_buffer parent group
                          dirent_buffer file child_inode
                    end
            end
        end
    end.

(** The "reclaim all data blocks" loop of [remove_inode]; the return
    value of [bitmap_reset] is dropped, as in the code. *)
Fixpoint reclaim_blocks (n : nat) (g : Z) (d : disk) (inode_buffer : mem)
  (child : Z) : exec disk :=
  match n with
  | O => Done d
  | S n' =>
      '(d, _) <- bitmap_reset d SECTOR_BITMAP_START_SECTOR SECTOR_BITMAP_SECTORS
                   (inode_data inode_buffer child g) ;;
      reclaim_blocks n' (g + 1) d inode_buffer child
  end.

(** The [for (i ...)] loop of [remove_inode]: the offset of the first
    entry of the sector whose inode is [child_inode]. *)
Fixpoint scan_dirents_inode (n : nat) (i : Z) (buf : mem) (child_inode : Z)
  (nentries : Z) : option Z :=
  match n with
  | O => None
  | S n' =>
      if nentries <? i then None
      else if dirent_inode buf (i * sizeof_dirent) =? child_inode
      then Some (i * sizeof_dirent)
      else scan_dirents_inode n' (i + 1) buf child_inode nentries
  end.

Fixpoint replace_child_loop (fuel : nat) (d : disk) (inode_buffer : mem)
  (parent : Z) (child_inode : Z) (last_one : mem) (nentries idx : Z)
  : exec (disk * Z) :=
  if 0 <? nentries then
    match fuel with
    | O => Stuck
    | S fuel' =>
        match Disk_Read d (inode_data inode_buffer parent idx) with
        | None => Done (d, -1)
        | Some buf =>
            match scan_dirents_inode (Z.to_nat DIRENTS_PER_SECTOR) 0 buf
                    child_inode nentries with
            | Some p =>
                let buf := memcpy buf p last_one 0 sizeof_dirent in
                match Disk_Write d (inode_data inode_buffer parent idx) buf with
                | None => Done (d, -1)
                | Some d => Done (d, 0)
                end
            | None =>
                replace_child_loop fuel' d inode_buffer parent child_inode
                  last_one (nentries - DIRENTS_PER_SECTOR) (idx + 1)
            end
        end
    end
  else Stuck.

Definition remove_inode (d : disk) (type : Z) (parent_inode child_inode : Z)
  : exec (disk * Z) :=
  let inode_sector := INODE_TABLE_START_SECTOR + child_inode ÷ INODES_PER_SECTOR in
  match Disk_Read d inode_sector with
  | None => Done (d, -1)
  | Some inode_buffer =>
      let inode_start_entry :=
        (inode_sector - INODE_TABLE_START_SECTOR) * INODES_PER_SECTOR in
      let offset := child_inode - inode_start_entry in
      _ <- assert ((0 <=? offset) && (offset <? INODES_PER_SECTOR)) ;;
      let child := offset * sizeof_inode in
      if negb (inode_type inode_buffer child =? type) then Done (d, -3)
      else if (type =? 1) && (0 <? inode_size inode_buffer child) then Done (d, -2)
      else
        d <- (if type =? 0
              then reclaim_blocks
                     (Z.to_nat (inode_size inode_buffer child ÷ SECTOR_SIZE)) 0
                     d inode_buffer child
              else Done d) ;;
        '(d, _) <- bitmap_reset d INODE_BITMAP_START_SECTOR INODE_BITMAP_SECTORS
                     child_inode ;;
        let inode_sector :=
          INODE_TABLE_START_SECTOR + parent_inode ÷ INODES_PER_SECTOR in
        match Disk_Read d inode_sector with
        | None => Done (d, -1)
        | Some inode_buffer =>
            let inode_start_entry :=
              (inode_sector - INODE_TABLE_START_SECTOR) * INODES_PER_SECTOR in
            let offset := parent_inode - inode_start_entry in
            _ <- assert ((0 <=? offset) && (offset <? INODES_PER_SECTOR)) ;;
            let parent := offset * sizeof_inode in
            _ <- assert (inode_type inode_buffer parent =? 1) ;;
            let inode_buffer :=
              set_inode_size inode_buffer parent (inode_size inode_buffer parent - 1) in
            let group := inode_size inode_buffer parent ÷ DIRENTS_PER_SECTOR in
            match Disk_Read d (inode_data inode_buffer parent group) with
            | None => Done (d, -1)
            | Some dirent_buffer =>
                let start_entry := group * DIRENTS_PER_SECTOR in
                let offset := inode_size inode_buffer parent - start_entry in
                let last_one :=
                  memcpy zero_mem 0 dirent_buffer (offset * sizeof_dirent)
                    sizeof_dirent in
                d <- (if offset =? 0
                      then '(d, _) <- bitmap_reset d SECTOR_BITMAP_START_SECTOR
                                        SECTOR_BITMAP_SECTORS
                                        (inode_data inode_buffer parent group) ;;
                           Done d
                      else Done d) ;;
                match Disk_Write d inode_sector inode_buffer with
                | None => Done (d, -1)
                | Some d =>
                    if dirent_inode last_one 0 =? child_inode then Done (d, 0)
                    else
                      let nentries := inode_size inode_buffer parent in
                      replace_child_loop (Z.to_nat nentries) d inode_buffer
                        parent child_inode last_one nentries 0
                end
            end
        end
  end.

(** ** The open-file table and the library state *)

Record open_file : Type := {
  of_inode : Z;   (* 0 means entry not used *)
  of_size : Z;
  of_pos : Z
}.

Record state : Type := {
  st_disk : disk;
  open_files : Z -> open_file;
  osErrno : os_error
}.

Definition set_disk (st : state) (d : disk) : state :=
  {| st_disk := d; open_files := open_files st; osErrno := osErrno st |}.

Definition set_errno (st : state) (e : os_error) : state :=
  {| st_disk := st_disk st; open_files := open_files st; osErrno := e |}.

Definition set_open_file (st : state) (fd : Z) (f : open_file) : state :=
  {| st_disk := st_disk st;
     open_files := fun i => if i =? fd then f else open_files st i;
     osErrno := osErrno st |}.

(** [open_files[fd]]: an index outside the array has no defined value. *)
Definition open_file_at (st : state) (fd : Z) : exec open_file :=
  if (0 <=? fd) && (fd <? MAX_OPEN_FILES) then Done (open_files st fd) else Stuck.

Fixpoint is_file_open_loop (n : nat) (i : Z) (tab : Z -> open_file) (inode : Z) : Z :=
  match n with
  | O => 0
  | S n' =>
      if of_inode (tab i) =? inode then 1
      else is_file_open_loop n' (i + 1) tab inode
  end.

Definition is_file_open (st : state) (inode : Z) : Z :=
  is_file_open_loop (Z.to_nat MAX_OPEN_FILES) 0 (open_files st) inode.

Fixpoint new_file_fd_loop (n : nat) (i : Z) (tab : Z -> open_file) : Z :=
  match n with
  | O => -1
  | S n' =>
      if of_inode (tab i) <=? 0 then i
      else new_file_fd_loop n' (i + 1) tab
  end.

Definition new_file_fd (st : state) : Z :=
  new_file_fd_loop (Z.to_nat MAX_OPEN_FILES) 0 (open_files st).

(** ** Volume life cycle *)

Definition check_magic (d : disk) : Z :=
  match Disk_Read d SUPERBLOCK_START_SECTOR with
  | None => 0
  | Some buf => if load_int buf 0 mod 2 ^ 32 =? OS_MAGIC then 1 else 0
  end.

Fixpoint format_inode_table (n : nat) (i : Z) (d : disk) : option disk :=
  match n with
  | O => Some d
  | S n' =>
      let buf := mem_fill zero_mem 0 SECTOR_SIZE Byte.x00 in
      let buf := if i =? 0 then set_inode_type (set_inode_size buf 0 0) 0 1 else buf in
      match Disk_Write d (INODE_TABLE_START_SECTOR + i) buf with
      | None => None
      | Some d => format_inode_table n' (i + 1) d
      end
  end.

(** The branch of [FS_Boot] that creates a new file system on the disk
    [d]; [None] is the failure that sets [E_GENERAL]. *)
Definition format (d : disk) : option disk :=
  let buf := store_int (mem_fill zero_mem 0 SECTOR_SIZE Byte.x00) 0 OS_MAGIC in
  match Disk_Write d SUPERBLOCK_START_SECTOR buf with
  | None => None
  | Some d =>
      let d := bitmap_init d INODE_BITMAP_START_SECTOR INODE_BITMAP_SECTORS 1 in
      let d := bitmap_init d SECTOR_BITMAP_START_SECTOR SECTOR_BITMAP_SECTORS
                 DATABLOCK_START_SECTOR in
      format_inode_table (Z.to_nat INODE_TABLE_SECTORS) 0 d
  end.

Definition no_open_files : Z -> open_file :=
  fun _ => {| of_inode := 0; of_size := 0; of_pos := 0 |}.

(** [FS_Boot]: [image] is the disk loaded from the backstore file, [None]
    when the file does not exist yet.  [Disk_Init], [Disk_Load] and
    [Disk_Save] belong to the absent device layer; a new disk is blank, a
    loaded image has the expected size and saving succeeds. *)
Definition FS_Boot (image : option disk) : state * Z :=
  let fail (d : disk) :=
    ({| st_disk := d; open_files := no_open_files; osErrno := E_GENERAL |}, -1) in
  match image with
  | None =>
      match format blank_disk with
      | None => fail blank_disk
      | Some d => ({| st_disk := d; open_files := no_open_files; osErrno := E_NONE |}, 0)
      end
  | Some d =>
      if check_magic d =? 1
      then ({| st_disk := d; open_files := no_open_files; osErrno := E_NONE |}, 0)
      else fail d
  end.

(** ** Files *)

Definition create_file_or_directory (st : state) (type : Z)
  (pathname : option cstring) : exec (state * Z) :=
  r <- follow_path (st_disk st) pathname ;;
  match r with
  | PathOk parent_inode child_inode last_fname =>
      if 0 <=? parent_inode then
        if 0 <=? child_inode then Done (set_errno st E_CREATE, -1)
        else
          '(d, ret) <- add_inode (st_disk st) type parent_inode last_fname ;;
          if 0 <=? ret then Done (set_disk st d, 0)
          else Done (set_errno (set_disk st d) E_CREATE, -1)
      else Done (set_errno st E_CREATE, -1)
  | PathError => Done (set_errno st E_CREATE, -1)
  end.

Definition File_Create (st : state) (file : option cstring) : exec (state * Z) :=
  create_file_or_directory st 0 file.

Definition File_Unlink (st : state) (file : option cstring) : exec (state * Z) :=
  r <- follow_path (st_disk st) file ;;
  match r with
  | PathOk parent_inode child_inode _ =>
      if 0 <=? parent_inode then
        if 0 <=? child_inode then
          if negb (is_file_open st child_inode =? 0)
          then Done (set_errno st E_FILE_IN_USE, -1)
          else
            '(d, ret) <- remove_inode (st_disk st) 0 parent_inode child_inode ;;
            if 0 <=? ret then Done (set_disk st d, 0)
            else Done (set_errno (set_disk st d) E_GENERAL, -1)
        else Done (set_errno st E_NO_SUCH_FILE, -1)
      else Done (set_errno st E_GENERAL, -1)
  | PathError => Done (set_errno st E_GENERAL, -1)
  end.

(** [File_Open] reads [child_inode] whatever [follow_path] returned; after
    a [PathError] the variable was never written and the read has no
    defined value: that run is [Stuck]. *)
Definition File_Open (st : state) (file : option cstring) : exec (state * Z) :=
  let fd := new_file_fd st in
  if fd <? 0 then Done (set_errno st E_TOO_MANY_OPEN_FILES, -1)
  else
    r <- follow_path (st_disk st) file ;;
    match r with
    | PathError => Stuck
    | PathOk _ child_inode _ =>
        if 0 <=? child_inode then
          let inode_sector :=
            INODE_TABLE_START_SECTOR + child_inode ÷ INODES_PER_SECTOR in
          match Disk_Read (st_disk st) inode_sector with
          | None => Done (set_errno st E_GENERAL, -1)
          | Some inode_buffer =>
              let inode_start_entry :=
                (inode_sector - INODE_TABLE_START_SECTOR) * INODES_PER_SECTOR in
              let offset := child_inode - inode_start_entry in
              _ <- assert ((0 <=? offset) && (offset <? INODES_PER_SECTOR)) ;;
              let child := offset * sizeof_inode in
              if negb (inode_type inode_buffer child =? 0)
              then Done (set_errno st E_GENERAL, -1)
              else
                Done (set_open_file st fd
                        {| of_inode := child_inode;
                           of_size := inode_size inode_buffer child;
                           of_pos := 0 |}, fd)
          end
        else Done (set_errno st E_NO_SUCH_FILE, -1)
    end.

(** A caller's buffer pointer: [None] is [NULL], [Some (m, off)] points
    at offset [off] of the block [m]. *)
Definition pointer : Type := option (mem * Z).

Definition File_Read (st : state) (fd : Z) (buffer : pointer) (size : Z)
  : exec (state * pointer * Z) :=
  if (fd <? 0) || (MAX_OPEN_FILES <? fd) then Done (set_errno st E_BAD_FD, buffer, -1)
  else
    f <- open_file_at st fd ;;
    if of_inode f <=? 0 then Done (set_errno st E_BAD_FD, buffer, -1)
    else
      match buffer with
      | None => Done (set_errno st E_GENERAL, buffer, -1)
      | Some (bmem, boff) =>
          if size <? 0 then Done (set_errno st E_GENERAL, buffer, -1)
          else if (of_pos f =? of_size f) || (size =? 0) then Done (st, buffer, 0)
          else
            let inode_sector :=
              INODE_TABLE_START_SECTOR + of_inode f ÷ INODES_PER_SECTOR in
            match Disk_Read (st_disk st) inode_sector with
            | None => Done (set_errno st E_GENERAL, buffer, -1)
            | Some inode_buffer =>
                let inode_start_entry :=
                  (inode_sector - INODE_TABLE_START_SECTOR) * INODES_PER_SECTOR in
                let offset := of_inode f - inode_start_entry in
                _ <- assert ((0 <=? offset) && (offset <? INODES_PER_SECTOR)) ;;
                let inode := offset * sizeof_inode in
                _ <- assert (inode_size inode_buffer inode =? of_size f) ;;
                _ <- assert (inode_type inode_buffer inode =? 0) ;;
                let gidx := of_pos f ÷ SECTOR_SIZE in
                let start_addr := gidx * SECTOR_SIZE in
                let end_addr := start_addr + SECTOR_SIZE in
                let end_addr :=
                  if inode_size inode_buffer inode <? end_addr
                  then inode_size inode_buffer inode else end_addr in
                let size :=
                  if end_addr <? of_pos f + size then end_addr - of_pos f else size in
                let offset := of_pos f - start_addr in
                match Disk_Read (st_disk st) (inode_data inode_buffer inode gidx) with
                | None => Done (set_errno st E_GENERAL, buffer, -1)
                | Some data =>
                    let bmem := memcpy bmem boff data offset size in
                    let f := {| of_inode := of_inode f; of_size := of_size f;
                                of_pos := of_pos f + size |} in
                    Done (set_open_file st fd f, Some (bmem, boff), size)
                end
            end
      end.

(** How the [while (remain > 0)] loop of [File_Write] ends: it runs to
    completion, or returns -1 from the middle with [osErrno] set. *)
Inductive write_loop_end : Type :=
| WriteDone (d : disk) (inode_buffer : mem) (pos bidx : Z)
| WriteFail (d : disk) (pos : Z) (e : os_error).

Fixpoint File_Write_loop (fuel : nat) (d : disk) (inode_buffer : mem)
  (inode : Z) (fsize : Z) (bmem : mem) (boff : Z)
  (pos bidx remain size : Z) : exec write_loop_end :=
  if 0 <? remain then
    match fuel with
    | O => Stuck
    | S fuel' =>
        let gidx := pos ÷ SECTOR_SIZE in
        if gidx =? MAX_SECTORS_PER_FILE then Done (WriteFail d pos E_FILE_TOO_BIG)
        else
          let start_addr := gidx * SECTOR_SIZE in
          let end_addr := start_addr + SECTOR_SIZE in
          let size := if end_addr <? pos + size then end_addr - pos else size in
          let offset := pos - start_addr in
          let copy (d : disk) (inode_buffer : mem) (data : mem) :=
            let data := memcpy data offset bmem (boff + bidx) size in
            match Disk_Write d (inode_data inode_buffer inode gidx) data with
            | None => Done (WriteFail d (pos + size) E_GENERAL)
            | Some d =>
                File_Write_loop fuel' d inode_buffer inode fsize bmem boff
                  (pos + size) (bidx + size) (remain - size) (remain - size)
            end in
          if start_addr <? fsize then
            match Disk_Read d (inode_data inode_buffer inode gidx) with
            | None => Done (WriteFail d pos E_GENERAL)
            | Some data => copy d inode_buffer data
            end
          else
            let '(d, newsec) :=
              bitmap_first_unused d SECTOR_BITMAP_START_SECTOR
                SECTOR_BITMAP_SECTORS SECTOR_BITMAP_SIZE in
            if newsec <? 0 then Done (WriteFail d pos E_NO_SPACE)
            else
              copy d (set_inode_data inode_buffer inode gidx newsec)
                (mem_fill zero_mem 0 SECTOR_SIZE Byte.x00)
    end
  else Done (WriteDone d inode_buffer pos bidx).

Definition with_pos (f : open_file) (pos : Z) : open_file :=
  {| of_inode := of_inode f; of_size := of_size f; of_pos := pos |}.

Definition File_Write (st : state) (fd : Z) (buffer : pointer) (size : Z)
  : exec (state * Z) :=
  if (fd <? 0) || (MAX_OPEN_FILES <? fd) then Done (set_errno st E_BAD_FD, -1)
  else
    f <- open_file_at st fd ;;
    if of_inode f <=? 0 then Done (set_errno st E_BAD_FD, -1)
    else
      match buffer with
      | None => Done (set_errno st E_GENERAL, -1)
      | Some (bmem, boff) =>
          if size <? 0 then Done (set_errno st E_GENERAL, -1)
          else if size =? 0 then Done (st, 0)
          else
            let inode_sector :=
              INODE_TABLE_START_SECTOR + of_inode f ÷ INODES_PER_SECTOR in
            match Disk_Read (st_disk st) inode_sector with
            | None => Done (set_errno st E_GENERAL, -1)
            | Some inode_buffer =>
                let inode_start_entry :=
                  (inode_sector - INODE_TABLE_START_SECTOR) * INODES_PER_SECTOR in
                let offset := of_inode f - inode_start_entry in
                _ <- assert ((0 <=? offset) && (offset <? INODES_PER_SECTOR)) ;;
                let inode := offset * sizeof_inode in
                _ <- assert (inode_size inode_buffer inode =? of_size f) ;;
                _ <- assert (inode_type inode_buffer inode =? 0) ;;
                e <- File_Write_loop (Z.to_nat size) (st_disk st) inode_buffer
                       inode (of_size f) bmem boff (of_pos f) 0 size size ;;
                match e with
                | WriteFail d pos err =>
                    Done (set_errno (set_open_file (set_disk st d) fd (with_pos f pos))
                            err, -1)
                | WriteDone d inode_buffer pos bidx =>
                    if of_size f <? pos then
                      let f' := {| of_inode := of_inode f; of_size := pos;
                                   of_pos := pos |} in
                      let inode_buffer := set_inode_size inode_buffer inode pos in
                      match Disk_Write d inode_sector inode_buffer with
                      | None =>
                          Done (set_errno (set_open_file (set_disk st d) fd f')
                                  E_GENERAL, -1)
                      | Some d => Done (set_open_file (set_disk st d) fd f', bidx)
                      end
                    else Done (set_open_file (set_disk st d) fd (with_pos f pos), bidx)
                end
            end
      end.

Definition File_Seek (st : state) (fd : Z) (offset : Z) : exec (state * Z) :=
  f <- open_file_at st fd ;;
  if is_file_open st (of_inode f) <=? 0 then Done (set_errno st E_BAD_FD, -1)
  else if (0 <? fd) || (MAX_OPEN_FILES <? fd) then Done (set_errno st E_GENERAL, -1)
  else if (of_size f <? offset) || (offset <? 0)
  then Done (set_errno st E_SEEK_OUT_OF_BOUNDS, -1)
  else Done (set_open_file st fd (with_pos f offset), offset).

Definition File_Close (st : state) (fd : Z) : exec (state * Z) :=
  if (fd <? 0) || (MAX_OPEN_FILES <? fd) then Done (set_errno st E_BAD_FD, -1)
  else
    f <- open_file_at st fd ;;
    if of_inode f <=? 0 then Done (set_errno st E_BAD_FD, -1)
    else
      Done (set_open_file st fd
              {| of_inode := 0; of_size := of_size f; of_pos := of_pos f |}, 0).

(** ** Directories *)

Definition Dir_Create (st : state) (path : option cstring) : exec (state * Z) :=
  create_file_or_directory st 1 path.

Definition Dir_Unlink (st : state) (path : option cstring) : exec (state * Z) :=
  match path with
  | None => Done (set_errno st E_GENERAL, -1)
  | Some p =>
      if cstring_eqb p [Byte.x2f] then Done (set_errno st E_ROOT_DIR, -1)
      else
        r <- follow_path (st_disk st) path ;;
        match r with
        | PathError => Done (set_errno st E_NO_SUCH_DIR, -1)
        | PathOk parent_inode child_inode _ =>
            if parent_inode <? 0 then Done (set_errno st E_NO_SUCH_DIR, -1)
            else if child_inode <? 0 then Done (set_errno st E_NO_SUCH_DIR, -1)
            else
              '(d, ret) <- remove_inode (st_disk st) 1 parent_inode child_inode ;;
              Done (set_disk st d, ret)
        end
  end.

(** [Dir_Size] and [Dir_Read] read [child_inode] after [follow_path]
    without looking at its return value, like [File_Open]. *)
Definition Dir_Size (st : state) (path : option cstring) : exec (state * Z) :=
  match path with
  | None => Done (set_errno st E_GENERAL, -1)
  | Some _ =>
      r <- follow_path (st_disk st) path ;;
      match r with
      | PathError => Stuck
      | PathOk _ child_inode _ =>
          if child_inode <? 0 then Done (set_errno st E_NO_SUCH_DIR, -1)
          else
            let inode_sector :=
              INODE_TABLE_START_SECTOR + child_inode ÷ INODES_PER_SECTOR in
            match Disk_Read (st_disk st) inode_sector with
            | None => Done (set_errno st E_GENERAL, -1)
            | Some inode_buffer =>
                let inode_start_entry :=
                  (inode_sector - INODE_TABLE_START_SECTOR) * INODES_PER_SECTOR in
                let offset := child_inode - inode_start_entry in
                _ <- assert ((0 <=? offset) && (offset <? INODES_PER_SECTOR)) ;;
                let child := offset * sizeof_inode in
                if negb (inode_type inode_buffer child =? 1)
                then Done (set_errno st E_GENERAL, -1)
                else Done (st, inode_size inode_buffer child * sizeof_dirent)
            end
      end
  end.

(** The [while (entries > 0)] loop of [Dir_Read].  The result of
    [Disk_Read] is not checked there: when it fails, the bytes copied
    next are those of an uninitialised array. *)
Fixpoint Dir_Read_loop (fuel : nat) (d : disk) (inode_buffer : mem) (child : Z)
  (buffer : mem) (entries index i : Z) : exec mem :=
  if 0 <? entries then
    match fuel with
    | O => Stuck
    | S fuel' =>
        match Disk_Read d (inode_data inode_buffer child i) with
        | None => Stuck
        | Some sector_buffer =>
            let copy :=
              if to_size_t entries <? DIRENTS_PER_SECTOR
              then entries else DIRENTS_PER_SECTOR in
            let buffer := memcpy buffer index sector_buffer 0 (copy * sizeof_dirent) in
            Dir_Read_loop fuel' d inode_buffer child buffer
              (entries - copy) (index + copy * sizeof_dirent) (i + 1)
        end
    end
  else Done buffer.

Definition Dir_Read (st : state) (path : option cstring) (buffer : mem) (size : Z)
  : exec (state * mem * Z) :=
  match path with
  | None => Done (set_errno st E_GENERAL, buffer, -1)
  | Some _ =>
      r <- follow_path (st_disk st) path ;;
      match r with
      | PathError => Stuck
      | PathOk _ child_inode _ =>
          if child_inode <? 0 then Done (set_errno st E_NO_SUCH_DIR, buffer, -1)
          else
            let inode_sector :=
              INODE_TABLE_START_SECTOR + child_inode ÷ INODES_PER_SECTOR in
            match Disk_Read (st_disk st) inode_sector with
            | None => Done (set_errno st E_GENERAL, buffer, -1)
            | Some inode_buffer =>
                let inode_start_entry :=
                  (inode_sector - INODE_TABLE_START_SECTOR) * INODES_PER_SECTOR in
                let offset := child_inode - inode_start_entry in
                _ <- assert ((0 <=? offset) && (offset <? INODES_PER_SECTOR)) ;;
                let child := offset * sizeof_inode in
                if negb (inode_type inode_buffer child =? 1)
                then Done (set_errno st E_GENERAL, buffer, -1)
                else if to_size_t size
                        <? to_size_t (to_size_t (inode_size inode_buffer child)
                                      * sizeof_dirent)
                then Done (set_errno st E_BUFFER_TOO_SMALL, buffer, -1)
                else
                  let entries := inode_size inode_buffer child in
                  buffer <- Dir_Read_loop (Z.to_nat entries) (st_disk st)
                              inode_buffer child buffer entries 0 0 ;;
                  Done (st, buffer, inode_size inode_buffer child)
            end
      end
  end.

End Volume.

(** * Vocabulary of the properties *)

Section Vocabulary.
Context {G : geometry}.

(** Where inode [ino] lives: its sector of the inode table and its byte
    offset in that sector, as every function of the library computes
    them. *)
Definition inode_sector_of (ino : Z) : Z :=
  INODE_TABLE_START_SECTOR + ino ÷ INODES_PER_SECTOR.

Definition inode_offset_of (ino : Z) : Z :=
  (ino - (inode_sector_of ino - INODE_TABLE_START_SECTOR) * INODES_PER_SECTOR)
  * sizeof_inode.

Definition inode_size_of (d : disk) (ino : Z) : Z :=
  inode_size (d (inode_sector_of ino)) (inode_offset_of ino).

Definition inode_type_of (d : disk) (ino : Z) : Z :=
  inode_type (d (inode_sector_of ino)) (inode_offset_of ino).

Definition inode_data_of (d : disk) (ino : Z) (g : Z) : Z :=
  inode_data (d (inode_sector_of ino)) (inode_offset_of ino) g.

(** The index of bit [k] of byte [j] of the [i]-th sector of a bitmap. *)
Definition bit_index (i j k : Z) : Z := i * SECTOR_SIZE * 8 + j * 8 + k.

(** The disk [d] after bit [k] of byte [j] of sector [s] has been set
    and the sector written back. *)
Definition set_bit (d : disk) (s j k : Z) : disk :=
  fun s' => if s' =? s
            then mem_set (d s) j
                   (byte.of_Z (Z.lor (byte.unsigned (d s j)) (tbl BYTE1 k)))
            else d s'.

(** The cursor of every occupied session lies inside its cached size. *)
Definition cursor_inv (st : state) : Prop :=
  forall fd, 0 <= fd < MAX_OPEN_FILES ->
             0 < of_inode (open_files st fd) ->
             0 <= of_pos (open_files st fd) <= of_size (open_files st fd).

(** The calls of the API. *)
Inductive api_call : Type :=
| CallFileCreate (file : option cstring)
| CallFileUnlink (file : option cstring)
| CallFileOpen (file : option cstring)
| CallFileRead (fd : Z) (buffer : pointer) (size : Z)
| CallFileWrite (fd : Z) (buffer : pointer) (size : Z)
| CallFileSeek (fd : Z) (offset : Z)
| CallFileClose (fd : Z)
| CallDirCreate (path : option cstring)
| CallDirUnlink (path : option cstring)
| CallDirSize (path : option cstring)
| CallDirRead (path : option cstring) (buffer : mem) (size : Z).

Definition run_call (st : state) (c : api_call) : exec (state * Z) :=
  match c with
  | CallFileCreate file => File_Create st file
  | CallFileUnlink file => File_Unlink st file
  | CallFileOpen file => File_Open st file
  | CallFileRead fd buffer size =>
      '(st', _, r) <- File_Read st fd buffer size ;; Done (st', r)
  | CallFileWrite fd buffer size => File_Write st fd buffer size
  | CallFileSeek fd offset => File_Seek st fd offset
  | CallFileClose fd => File_Close st fd
  | CallDirCreate path => Dir_Create st path
  | CallDirUnlink path => Dir_Unlink st path
  | CallDirSize path => Dir_Size st path
  | CallDirRead path buffer size =>
      '(st', _, r) <- Dir_Read st path buffer size ;; Done (st', r)
  end.

(** The calls that only read the volume, and the calls that work on a
    path without a descriptor. *)
Definition reads_volume_only (c : api_call) : bool :=
  match c with
  | CallFileOpen _ | CallFileRead _ _ _ | CallFileSeek _ _ | CallFileClose _
  | CallDirSize _ | CallDirRead _ _ _ => true
  | _ => false
  end.

Definition works_on_path_only (c : api_call) : bool :=
  match c with
  | CallFileCreate _ | CallFileUnlink _ | CallDirCreate _ | CallDirUnlink _
  | CallDirSize _ | CallDirRead _ _ _ => true
  | _ => false
  end.


(** A successful [File_Open] of a file whose inode on the disk holds a
    negative size: the new session caches that size at position 0. *)
Definition opened_negative_size (st : state) (c : api_call)
  (st' : state) (r : Z) : Prop :=
  exists file parent child name,
    c = CallFileOpen file
    /\ r = new_file_fd st
    /\ 0 <= r < MAX_OPEN_FILES
    /\ follow_path (st_disk st) file = Done (PathOk parent child name)
    /\ 0 < child
    /\ inode_size_of (st_disk st) child < 0
    /\ open_files st'
       = open_files (set_open_file st r
                       {| of_inode := child;
                          of_size := inode_size_of (st_disk st) child;
                          of_pos := 0 |}).

(** What the proofs ask of the four constants: sectors, inodes and
    files exist, an inode fits into a sector, the largest file size and
    every index of the sector bitmap are values of an [int], and the
    first data block lies on the disk. *)
Record geometry_ok : Prop := {
  ok_sector_size : 0 < SECTOR_SIZE;
  ok_total_sectors : 0 < TOTAL_SECTORS;
  ok_inodes_per_sector : 0 < INODES_PER_SECTOR;
  ok_max_files : 0 < MAX_FILES;
  ok_file_sectors : 0 <= MAX_SECTORS_PER_FILE;
  ok_file_size : MAX_SECTORS_PER_FILE * SECTOR_SIZE <= int_max;
  ok_sector_index : SECTOR_BITMAP_SECTORS * SECTOR_SIZE * 8 <= int_max + 1;
  ok_metadata : DATABLOCK_START_SECTOR <= TOTAL_SECTORS
}.

(** The sector bitmap marks the superblock, the bitmaps and the inode
    table as used, as [FS_Boot] sets it up. *)
Definition metadata_reserved (d : disk) : Prop :=
  forall s, 0 <= s < DATABLOCK_START_SECTOR ->
            bitmap_bit d SECTOR_BITMAP_START_SECTOR s = true.

(** The number of sectors of the disk whose bit in the sector bitmap is
    clear: the sectors that [File_Write] can still take. *)
Definition free_sectors (d : disk) : Z :=
  Z.of_nat
    (List.length
       (filter (fun s => negb (bitmap_bit d SECTOR_BITMAP_START_SECTOR s))
          (map Z.of_nat (seq 0 (Z.to_nat TOTAL_SECTORS))))).

(** Descriptor [fd] is a session on a file that has just been created:
    the inode is an empty regular file, the session caches size 0 and
    stands at offset 0. *)
Record fresh_open_file (st : state) (fd : Z) : Prop := {
  fresh_fd : 0 <= fd < MAX_OPEN_FILES;
  fresh_inode : 0 < of_inode (open_files st fd) < MAX_FILES;
  fresh_size : of_size (open_files st fd) = 0;
  fresh_pos : of_pos (open_files st fd) = 0;
  fresh_inode_size : inode_size_of (st_disk st) (of_inode (open_files st fd)) = 0;
  fresh_inode_type : inode_type_of (st_disk st) (of_inode (open_files st fd)) = 0
}.

(** The blocks that [inode_buffer] lists for the inode at offset [p]
    hold the first [len] bytes of [src + soff]: block [g] is a data
    sector of the disk, marked used, with the bytes
    [g * SECTOR_SIZE ...] of the source. *)
Definition blocks_hold (d : disk) (inode_buffer : mem) (p : Z) (len : Z)
  (src : mem) (soff : Z) : Prop :=
  forall g, 0 <= g -> g * SECTOR_SIZE < len ->
    valid_sector (inode_data inode_buffer p g) = true
    /\ DATABLOCK_START_SECTOR <= inode_data inode_buffer p g
    /\ bitmap_bit d SECTOR_BITMAP_START_SECTOR (inode_data inode_buffer p g) = true
    /\ forall x, 0 <= x < SECTOR_SIZE -> g * SECTOR_SIZE + x < len ->
         d (inode_data inode_buffer p g) x = src (soff + (g * SECTOR_SIZE + x)).

(** The file of inode [ino] on disk [d] has size [n] and its blocks
    hold the [n] bytes of [src + soff]. *)
Definition file_holds (d : disk) (ino n : Z) (src : mem) (soff : Z) : Prop :=
  valid_sector (inode_sector_of ino) = true
  /\ inode_size_of d ino = n
  /\ inode_type_of d ino = 0
  /\ forall g, 0 <= g -> g * SECTOR_SIZE < n ->
       valid_sector (inode_data_of d ino g) = true
       /\ forall x, 0 <= x < SECTOR_SIZE -> g * SECTOR_SIZE + x < n ->
            d (inode_data_of d ino g) x = src (soff + (g * SECTOR_SIZE + x)).

(** What creating an entry asks of the constants beyond [geometry_ok]:
    a sector holds a directory entry, every index of the inode bitmap
    is an inode of the table, and inode numbers are values of an
    [int]. *)
Record directory_geometry : Prop := {
  dir_dirents_per_sector : 0 < DIRENTS_PER_SECTOR;
  dir_inode_numbers : 8 * INODE_BITMAP_SIZE <= MAX_FILES;
  dir_inode_int : MAX_FILES <= int_max
}.

(** The directory of inode [parent] can take an entry named [file]:
    the inode is in use, its size leaves room for one more entry, the
    blocks that hold its entries are distinct data sectors marked used,
    and none of its entries bears the name. *)
Record dir_ready (d : disk) (parent : Z) (file : cstring) : Prop := {
  ready_parent : 0 <= parent < MAX_FILES;
  ready_used : bitmap_bit d INODE_BITMAP_START_SECTOR parent = true;
  ready_room :
    0 <= inode_size_of d parent < MAX_SECTORS_PER_FILE * DIRENTS_PER_SECTOR;
  ready_blocks :
    forall g, 0 <= g -> g * DIRENTS_PER_SECTOR < inode_size_of d parent ->
      DATABLOCK_START_SECTOR <= inode_data_of d parent g < TOTAL_SECTORS
      /\ bitmap_bit d SECTOR_BITMAP_START_SECTOR (inode_data_of d parent g) = true;
  ready_distinct :
    forall g g', 0 <= g < g' -> g' * DIRENTS_PER_SECTOR < inode_size_of d parent ->
      inode_data_of d parent g <> inode_data_of d parent g';
  ready_name : Z.of_nat (List.length file) < MAX_NAME;
  ready_absent :
    forall g i, 0 <= g -> 0 <= i < DIRENTS_PER_SECTOR ->
      g * DIRENTS_PER_SECTOR + i < inode_size_of d parent ->
      streq_at (d (inode_data_of d parent g)) (i * sizeof_dirent) file = false
}.

(** What [add_inode] leaves of the bitmaps and where it puts the
    entry: every other inode bit is as before, the sector bitmap
    changes at most by the bit of a sector that the entry opens, and
    the last entry of the directory holds the new inode. *)
Definition add_inode_frame (d d' : disk) (parent child : Z) : Prop :=
  let n := inode_size_of d parent in
  let group := n ÷ DIRENTS_PER_SECTOR in
  let off := n - group * DIRENTS_PER_SECTOR in
  let dsec := inode_data_of d' parent group in
  (forall b, 0 <= b < MAX_FILES -> b <> child ->
     bitmap_bit d' INODE_BITMAP_START_SECTOR b
     = bitmap_bit d INODE_BITMAP_START_SECTOR b)
  /\ (forall s, 0 <= s < TOTAL_SECTORS -> off <> 0 \/ s <> dsec ->
        bitmap_bit d' SECTOR_BITMAP_START_SECTOR s
        = bitmap_bit d SECTOR_BITMAP_START_SECTOR s)
  /\ (off = 0 -> bitmap_bit d SECTOR_BITMAP_START_SECTOR dsec = false)
  /\ DATABLOCK_START_SECTOR <= dsec < TOTAL_SECTORS
  /\ dirent_inode (d' dsec) (off * sizeof_dirent) = child.

(** The components that [follow_path] walks through: what [strsep]
    cuts out of the path after its first byte, within [MAX_PATH - 1]
    bytes. *)
Definition path_components (p : cstring) : list cstring :=
  strsep_all (firstn (Z.to_nat (MAX_PATH - 1)) (tl p)) [].

(** The names of a path: its components that are not empty. *)
Definition path_names (p : cstring) : list cstring :=
  filter (fun t => match t with [] => false | _ => true end) (path_components p).

(** The caller's loop
    [while (got < n) { r = File_Read(fd, buf + got, n - got);
                       if (r <= 0) break; got += r; }],
    which returns [got]. *)
Fixpoint read_all (fuel : nat) (st : state) (fd : Z) (bmem : mem) (got n : Z)
  : exec (state * mem * Z) :=
  if got <? n then
    match fuel with
    | O => Stuck
    | S fuel' =>
        '(st', buffer', r) <- File_Read st fd (Some (bmem, got)) (n - got) ;;
        let bmem' := match buffer' with Some (m, _) => m | None => bmem end in
        if r <=? 0 then Done (st', bmem', got)
        else read_all fuel' st' fd bmem' (got + r) n
    end
  else Done (st, bmem, got).

End Vocabulary.

(** * Properties *)

(** ** A sample geometry, to run the code *)

Definition sample_geometry : geometry :=
  {| SECTOR_SIZE := 512; TOTAL_SECTORS := 10000;
     MAX_FILES := 1000; MAX_SECTORS_PER_FILE := 30 |}.

(** What a run shows of its result, [None] when it has none. *)
Definition observe {A B : Type} (m : exec A) (f : A -> B) : option B :=
  match m with
  | Done a => Some (f a)
  | Stuck => None
  end.

Section Sample.
#[local] Existing Instance sample_geometry.

Definition path (s : string) : option cstring := Some (c_str s).

(** The state after [FS_Boot] on a backstore file that does not exist. *)
Definition booted : state := fst (FS_Boot None).

(** A caller's buffer filled with the byte 'A'. *)
Definition letters : pointer := Some (fun _ => Byte.x41, 0).

Definition created_a_b : exec (state * Z) :=
  '(s, _) <- File_Create booted (path "/a") ;;
  File_Create s (path "/b").

Definition unlinked_b : exec (state * Z) :=
  '(s, _) <- created_a_b ;;
  File_Unlink s (path "/b").

Definition opened_a_b : exec (state * Z) :=
  '(s, _) <- created_a_b ;;
  '(s, _) <- File_Open s (path "/a") ;;
  File_Open s (path "/b").

Definition written_100 : exec (state * Z) :=
  '(s, _) <- File_Create booted (path "/f") ;;
  '(s, fd) <- File_Open s (path "/f") ;;
  File_Write s fd letters 100.

Definition unlinked_f : exec (state * Z) :=
  '(s, _) <- written_100 ;;
  '(s, _) <- File_Close s 0 ;;
  File_Unlink s (path "/f").

Definition overlong_write : exec (state * Z) :=
  '(s, _) <- File_Create booted (path "/f") ;;
  '(s, fd) <- File_Open s (path "/f") ;;
  File_Write s fd letters (MAX_SECTORS_PER_FILE * SECTOR_SIZE + 1).

Definition opened_f : exec (state * Z) :=
  '(s, _) <- File_Create booted (path "/f") ;;
  File_Open s (path "/f").

(** The state a run ends in ([booted] when it has none). *)
Definition state_of (m : exec (state * Z)) : state :=
  match m with
  | Done (s, _) => s
  | Stuck => booted
  end.

(** "/d" is a directory that holds the file "x". *)
Definition made_dir : exec (state * Z) :=
  '(s, _) <- Dir_Create booted (path "/d") ;;
  File_Create s (path "/d/x").

(** The session of [written_100], back at offset 0. *)
Definition rewound : exec (state * Z) :=
  '(s, _) <- written_100 ;;
  File_Seek s 0 0.

(** The disk a run of [add_inode] or [remove_inode] ends with. *)
Definition disk_of (m : exec (disk * Z)) : disk :=
  match m with
  | Done (d, _) => d
  | Stuck => blank_disk
  end.

(** The state and the buffer a [File_Read] ends with. *)
Definition read_of (m : exec (state * pointer * Z)) : state * pointer :=
  match m with
  | Done (s, b, _) => (s, b)
  | Stuck => (booted, None)
  end.

(** The disk of [created_a_b] with the size of inode 1 ("/a")
    overwritten by -1, as a backstore file handed to [FS_Boot]. *)
Definition negative_size_image : disk :=
  let d := st_disk (state_of created_a_b) in
  fun s => if s =? inode_sector_of 1
           then set_inode_size (d s) (inode_offset_of 1) (-1)
           else d s.

(** The disk after [File_Create("/a")] on a new volume, with every bit
    of the sector bitmap set: a volume without a free sector, as a
    backstore file handed to [FS_Boot]. *)
Definition full_volume_image : disk :=
  let d := st_disk (state_of (File_Create booted (path "/a"))) in
  fun s => if (SECTOR_BITMAP_START_SECTOR <=? s) && (s <? INODE_TABLE_START_SECTOR)
           then (fun _ => Byte.xff)
           else d s.

(** "/f" created and opened on that volume. *)
Definition opened_f_full : exec (state * Z) :=
  '(s, _) <- File_Create (fst (FS_Boot (Some full_volume_image))) (path "/f") ;;
  File_Open s (path "/f").

(** A state in which every slot of [open_files] is taken. *)
Definition all_slots_taken : state :=
  {| st_disk := st_disk (state_of created_a_b);
     open_files := fun _ => {| of_inode := 1; of_size := 0; of_pos := 0 |};
     osErrno := E_NONE |}.

End Sample.

(** ** Basic facts *)

Lemma bind_Done {A B : Type} (m : exec A) (k : A -> exec B) (b : B) :
  bind m k = Done b -> exists a, m = Done a /\ k a = Done b.
Proof.
  destruct m as [a|]; simpl; intros H; [exists a; auto | discriminate].
Qed.

Lemma assert_Done (b : bool) (u : unit) : assert b = Done u -> b = true.
Proof. destruct b; simpl; [reflexivity | discriminate]. Qed.

Section Facts.
Context {G : geometry}.

(** *** File names *)

Lemma illegal_char_false (ch : Z) : illegal_char ch = false.
Proof.
  unfold illegal_char.
  destruct (ch <? 65) eqn:E1; destruct (90 <? ch) eqn:E2; simpl; try reflexivity.
  apply Z.ltb_lt in E1. apply Z.ltb_lt in E2. lia.
Qed.

Lemma illegal_filename_loop_0 (name : cstring) : illegal_filename_loop name = 0.
Proof.
  induction name as [|c name IH]; simpl; [reflexivity|].
  rewrite illegal_char_false. exact IH.
Qed.

(** Only the length test of [illegal_filename] can reject a name. *)
Lemma illegal_filename_short (name : cstring) :
  Z.of_nat (List.length name) <= MAX_NAME - 1 -> illegal_filename name = 0.
Proof.
  intros H. unfold illegal_filename.
  destruct (Z.ltb_spec (MAX_NAME - 1) (Z.of_nat (List.length name))); [lia|].
  apply illegal_filename_loop_0.
Qed.


(** *** The open-file table *)

Lemma is_file_open_loop_hit (tab : Z -> open_file) (inode : Z) (n : nat) (i fd : Z) :
  i <= fd < i + Z.of_nat n -> of_inode (tab fd) = inode ->
  is_file_open_loop n i tab inode = 1.
Proof.
  revert i. induction n as [|n IH]; intros i Hr Hfd; [lia|].
  simpl. destruct (Z.eqb_spec (of_inode (tab i)) inode) as [|Hne]; [reflexivity|].
  apply IH; [|exact Hfd].
  assert (fd <> i) by (intros ->; contradiction). lia.
Qed.

Lemma is_file_open_hit (st : state) (fd : Z) :
  0 <= fd < MAX_OPEN_FILES ->
  is_file_open st (of_inode (open_files st fd)) = 1.
Proof.
  intros H. unfold is_file_open.
  apply is_file_open_loop_hit with (fd := fd); [|reflexivity].
  unfold MAX_OPEN_FILES in *. lia.
Qed.

Lemma new_file_fd_loop_full (tab : Z -> open_file) (n : nat) (i : Z) :
  (forall fd, i <= fd < i + Z.of_nat n -> 0 < of_inode (tab fd)) ->
  new_file_fd_loop n i tab = -1.
Proof.
  revert i. induction n as [|n IH]; intros i H; [reflexivity|].
  simpl. destruct (Z.leb_spec (of_inode (tab i)) 0) as [Hle|_].
  - specialize (H i). lia.
  - apply IH. intros fd Hfd. apply H. lia.
Qed.

Lemma new_file_fd_loop_range (tab : Z -> open_file) (n : nat) (i : Z) :
  let fd := new_file_fd_loop n i tab in
  fd = -1 \/ (i <= fd < i + Z.of_nat n /\ of_inode (tab fd) <= 0).
Proof.
  revert i. induction n as [|n IH]; intros i; simpl; [left; reflexivity|].
  destruct (Z.leb_spec (of_inode (tab i)) 0) as [Hle|_].
  - right. split; [lia|exact Hle].
  - destruct (IH (i + 1)) as [E|[Hr Hf]]; [left; exact E|right].
    split; [lia|exact Hf].
Qed.

(** [File_Seek] never gets past its second test with a positive
    descriptor: the first test finds the slot [fd] itself. *)
Lemma File_Seek_positive_fd (st : state) (fd offset : Z) :
  0 < fd < MAX_OPEN_FILES ->
  File_Seek st fd offset = Done (set_errno st E_GENERAL, -1).
Proof.
  intros H. unfold File_Seek, open_file_at.
  destruct (Z.leb_spec 0 fd); [|lia].
  destruct (Z.ltb_spec fd MAX_OPEN_FILES); [|lia].
  simpl. rewrite is_file_open_hit by lia. simpl.
  destruct (Z.ltb_spec 0 fd); [reflexivity|lia].
Qed.

(** *** Path resolution *)

Lemma follow_tokens_parent (d : disk) (tokens : list cstring)
  (parent child csec : Z) (cbuf : mem) (name : cstring)
  (parent' child' : Z) (name' : cstring) :
  follow_tokens d tokens parent child csec cbuf name
    = Done (PathOk parent' child' name') ->
  (parent = -1 /\ child = 0) \/ 0 <= parent ->
  0 <= child' -> 0 <= parent'.
Proof.
  revert parent child csec cbuf name.
  induction tokens as [|token rest IH]; intros parent child csec cbuf name H Hinv Hc.
  - simpl in H. destruct (child <? -1); [discriminate|].
    injection H as <- <- <-.
    destruct Hinv as [[-> ->]|Hp]; simpl; [lia|].
    destruct ((parent =? -1) && (child =? 0)); lia.
  - simpl in H. destruct token as [|c token].
    + eapply IH; eauto.
    + destruct (negb (illegal_filename (c :: token) =? 0)); [discriminate|].
      destruct (Z.ltb_spec child 0); [discriminate|].
      apply bind_Done in H. destruct H as [[[r csec'] cbuf'] [_ H]].
      eapply IH; [exact H| |exact Hc]. right. assumption.
Qed.

Lemma follow_path_parent (d : disk) (p : option cstring)
  (parent child : Z) (name : cstring) :
  follow_path d p = Done (PathOk parent child name) ->
  0 <= child -> 0 <= parent.
Proof.
  unfold follow_path. intros H Hc.
  destruct p as [[|c rest]|]; try discriminate.
  destruct (negb (Byte.eqb c slash)); [discriminate|].
  destruct (Disk_Read d INODE_TABLE_START_SECTOR); [|discriminate].
  eapply follow_tokens_parent; [exact H| |exact Hc]. left. split; reflexivity.
Qed.

End Facts.

(** ** Name lookup and the entries past the end of a directory *)

Section SampleRuns.
#[local] Existing Instance sample_geometry.

(** C1 (the code departs from the claim): after [File_Create("/a")],
    [File_Create("/b")] and a successful [File_Unlink("/b")] the root
    directory has size 1, yet the entry at index 1 still holds the name
    "b"; [find_child_inode] compares it (its loop stops at
    [i > nentries], not [i >= nentries]) and returns the freed inode 2,
    so a lookup does match an entry at an index equal to the size, and
    creating "/b" again fails with [E_CREATE]. *)
Theorem find_child_inode_matches_past_size :
  observe unlinked_b (fun '(s, r) =>
    let root := st_disk s INODE_TABLE_START_SECTOR in
    (r, inode_size root 0,
     streq_at (st_disk s (inode_data root 0 0)) (1 * sizeof_dirent) (c_str "b"),
     observe (find_child_inode (st_disk s) 0 (c_str "b")
                INODE_TABLE_START_SECTOR root) (fun '(c, _, _) => c),
     bitmap_bit (st_disk s) INODE_BITMAP_START_SECTOR 2,
     observe (File_Create s (path "/b")) (fun '(s', r') => (r', osErrno s'))))
  = Some (0, 1, true, Some 2, false, Some (-1, E_CREATE)).
Proof. vm_compute. reflexivity. Qed.

(** C3 (the code departs from the claim): the character test of
    [illegal_filename] joins contradictory comparisons with [&&] and is
    never true, so the name "a*b" passes the check, [follow_path]
    accepts "/a*b" and [File_Create] creates the file. *)
Theorem illegal_filename_accepts_star :
  illegal_filename (c_str "a*b") = 0
  /\ observe (follow_path (st_disk booted) (path "/a*b"))
       (fun r => match r with
                 | PathOk p c _ => Some (p, c)
                 | PathError => None
                 end) = Some (Some (0, -1))
  /\ observe (File_Create booted (path "/a*b")) (fun '(s, r) =>
       (r, observe (follow_path (st_disk s) (path "/a*b"))
             (fun r => match r with
                       | PathOk p c _ => Some (p, c)
                       | PathError => None
                       end)))
     = Some (0, Some (Some (0, 1))).
Proof. vm_compute. repeat split; reflexivity. Qed.

(** C5 (the code departs from the claim): a file of 100 bytes owns one
    data block, sector 256 here.  [File_Unlink] succeeds and frees the
    inode bit, but its loop runs [size / SECTOR_SIZE = 0] times and the
    block's bit in the sector bitmap stays set. *)
Theorem File_Unlink_leaks_last_block :
  observe written_100 (fun '(s, r) =>
    (r, inode_size (st_disk s INODE_TABLE_START_SECTOR) (1 * sizeof_inode),
     inode_data (st_disk s INODE_TABLE_START_SECTOR) (1 * sizeof_inode) 0))
  = Some (100, 100, 256)
  /\ observe unlinked_f (fun '(s, r) =>
       (r, bitmap_bit (st_disk s) INODE_BITMAP_START_SECTOR 1,
        bitmap_bit (st_disk s) SECTOR_BITMAP_START_SECTOR 256))
     = Some (0, false, true).
Proof. vm_compute. split; reflexivity. Qed.

(** C6 (the code departs from the claim): with "/a" open on descriptor 0
    and "/b" on descriptor 1, [File_Seek(1, 0)] fails with [E_GENERAL]
    although the slot is occupied and the offset is in range (the test
    is [fd > 0]); and on a table with no open file [File_Seek(0, 0)]
    succeeds on the free slot 0. *)
Theorem File_Seek_rejects_descriptor_1 :
  observe opened_a_b (fun '(s, fd) =>
    (fd, of_inode (open_files s 1), of_size (open_files s 1),
     observe (File_Seek s 1 0) (fun '(s', r) => (r, osErrno s'))))
  = Some (1, 2, 0, Some (-1, E_GENERAL))
  /\ of_inode (open_files booted 0) = 0
  /\ observe (File_Seek booted 0 0) (fun '(s', r) => r) = Some 0.
Proof. vm_compute. repeat split; reflexivity. Qed.

End SampleRuns.

(** ** Unlinking and opening *)

Section Sessions.
Context {G : geometry}.

(** C7: when [file] resolves to an inode that an occupied slot of
    [open_files] refers to, [File_Unlink] returns -1 with
    [E_FILE_IN_USE] and changes neither the disk (inodes, directory
    entries, bitmaps) nor the open-file table. *)
Theorem File_Unlink_in_use (st : state) (file : option cstring)
  (parent child : Z) (name : cstring) (fd : Z) :
  follow_path (st_disk st) file = Done (PathOk parent child name) ->
  0 <= fd < MAX_OPEN_FILES ->
  0 < of_inode (open_files st fd) ->
  of_inode (open_files st fd) = child ->
  exists st',
    File_Unlink st file = Done (st', -1)
    /\ osErrno st' = E_FILE_IN_USE
    /\ st_disk st' = st_disk st
    /\ open_files st' = open_files st.
Proof.
  intros Hpath Hfd Hocc Hino.
  exists (set_errno st E_FILE_IN_USE).
  split; [|repeat split].
  unfold File_Unlink. rewrite Hpath. simpl.
  assert (Hc : 0 <= child) by lia.
  pose proof (follow_path_parent _ _ _ _ _ Hpath Hc) as Hp.
  destruct (Z.leb_spec 0 parent); [|lia].
  destruct (Z.leb_spec 0 child); [|lia].
  rewrite <- Hino, is_file_open_hit by exact Hfd. reflexivity.
Qed.

(** C9: [File_Open] looks for a free slot before it resolves the path:
    when all [MAX_OPEN_FILES] slots are occupied it returns -1 with
    [E_TOO_MANY_OPEN_FILES] whatever the path is, and leaves the rest of
    the state alone. *)
Theorem File_Open_table_full (st : state) (file : option cstring) :
  (forall fd, 0 <= fd < MAX_OPEN_FILES -> 0 < of_inode (open_files st fd)) ->
  File_Open st file = Done (set_errno st E_TOO_MANY_OPEN_FILES, -1).
Proof.
  intros Hfull. unfold File_Open, new_file_fd.
  rewrite new_file_fd_loop_full; [reflexivity|].
  intros fd Hfd. apply Hfull. unfold MAX_OPEN_FILES in *. lia.
Qed.

End Sessions.

Section SessionWitnesses.
#[local] Existing Instance sample_geometry.

Lemma File_Unlink_in_use_witness :
  follow_path (st_disk (state_of opened_a_b)) (path "/a")
    = Done (PathOk 0 1 (c_str "a"))
  /\ of_inode (open_files (state_of opened_a_b) 0) = 1
  /\ exists st',
       File_Unlink (state_of opened_a_b) (path "/a") = Done (st', -1)
       /\ osErrno st' = E_FILE_IN_USE
       /\ st_disk st' = st_disk (state_of opened_a_b)
       /\ open_files st' = open_files (state_of opened_a_b).
Proof.
  split; [vm_compute; reflexivity|].
  split; [vm_compute; reflexivity|].
  apply (File_Unlink_in_use (state_of opened_a_b) (path "/a") 0 1 (c_str "a") 0).
  - vm_compute; reflexivity.
  - unfold MAX_OPEN_FILES; lia.
  - vm_compute; reflexivity.
  - vm_compute; reflexivity.
Defined.

Lemma File_Open_table_full_witness :
  File_Open all_slots_taken (path "/nowhere")
    = Done (set_errno all_slots_taken E_TOO_MANY_OPEN_FILES, -1)
  /\ File_Open all_slots_taken (path "/a")
    = Done (set_errno all_slots_taken E_TOO_MANY_OPEN_FILES, -1).
Proof.
  split; apply File_Open_table_full; intros fd _; simpl; lia.
Defined.

(** With a free slot the two paths are told apart: the missing file
    gives [E_NO_SUCH_FILE], the existing one a descriptor. *)
Example File_Open_free_slot :
  observe (File_Open (state_of created_a_b) (path "/nowhere"))
    (fun '(s, r) => (r, osErrno s)) = Some (-1, E_NO_SUCH_FILE)
  /\ observe (File_Open (state_of created_a_b) (path "/a"))
       (fun '(s, r) => (r, osErrno s)) = Some (0, E_NONE).
Proof. vm_compute. split; reflexivity. Qed.

End SessionWitnesses.

(** ** The bitmap allocator *)

Lemma range_forallb (f : Z -> bool) (n : nat) :
  forallb f (map Z.of_nat (seq 0 n)) = true ->
  forall z, 0 <= z < Z.of_nat n -> f z = true.
Proof.
  intros H z Hz. rewrite forallb_forall in H. apply H.
  apply in_map_iff. exists (Z.to_nat z). split; [lia|].
  apply in_seq. lia.
Qed.

(** The [while] loop on a byte below [0xff] stops at a clear bit and
    sets it. *)
Lemma set_first_clear_spec (b : Z) :
  0 <= b < 255 ->
  exists k, 0 <= k < 8 /\ Z.land (tbl BYTE1 k) b = 0
            /\ set_first_clear 8 0 b = (Z.lor b (tbl BYTE1 k), k).
Proof.
  intros Hb.
  pose (f := fun b => let '(b', k) := set_first_clear 8 0 b in
             (0 <=? k) && (k <? 8) && (Z.land (tbl BYTE1 k) b =? 0)
             && (b' =? Z.lor b (tbl BYTE1 k))).
  assert (H : f b = true).
  { apply (range_forallb f 255); [vm_compute; reflexivity|lia]. }
  unfold f in H; clear f. destruct (set_first_clear 8 0 b) as [b' k].
  exists k. repeat (apply andb_prop in H; destruct H as [H ?]).
  apply Z.leb_le in H. apply Z.ltb_lt in H2. apply Z.eqb_eq in H1.
  apply Z.eqb_eq in H0. subst b'. auto.
Qed.

Lemma set_clear_bit (b k : Z) :
  0 <= b < 256 -> 0 <= k < 8 -> Z.land (tbl BYTE1 k) b = 0 ->
  0 <= Z.lor b (tbl BYTE1 k) < 256
  /\ Z.land (Z.lor b (tbl BYTE1 k)) (tbl BYTE0 k) = b
  /\ Z.land (Z.lor b (tbl BYTE1 k)) (tbl BYTE1 k) <> 0.
Proof.
  intros Hb Hk H0.
  pose (f := fun b => forallb (fun k =>
             negb (Z.land (tbl BYTE1 k) b =? 0)
             || ((0 <=? Z.lor b (tbl BYTE1 k)) && (Z.lor b (tbl BYTE1 k) <? 256)
                 && (Z.land (Z.lor b (tbl BYTE1 k)) (tbl BYTE0 k) =? b)
                 && negb (Z.land (Z.lor b (tbl BYTE1 k)) (tbl BYTE1 k) =? 0)))
             (map Z.of_nat (seq 0 8))).
  assert (H : f b = true).
  { apply (range_forallb f 256); [vm_compute; reflexivity|lia]. }
  unfold f in H; clear f. apply (range_forallb _ 8) with (z := k) in H; [|lia].
  rewrite H0 in H. simpl in H.
  repeat (apply andb_prop in H; destruct H as [H ?]).
  apply Z.leb_le in H. apply Z.ltb_lt in H3. apply Z.eqb_eq in H2.
  apply negb_true_iff in H1. apply Z.eqb_neq in H1. auto.
Qed.

Lemma other_bit_kept (b k k' : Z) :
  0 <= b < 256 -> 0 <= k < 8 -> 0 <= k' < 8 -> k' <> k ->
  Z.land (Z.lor b (tbl BYTE1 k)) (tbl BYTE1 k') = Z.land b (tbl BYTE1 k').
Proof.
  intros Hb Hk Hk' Hne.
  pose (f := fun b => forallb (fun k => forallb (fun k' =>
             (k' =? k)
             || (Z.land (Z.lor b (tbl BYTE1 k)) (tbl BYTE1 k')
                 =? Z.land b (tbl BYTE1 k')))
             (map Z.of_nat (seq 0 8))) (map Z.of_nat (seq 0 8))).
  assert (H : f b = true).
  { apply (range_forallb f 256); [vm_compute; reflexivity|lia]. }
  unfold f in H; clear f. apply (range_forallb _ 8) with (z := k) in H; [|lia].
  apply (range_forallb _ 8) with (z := k') in H; [|lia].
  apply orb_prop in H. destruct H as [H|H].
  - apply Z.eqb_eq in H. contradiction.
  - apply Z.eqb_eq in H. exact H.
Qed.

Lemma full_byte_bit (k : Z) : 0 <= k < 8 -> Z.land 255 (tbl BYTE1 k) <> 0.
Proof.
  intros Hk.
  pose (f := fun k => negb (Z.land 255 (tbl BYTE1 k) =? 0)).
  assert (H : f k = true).
  { apply (range_forallb f 8); [vm_compute; reflexivity|lia]. }
  unfold f in H; clear f. apply negb_true_iff in H. apply Z.eqb_neq in H. exact H.
Qed.

Section Bitmap.
Context {G : geometry}.
Hypothesis sector_size_pos : 0 < SECTOR_SIZE.

(** Where bit [ibit] lives: sector, byte and bit in the byte. *)
Lemma bit_index_split (i j k : Z) :
  0 <= i -> 0 <= j < SECTOR_SIZE -> 0 <= k < 8 ->
  let r := bit_index i j k in
  (r ÷ 8) ÷ SECTOR_SIZE = i /\ Z.rem (r ÷ 8) SECTOR_SIZE = j /\ Z.rem r 8 = k.
Proof.
  intros Hi Hj Hk r. unfold bit_index in r.
  assert (Hr : 0 <= r) by (unfold r; nia).
  assert (Hq : r ÷ 8 = i * SECTOR_SIZE + j).
  { rewrite Z.quot_div_nonneg by lia. symmetry.
    apply Z.div_unique with (r := k); [lia|unfold r; lia]. }
  rewrite Hq. repeat split.
  - rewrite Z.quot_div_nonneg by nia. symmetry.
    apply Z.div_unique with (r := j); [lia|lia].
  - rewrite Z.rem_mod_nonneg by nia. symmetry.
    apply Z.mod_unique with (q := i); [lia|lia].
  - rewrite Z.rem_mod_nonneg by lia. symmetry.
    apply Z.mod_unique with (q := i * SECTOR_SIZE + j); [lia|unfold r; lia].
Qed.

Lemma bit_index_join (b : Z) :
  0 <= b ->
  let i := (b ÷ 8) ÷ SECTOR_SIZE in
  let j := Z.rem (b ÷ 8) SECTOR_SIZE in
  let k := Z.rem b 8 in
  0 <= i /\ 0 <= j < SECTOR_SIZE /\ 0 <= k < 8
  /\ b = bit_index i j k.
Proof.
  intros Hb i j k. subst i j k. unfold bit_index.
  assert (0 <= b ÷ 8) by (apply Z.quot_pos; lia).
  rewrite (Z.quot_div_nonneg (b ÷ 8)) by lia.
  rewrite (Z.rem_mod_nonneg (b ÷ 8)) by lia.
  rewrite (Z.rem_mod_nonneg b) by lia.
  rewrite (Z.quot_div_nonneg b) in * by lia.
  assert (Hs : SECTOR_SIZE <> 0) by lia.
  pose proof (Z.div_mod (b / 8) SECTOR_SIZE Hs).
  pose proof (Z.mod_pos_bound (b / 8) SECTOR_SIZE sector_size_pos).
  pose proof (Z.div_mod b 8 ltac:(lia)).
  pose proof (Z.mod_pos_bound b 8 ltac:(lia)).
  assert (0 <= b / 8 / SECTOR_SIZE) by (apply Z.div_pos; lia).
  repeat split; try lia.
Qed.

Lemma scan_sector_Some (n : nat) (j : Z) (buf : mem) (nbits : Z)
  (buf' : mem) (r : Z) :
  scan_sector n j buf nbits = Some (buf', r) ->
  exists j' k,
    j <= j' < j + Z.of_nat n /\ j' < nbits /\ 0 <= k < 8 /\ r = j' * 8 + k
    /\ Z.land (tbl BYTE1 k) (byte.unsigned (buf j')) = 0
    /\ buf' = mem_set buf j'
                (byte.of_Z (Z.lor (byte.unsigned (buf j')) (tbl BYTE1 k))).
Proof.
  revert j. induction n as [|n IH]; intros j H; [discriminate|].
  cbn [scan_sector] in H. destruct (Z.leb_spec nbits j); [discriminate|].
  destruct (Z.ltb_spec (byte.unsigned (buf j)) 255) as [Hlt|Hge].
  - pose proof (byte.unsigned_range (buf j)) as Hr.
    destruct (set_first_clear_spec (byte.unsigned (buf j))) as [k [Hk [Hz E]]]; [lia|].
    rewrite E in H. injection H as <- <-.
    exists j, k. repeat split; try lia; assumption.
  - destruct (IH _ H) as [j' [k [Hj' Hrest]]].
    exists j', k. split; [lia|exact Hrest].
Qed.

Lemma scan_sector_None (n : nat) (j : Z) (buf : mem) (nbits : Z) :
  scan_sector n j buf nbits = None ->
  forall j', j <= j' < j + Z.of_nat n -> j' < nbits ->
             byte.unsigned (buf j') = 255.
Proof.
  revert j. induction n as [|n IH]; intros j H j' Hj' Hn; [lia|].
  cbn [scan_sector] in H. destruct (Z.leb_spec nbits j); [lia|].
  destruct (Z.ltb_spec (byte.unsigned (buf j)) 255) as [Hlt|Hge].
  - destruct (set_first_clear 8 0 (byte.unsigned (buf j))); discriminate.
  - destruct (Z.eq_dec j' j) as [->|Hne].
    + pose proof (byte.unsigned_range (buf j)). change (2 ^ 8) with 256 in *. lia.
    + apply (IH (j + 1)); [exact H|lia|exact Hn].
Qed.

(** The loop either gives up, leaving the disk as it is, or sets a bit
    that was clear. *)
Lemma bitmap_first_unused_loop_spec (n : nat) (i : Z) (d : disk)
  (start nbits : Z) (d' : disk) (r : Z) :
  bitmap_first_unused_loop n i d start nbits = (d', r) ->
  0 <= i ->
  (r = -1 /\ d' = d)
  \/ exists i' j k,
       i <= i' < i + Z.of_nat n /\ 0 <= j < SECTOR_SIZE /\ 0 <= k < 8
       /\ j < nbits - (i' - i) * SECTOR_SIZE
       /\ r = bit_index i' j k
       /\ valid_sector (start + i') = true
       /\ Z.land (tbl BYTE1 k) (byte.unsigned (d (start + i') j)) = 0
       /\ d' = set_bit d (start + i') j k.
Proof.
  revert i nbits. induction n as [|n IH]; intros i nbits H Hi.
  - injection H as <- <-. left. auto.
  - cbn [bitmap_first_unused_loop] in H. unfold Disk_Read, Disk_Write in H.
    destruct (valid_sector (start + i)) eqn:Hv.
    2:{ injection H as <- <-. left. auto. }
    destruct (scan_sector (Z.to_nat SECTOR_SIZE) 0 (d (start + i)) nbits)
      as [[buf' r']|] eqn:Hs.
    + injection H as <- <-. right.
      apply scan_sector_Some in Hs.
      destruct Hs as [j [k [Hj [Hn [Hk [-> [Hz ->]]]]]]].
      exists i, j, k. unfold bit_index. repeat split; try lia; try assumption.
    + destruct (IH _ _ H ltac:(lia)) as [E|[i' [j [k [Hi' Hrest]]]]]; [left; exact E|].
      right. exists i', j, k. split; [lia|].
      destruct Hrest as [Hj [Hk [Hn Hrest]]].
      repeat split; try lia; try apply Hrest.
Qed.

Lemma bitmap_first_unused_loop_full (n : nat) (i : Z) (d : disk)
  (start nbits : Z) (d' : disk) (r : Z) :
  bitmap_first_unused_loop n i d start nbits = (d', r) ->
  r < 0 -> 0 <= i ->
  (forall i', i <= i' < i + Z.of_nat n -> valid_sector (start + i') = true) ->
  forall i' j, i <= i' < i + Z.of_nat n -> 0 <= j < SECTOR_SIZE ->
               j < nbits - (i' - i) * SECTOR_SIZE ->
               byte.unsigned (d (start + i') j) = 255.
Proof.
  revert i nbits. induction n as [|n IH]; intros i nbits H Hr Hi Hv i' j Hi' Hj Hn; [lia|].
  cbn [bitmap_first_unused_loop] in H. unfold Disk_Read, Disk_Write in H.
  rewrite (Hv i) in H by lia.
  destruct (scan_sector (Z.to_nat SECTOR_SIZE) 0 (d (start + i)) nbits)
    as [[buf' r']|] eqn:Hs.
  - injection H as <- <-. apply scan_sector_Some in Hs.
    destruct Hs as [j0 [k [Hj0 [_ [Hk [-> _]]]]]]. nia.
  - destruct (Z.eq_dec i' i) as [->|Hne].
    + apply (scan_sector_None _ _ _ _ Hs); lia.
    + apply (IH (i + 1) (nbits - SECTOR_SIZE) H Hr); try lia.
      intros i0 Hi0. apply Hv. lia.
Qed.

Lemma bitmap_bit_at (d : disk) (start i j k : Z) :
  0 <= i -> 0 <= j < SECTOR_SIZE -> 0 <= k < 8 ->
  bitmap_bit d start (bit_index i j k)
  = negb (Z.land (byte.unsigned (d (start + i) j)) (tbl BYTE1 k) =? 0).
Proof.
  intros Hi Hj Hk. unfold bitmap_bit.
  destruct (bit_index_split i j k Hi Hj Hk) as [-> [-> ->]]. reflexivity.
Qed.

Lemma bitmap_bit_ext (d1 d2 : disk) (start b : Z) :
  (forall s x, d1 s x = d2 s x) -> bitmap_bit d1 start b = bitmap_bit d2 start b.
Proof. intros H. unfold bitmap_bit. rewrite H. reflexivity. Qed.

Section Allocated.
Variables (d : disk) (start i j k : Z).
Hypothesis Hi : 0 <= i.
Hypothesis Hj : 0 <= j < SECTOR_SIZE.
Hypothesis Hk : 0 <= k < 8.
Hypothesis Hclear : Z.land (tbl BYTE1 k) (byte.unsigned (d (start + i) j)) = 0.

Lemma allocated_byte :
  byte.unsigned (set_bit d (start + i) j k (start + i) j)
  = Z.lor (byte.unsigned (d (start + i) j)) (tbl BYTE1 k).
Proof.
  unfold set_bit, mem_set. rewrite !Z.eqb_refl, byte.unsigned_of_Z.
  pose proof (byte.unsigned_range (d (start + i) j)) as Hb.
  change (2 ^ 8) with 256 in Hb.
  destruct (set_clear_bit _ _ Hb Hk Hclear) as [Hr _].
  unfold byte.wrap. change (2 ^ 8) with 256. apply Z.mod_small. exact Hr.
Qed.

Lemma allocated_was_free : bitmap_bit d start (bit_index i j k) = false.
Proof.
  rewrite bitmap_bit_at by assumption.
  rewrite Z.land_comm, Hclear. reflexivity.
Qed.

Lemma allocated_is_used : bitmap_bit (set_bit d (start + i) j k) start (bit_index i j k) = true.
Proof.
  rewrite bitmap_bit_at by assumption. rewrite allocated_byte.
  pose proof (byte.unsigned_range (d (start + i) j)) as Hb.
  change (2 ^ 8) with 256 in Hb.
  destruct (set_clear_bit _ _ Hb Hk Hclear) as [_ [_ Hn]].
  apply negb_true_iff. apply Z.eqb_neq. exact Hn.
Qed.

Lemma allocated_other_bits (b : Z) :
  0 <= b -> b <> bit_index i j k -> bitmap_bit (set_bit d (start + i) j k) start b = bitmap_bit d start b.
Proof.
  intros Hb Hne.
  destruct (bit_index_join b Hb) as [Hi2 [Hj2 [Hk2 E]]].
  set (i2 := (b ÷ 8) ÷ SECTOR_SIZE) in *.
  set (j2 := Z.rem (b ÷ 8) SECTOR_SIZE) in *.
  set (k2 := Z.rem b 8) in *.
  rewrite E. rewrite !bitmap_bit_at by assumption.
  destruct (Z.eq_dec i2 i) as [Ei|Ni].
  - rewrite Ei. destruct (Z.eq_dec j2 j) as [Ej|Nj].
    + rewrite Ej. rewrite allocated_byte.
      assert (k2 <> k) by (intros Ek; apply Hne; rewrite E, Ei, Ej, Ek; reflexivity).
      pose proof (byte.unsigned_range (d (start + i) j)) as Hr.
      change (2 ^ 8) with 256 in Hr.
      rewrite other_bit_kept by assumption. reflexivity.
    + unfold set_bit, mem_set. rewrite Z.eqb_refl.
      destruct (Z.eqb_spec j2 j); [contradiction|reflexivity].
  - unfold set_bit. destruct (Z.eqb_spec (start + i2) (start + i)); [lia|reflexivity].
Qed.

Lemma allocated_other_sectors (s : Z) : s <> start + i -> set_bit d (start + i) j k s = d s.
Proof.
  intros Hs. unfold set_bit. destruct (Z.eqb_spec s (start + i)); [contradiction|reflexivity].
Qed.

Lemma allocated_reset (num : Z) :
  i < num -> valid_sector (start + i) = true ->
  exists d'', bitmap_reset (set_bit d (start + i) j k) start num (bit_index i j k) = Done (d'', 0)
              /\ forall s x, d'' s x = d s x.
Proof.
  intros Hnum Hv. unfold bitmap_reset.
  destruct (bit_index_split i j k Hi Hj Hk) as [E1 [E2 E3]].
  fold (bit_index i j k) in E1, E2, E3. rewrite E1, E2, E3.
  destruct (Z.leb_spec 0 i); [|lia]. destruct (Z.ltb_spec i num); [|lia].
  simpl. unfold Disk_Read, Disk_Write. rewrite Hv.
  eexists. split; [reflexivity|].
  intros s x. simpl.
  destruct (Z.eqb_spec s (start + i)) as [->|Hs].
  - unfold mem_set at 1. destruct (Z.eqb_spec x j) as [->|Hx].
    + rewrite allocated_byte.
      pose proof (byte.unsigned_range (d (start + i) j)) as Hb.
      change (2 ^ 8) with 256 in Hb.
      destruct (set_clear_bit _ _ Hb Hk Hclear) as [_ [-> _]].
      apply byte.of_Z_unsigned.
    + unfold set_bit, mem_set. rewrite Z.eqb_refl.
      destruct (Z.eqb_spec x j); [contradiction|reflexivity].
  - unfold set_bit. destruct (Z.eqb_spec s (start + i)); [contradiction|reflexivity].
Qed.

End Allocated.

(** C4: [bitmap_first_unused] never returns an index whose bit was
    already set; the bit it returns is set in the disk it leaves (the
    sector has been written), every other bit is as before; an
    immediate [bitmap_reset] on that index succeeds and gives back the
    bitmap as it was, the bit free again; and when the sectors of the
    bitmap can be read, -1 is returned only if every bit of the
    [nbits] bytes in range is set. *)
Theorem bitmap_first_unused_round_trip (d : disk) (start num nbits : Z)
  (d' : disk) (r : Z) :
  bitmap_first_unused d start num nbits = (d', r) ->
  (0 <= r ->
     bitmap_bit d start r = false
     /\ bitmap_bit d' start r = true
     /\ (forall b, 0 <= b -> b <> r -> bitmap_bit d' start b = bitmap_bit d start b)
     /\ exists d'',
          bitmap_reset d' start num r = Done (d'', 0)
          /\ bitmap_bit d'' start r = false
          /\ forall s x, d'' s x = d s x)
  /\ (r < 0 ->
      r = -1 /\ d' = d
      /\ ((forall i, 0 <= i < num -> valid_sector (start + i) = true) ->
          forall b, 0 <= b < 8 * nbits -> b < 8 * (num * SECTOR_SIZE) ->
                    bitmap_bit d start b = true)).
Proof.
  intros H. unfold bitmap_first_unused in H.
  pose proof (bitmap_first_unused_loop_spec _ _ _ _ _ _ _ H (Z.le_refl 0)) as Hspec.
  split.
  - intros Hr. destruct Hspec as [[-> _]|[i [j [k [Hi [Hj [Hk [_ [-> [Hv [Hc ->]]]]]]]]]]]; [lia|].
    assert (Hi0 : 0 <= i) by lia.
    split; [apply allocated_was_free; assumption|].
    split; [apply allocated_is_used; assumption|].
    split; [intros b Hb Hne; apply allocated_other_bits; assumption|].
    destruct (allocated_reset d start i j k Hi0 Hj Hk Hc num) as [d'' [E Hd'']];
      [lia|exact Hv|].
    exists d''. split; [exact E|]. split; [|exact Hd''].
    rewrite (bitmap_bit_ext _ _ _ _ Hd''). apply allocated_was_free; assumption.
  - intros Hr.
    destruct Hspec as [[-> ->]|[i [j [k [Hi [Hj [Hk [_ [-> _]]]]]]]]];
      [|unfold bit_index in Hr; nia].
    split; [reflexivity|]. split; [reflexivity|].
    intros Hv b Hb Hnum.
    assert (Hb0 : 0 <= b) by lia.
    destruct (bit_index_join b Hb0) as [Hi2 [Hj2 [Hk2 E]]].
    set (i2 := (b ÷ 8) ÷ SECTOR_SIZE) in *.
    set (j2 := Z.rem (b ÷ 8) SECTOR_SIZE) in *.
    set (k2 := Z.rem b 8) in *.
    pose proof E as E'. unfold bit_index in E'.
    assert (Hi2n : i2 < num) by nia.
    rewrite E, bitmap_bit_at by assumption.
    rewrite (bitmap_first_unused_loop_full _ _ _ _ _ _ _ H Hr (Z.le_refl 0)); try lia.
    + apply negb_true_iff. apply Z.eqb_neq. apply full_byte_bit. exact Hk2.
    + intros i' Hi'. apply Hv. lia.
Qed.

End Bitmap.

(** ** The cursor of a session *)

(** Case analysis on a run that is known to return: [H] is an equation
    [... = Done _]; every [bind] and every test in it is split. *)
Ltac exec_cases H :=
  repeat first
    [ discriminate H
    | match type of H with
      | Done _ = Done _ => fail 2
      | bind ?m _ = Done _ =>
          let E := fresh "E" in destruct m eqn:E; cbn [bind] in H
      | context [match ?x with _ => _ end] =>
          let E := fresh "E" in destruct x eqn:E
      end ].

Section Cursor.
Context {G : geometry}.
Hypothesis sector_size_pos : 0 < SECTOR_SIZE.

Lemma cursor_inv_slots (st st' : state) :
  cursor_inv st ->
  (forall fd, open_files st' fd = open_files st fd
              \/ (0 < of_inode (open_files st' fd) ->
                  0 <= of_pos (open_files st' fd) <= of_size (open_files st' fd))) ->
  cursor_inv st'.
Proof.
  intros Hinv H fd Hfd Hocc. destruct (H fd) as [E|Hn].
  - rewrite E in *. apply Hinv; assumption.
  - apply Hn. exact Hocc.
Qed.

Lemma cursor_inv_table (st st' : state) :
  open_files st' = open_files st -> cursor_inv st -> cursor_inv st'.
Proof.
  intros E Hinv. apply (cursor_inv_slots st); [exact Hinv|].
  intros fd. left. rewrite E. reflexivity.
Qed.

Lemma cursor_inv_slot (st st0 : state) (fd : Z) (f : open_file) :
  cursor_inv st ->
  open_files st0 = open_files st ->
  (0 < of_inode f -> 0 <= of_pos f <= of_size f) ->
  cursor_inv (set_open_file st0 fd f).
Proof.
  intros Hinv E Hf. apply (cursor_inv_slots st); [exact Hinv|].
  intros i. simpl. destruct (i =? fd); [right; exact Hf|left; rewrite E; reflexivity].
Qed.

(** The block that holds [pos] starts at or before [pos] and ends
    after it. *)
Lemma block_bounds (pos : Z) :
  0 <= pos ->
  pos ÷ SECTOR_SIZE * SECTOR_SIZE <= pos < pos ÷ SECTOR_SIZE * SECTOR_SIZE + SECTOR_SIZE.
Proof.
  intros Hp. rewrite Z.quot_div_nonneg by lia.
  assert (Hs : SECTOR_SIZE <> 0) by lia.
  pose proof (Z.div_mod pos SECTOR_SIZE Hs).
  pose proof (Z.mod_pos_bound pos SECTOR_SIZE sector_size_pos). lia.
Qed.







(** [File_Open] keeps the invariant, unless the size it caches is
    negative. *)
Lemma File_Open_cursor (st : state) (file : option cstring) (st' : state) (r : Z) :
  File_Open st file = Done (st', r) ->
  cursor_inv st ->
  cursor_inv st' \/ opened_negative_size st (CallFileOpen file) st' r.
Proof.
  intros H Hinv. unfold File_Open in H.
  destruct (Z.ltb_spec (new_file_fd st) 0) as [|Hfd].
  { injection H as <- _. left. apply (cursor_inv_table st); auto. }
  destruct (follow_path (st_disk st) file) as [[|parent child name]|] eqn:Hp;
    try discriminate; cbn [bind] in H.
  destruct (Z.leb_spec 0 child) as [Hc|].
  2:{ injection H as <- _. left. apply (cursor_inv_table st); auto. }
  unfold Disk_Read in H. destruct (valid_sector _).
  2:{ injection H as <- _. left. apply (cursor_inv_table st); auto. }
  destruct (assert _); [|discriminate]. cbn [bind] in H.
  fold (inode_sector_of child) in H. fold (inode_offset_of child) in H.
  fold (inode_size_of (st_disk st) child) in H.
  destruct (negb _); injection H as <- <-.
  { left. apply (cursor_inv_table st); auto. }
  destruct (Z_lt_le_dec (inode_size_of (st_disk st) child) 0) as [Hneg|Hsz].
  - destruct (Z.eq_dec child 0) as [->|Hne].
    + left. apply (cursor_inv_slot st); [exact Hinv|reflexivity|]. simpl. lia.
    + right. exists file, parent, child, name.
      split; [reflexivity|]. split; [reflexivity|]. split.
      { pose proof (new_file_fd_loop_range (open_files st) (Z.to_nat MAX_OPEN_FILES) 0) as Hr.
        cbv zeta in Hr. fold (new_file_fd st) in Hr.
        unfold MAX_OPEN_FILES in *. lia. }
      split; [exact Hp|]. split; [lia|]. split; [exact Hneg|reflexivity].
  - left. apply (cursor_inv_slot st); [exact Hinv|reflexivity|]. simpl. lia.
Qed.



(** The calls that work on paths leave the open-file table alone. *)
Lemma create_file_or_directory_table (st : state) (type : Z)
  (p : option cstring) (st' : state) (r : Z) :
  create_file_or_directory st type p = Done (st', r) ->
  open_files st' = open_files st.
Proof.
  intros H. unfold create_file_or_directory in H.
  exec_cases H; injection H as <- _; reflexivity.
Qed.

Lemma File_Unlink_table (st : state) (p : option cstring) (st' : state) (r : Z) :
  File_Unlink st p = Done (st', r) -> open_files st' = open_files st.
Proof.
  intros H. unfold File_Unlink in H.
  exec_cases H; injection H as <- _; reflexivity.
Qed.

Lemma Dir_Unlink_table (st : state) (p : option cstring) (st' : state) (r : Z) :
  Dir_Unlink st p = Done (st', r) -> open_files st' = open_files st.
Proof.
  intros H. unfold Dir_Unlink in H.
  exec_cases H; injection H as <- _; reflexivity.
Qed.

Lemma Dir_Size_table (st : state) (p : option cstring) (st' : state) (r : Z) :
  Dir_Size st p = Done (st', r) -> open_files st' = open_files st.
Proof.
  intros H. unfold Dir_Size in H.
  exec_cases H; injection H as <- _; reflexivity.
Qed.

Lemma Dir_Read_table (st : state) (p : option cstring) (buffer : mem) (size : Z)
  (st' : state) (buffer' : mem) (r : Z) :
  Dir_Read st p buffer size = Done (st', buffer', r) ->
  open_files st' = open_files st.
Proof.
  intros H. unfold Dir_Read in H.
  exec_cases H; injection H as <- _ _; reflexivity.
Qed.



(** A booted library has no session at all. *)
Lemma cursor_inv_boot (image : option disk) : cursor_inv (fst (FS_Boot image)).
Proof.
  intros fd _ Hocc. exfalso. revert Hocc. unfold FS_Boot.
  destruct image as [d|].
  - destruct (check_magic d =? 1); simpl; lia.
  - destruct (format blank_disk); simpl; lia.
Qed.

End Cursor.

Section CursorRuns.
#[local] Existing Instance sample_geometry.

Lemma state_of_run (m : exec (state * Z)) (r : Z) :
  observe m snd = Some r -> m = Done (state_of m, r).
Proof.
  destruct m as [[s r']|]; simpl; [|discriminate].
  intros H. injection H as ->. reflexivity.
Qed.



(** The second exception on the code: [FS_Boot] on an image in which the
    inode of "/a" holds the size -1, then [File_Open("/a")]: the call
    succeeds on descriptor 0 and the session caches the size -1 at
    position 0. *)
Example File_Open_caches_negative_size :
  let st := fst (FS_Boot (Some negative_size_image)) in
  let st' := state_of (File_Open st (path "/a")) in
  snd (FS_Boot (Some negative_size_image)) = 0
  /\ cursor_inv st
  /\ File_Open st (path "/a") = Done (st', 0)
  /\ open_files st' 0 = {| of_inode := 1; of_size := -1; of_pos := 0 |}
  /\ opened_negative_size st (CallFileOpen (path "/a")) st' 0.
Proof.
  intros st st'.
  assert (Hinv : cursor_inv st) by apply cursor_inv_boot.
  assert (Hrun : File_Open st (path "/a") = Done (st', 0))
    by (apply state_of_run; vm_compute; reflexivity).
  assert (Hslot : open_files st' 0 = {| of_inode := 1; of_size := -1; of_pos := 0 |})
    by (vm_compute; reflexivity).
  split; [vm_compute; reflexivity|].
  split; [exact Hinv|]. split; [exact Hrun|]. split; [exact Hslot|].
  destruct (@File_Open_cursor sample_geometry st (path "/a") st' 0 Hrun Hinv)
    as [Hinv'|Hneg]; [exfalso|exact Hneg].
  specialize (Hinv' 0). rewrite Hslot in Hinv'. simpl in Hinv'.
  unfold MAX_OPEN_FILES in Hinv'. lia.
Qed.

End CursorRuns.

Section BitmapRuns.
#[local] Existing Instance sample_geometry.

(** On the booted volume the first free sector is 255, the first data
    block. *)
Lemma bitmap_first_unused_round_trip_witness :
  let d := st_disk booted in
  let a := bitmap_first_unused d SECTOR_BITMAP_START_SECTOR
             SECTOR_BITMAP_SECTORS SECTOR_BITMAP_SIZE in
  snd a = 255
  /\ bitmap_bit d SECTOR_BITMAP_START_SECTOR (snd a) = false
  /\ bitmap_bit (fst a) SECTOR_BITMAP_START_SECTOR (snd a) = true
  /\ exists d'',
       bitmap_reset (fst a) SECTOR_BITMAP_START_SECTOR SECTOR_BITMAP_SECTORS (snd a)
         = Done (d'', 0)
       /\ bitmap_bit d'' SECTOR_BITMAP_START_SECTOR (snd a) = false
       /\ forall s x, d'' s x = d s x.
Proof.
  intros d a.
  assert (Hr : snd a = 255) by (vm_compute; reflexivity).
  split; [exact Hr|].
  destruct (@bitmap_first_unused_round_trip sample_geometry eq_refl d
              SECTOR_BITMAP_START_SECTOR SECTOR_BITMAP_SECTORS SECTOR_BITMAP_SIZE
              (fst a) (snd a)) as [Hok _].
  - apply surjective_pairing.
  - destruct Hok as [H1 [H2 [_ H3]]]; [rewrite Hr; lia|].
    split; [exact H1|]. split; [exact H2|exact H3].
Defined.

End BitmapRuns.

(** ** Reading a directory *)

Lemma load_int_range (m : mem) (off : Z) : int_min <= load_int m off <= int_max.
Proof.
  unfold load_int, to_signed, int_min, int_max.
  pose proof (le_combine_bound [m off; m (off + 1); m (off + 2); m (off + 3)]) as H.
  change (2 ^ (8 * Z.of_nat (List.length [m off; m (off + 1); m (off + 2); m (off + 3)])))
    with (2 ^ 32) in H.
  destruct (Z.ltb_spec (le_combine [m off; m (off + 1); m (off + 2); m (off + 3)]) (2 ^ 31)); lia.
Qed.

Section Resolution.
Context {G : geometry}.

Lemma Disk_Read_Some (d : disk) (s : Z) (buf : mem) :
  Disk_Read d s = Some buf -> valid_sector s = true /\ buf = d s.
Proof.
  unfold Disk_Read. destruct (valid_sector s); [|discriminate].
  intros H. injection H as <-. auto.
Qed.

Lemma find_child_loop_sector (fuel : nat) (d : disk) (parent : Z) (fname : cstring)
  (csec : Z) (cbuf : mem) (nentries idx : Z) (r csec' : Z) (cbuf' : mem) :
  find_child_loop fuel d parent fname csec cbuf nentries idx = Done (r, csec', cbuf') ->
  0 <= r -> valid_sector csec = true ->
  csec' = inode_sector_of r /\ valid_sector csec' = true.
Proof.
  revert nentries idx. induction fuel as [|fuel IH]; intros nentries idx H Hr Hv.
  - simpl in H. destruct (0 <? nentries); [discriminate|]. injection H as <- _ _. lia.
  - cbn [find_child_loop] in H.
    destruct (0 <? nentries); [|injection H as <- _ _; lia].
    destruct (Disk_Read d (inode_data cbuf parent idx)) as [buf|];
      [|injection H as <- _ _; lia].
    destruct (scan_dirents _ 0 buf fname nentries) as [child_inode|].
    + destruct (Z.eqb_spec (INODE_TABLE_START_SECTOR + child_inode ÷ INODES_PER_SECTOR) csec)
        as [E|Hne]; cbn [negb] in H.
      * injection H as <- <- _. split; [symmetry; exact E|exact Hv].
      * destruct (Disk_Read d _) as [b|] eqn:Hrd; injection H as <- <- _; [|lia].
        apply Disk_Read_Some in Hrd. split; [reflexivity|apply Hrd].
    + eapply IH; eauto.
Qed.

Lemma follow_tokens_sector (d : disk) (tokens : list cstring)
  (parent child csec : Z) (cbuf : mem) (name : cstring)
  (parent' child' : Z) (name' : cstring) :
  follow_tokens d tokens parent child csec cbuf name
    = Done (PathOk parent' child' name') ->
  (0 <= child -> csec = inode_sector_of child /\ valid_sector csec = true) ->
  0 <= child' -> valid_sector (inode_sector_of child') = true.
Proof.
  revert parent child csec cbuf name.
  induction tokens as [|token rest IH]; intros parent child csec cbuf name H Hinv Hc.
  - simpl in H. destruct (child <? -1); [discriminate|].
    injection H as _ <- _. destruct (Hinv Hc) as [<- Hv]. exact Hv.
  - simpl in H. destruct token as [|c token].
    + eapply IH; eauto.
    + destruct (negb (illegal_filename (c :: token) =? 0)); [discriminate|].
      destruct (Z.ltb_spec child 0); [discriminate|].
      apply bind_Done in H. destruct H as [[[r csec'] cbuf'] [Hf H]].
      eapply IH; [exact H| |exact Hc]. intros Hr.
      unfold find_child_inode in Hf.
      destruct (assert _); [|discriminate]. cbn [bind] in Hf.
      destruct (negb _); [injection Hf as <- _ _; lia|].
      eapply find_child_loop_sector; eauto. apply Hinv. assumption.
Qed.

(** The inode that [follow_path] hands back lies in a sector of the
    disk: path resolution has read that sector. *)
Lemma follow_path_sector (d : disk) (p : option cstring)
  (parent child : Z) (name : cstring) :
  follow_path d p = Done (PathOk parent child name) ->
  0 <= child -> valid_sector (inode_sector_of child) = true.
Proof.
  unfold follow_path. intros H Hc.
  destruct p as [[|c rest]|]; try discriminate.
  destruct (negb (Byte.eqb c slash)); [discriminate|].
  destruct (Disk_Read d INODE_TABLE_START_SECTOR) as [buf|] eqn:Hrd; [|discriminate].
  apply Disk_Read_Some in Hrd.
  eapply follow_tokens_sector; [exact H| |exact Hc].
  intros _. unfold inode_sector_of.
  change (0 ÷ INODES_PER_SECTOR) with 0. rewrite Z.add_0_r.
  split; [reflexivity|apply Hrd].
Qed.

End Resolution.

Section DirRead.
Context {G : geometry}.
Hypothesis inodes_pos : 0 < INODES_PER_SECTOR.
Hypothesis dirents_pos : 0 < DIRENTS_PER_SECTOR.

Lemma inode_offset_range (ino : Z) :
  0 <= ino ->
  let offset :=
    ino - (inode_sector_of ino - INODE_TABLE_START_SECTOR) * INODES_PER_SECTOR in
  (0 <=? offset) && (offset <? INODES_PER_SECTOR) = true.
Proof.
  intros Hi offset. subst offset. unfold inode_sector_of.
  replace (INODE_TABLE_START_SECTOR + ino ÷ INODES_PER_SECTOR - INODE_TABLE_START_SECTOR)
    with (ino ÷ INODES_PER_SECTOR) by ring.
  rewrite Z.quot_div_nonneg by lia.
  assert (Hn : INODES_PER_SECTOR <> 0) by lia.
  pose proof (Z.div_mod ino INODES_PER_SECTOR Hn).
  pose proof (Z.mod_pos_bound ino INODES_PER_SECTOR inodes_pos).
  apply andb_true_intro. split; [apply Z.leb_le|apply Z.ltb_lt]; lia.
Qed.

Lemma quot_rem_small (t : Z) :
  0 <= t < DIRENTS_PER_SECTOR ->
  t ÷ DIRENTS_PER_SECTOR = 0 /\ Z.rem t DIRENTS_PER_SECTOR = t.
Proof.
  intros Ht. split.
  - apply Z.quot_small. exact Ht.
  - apply Z.rem_small. exact Ht.
Qed.

Lemma quot_rem_next (t : Z) :
  DIRENTS_PER_SECTOR <= t ->
  t ÷ DIRENTS_PER_SECTOR = 1 + (t - DIRENTS_PER_SECTOR) ÷ DIRENTS_PER_SECTOR
  /\ Z.rem t DIRENTS_PER_SECTOR = Z.rem (t - DIRENTS_PER_SECTOR) DIRENTS_PER_SECTOR.
Proof.
  intros Ht.
  rewrite !Z.quot_div_nonneg, !Z.rem_mod_nonneg by lia.
  replace t with (t - DIRENTS_PER_SECTOR + 1 * DIRENTS_PER_SECTOR) at 1 3 by ring.
  rewrite Z.div_add, Z.mod_add by lia. split; ring.
Qed.

Lemma Dir_Read_loop_spec (d : disk) (inode_buffer : mem) (child : Z) (fuel : nat) :
  forall (buffer : mem) (entries index i : Z),
    0 <= entries <= Z.of_nat fuel -> entries < 2 ^ 64 ->
    (forall g, i <= g -> (g - i) * DIRENTS_PER_SECTOR < entries ->
               valid_sector (inode_data inode_buffer child g) = true) ->
    exists buffer',
      Dir_Read_loop fuel d inode_buffer child buffer entries index i = Done buffer'
      /\ (forall t b, 0 <= t < entries -> 0 <= b < sizeof_dirent ->
            buffer' (index + t * sizeof_dirent + b)
            = d (inode_data inode_buffer child (i + t ÷ DIRENTS_PER_SECTOR))
                (Z.rem t DIRENTS_PER_SECTOR * sizeof_dirent + b))
      /\ (forall x, x < index \/ index + entries * sizeof_dirent <= x ->
                    buffer' x = buffer x).
Proof.
  assert (Hsd : 0 < sizeof_dirent) by (unfold sizeof_dirent, MAX_NAME; lia).
  induction fuel as [|fuel IH]; intros buffer entries index i He Hlt Hv.
  - exists buffer. simpl. destruct (Z.ltb_spec 0 entries); [lia|].
    split; [reflexivity|]. split; [intros; lia|reflexivity].
  - cbn [Dir_Read_loop].
    destruct (Z.ltb_spec 0 entries) as [Hpos|].
    2:{ exists buffer. split; [reflexivity|]. split; [intros; lia|reflexivity]. }
    unfold Disk_Read. rewrite (Hv i) by lia.
    unfold to_size_t. rewrite Z.mod_small by lia.
    set (copy := if entries <? DIRENTS_PER_SECTOR then entries else DIRENTS_PER_SECTOR).
    assert (Hc : 0 < copy <= entries /\ copy <= DIRENTS_PER_SECTOR
                 /\ (copy = entries \/ copy = DIRENTS_PER_SECTOR)).
    { unfold copy. destruct (Z.ltb_spec entries DIRENTS_PER_SECTOR); lia. }
    clearbody copy. destruct Hc as [Hc1 [Hc2 Hc3]].
    destruct (IH (memcpy buffer index (d (inode_data inode_buffer child i)) 0
                    (copy * sizeof_dirent))
                 (entries - copy) (index + copy * sizeof_dirent) (i + 1))
      as [buffer' [Hrun [Hin Hout]]]; [lia|lia| |].
    { intros g Hg Hlt'. apply Hv; [lia|]. nia. }
    exists buffer'. split; [exact Hrun|]. split.
    + intros t b Ht Hb. destruct (Z.lt_ge_cases t copy) as [Hsmall|Hbig].
      * rewrite Hout by nia. unfold memcpy.
        destruct (Z.leb_spec index (index + t * sizeof_dirent + b)); [|nia].
        destruct (Z.ltb_spec (index + t * sizeof_dirent + b)
                    (index + copy * sizeof_dirent)); [|nia].
        simpl. destruct (quot_rem_small t ltac:(lia)) as [-> ->].
        f_equal; [f_equal; ring|ring].
      * assert (copy = DIRENTS_PER_SECTOR) by lia. subst copy.
        destruct (quot_rem_next t Hbig) as [-> ->].
        replace (index + t * sizeof_dirent + b)
          with (index + DIRENTS_PER_SECTOR * sizeof_dirent
                + (t - DIRENTS_PER_SECTOR) * sizeof_dirent + b) by ring.
        rewrite (Hin (t - DIRENTS_PER_SECTOR) b) by lia.
        f_equal. f_equal. ring.
    + intros x Hx. rewrite Hout by nia. unfold memcpy.
      destruct (Z.leb_spec index x); [|reflexivity].
      destruct (Z.ltb_spec x (index + copy * sizeof_dirent)); [nia|reflexivity].
Qed.

(** X28: an inode and a directory entry fitting into a sector, for a
    path that resolves to a directory of [E] entries and a buffer
    capacity that is not negative, [Dir_Read] returns -1 with
    [E_BUFFER_TOO_SMALL] when the capacity is below
    [E * sizeof(dirent_t)]; otherwise, the blocks of the directory being
    sectors of the disk, it returns [E] after copying the [E] entries
    into the buffer, entry [i] from block [i / DIRENTS_PER_SECTOR] at
    place [i % DIRENTS_PER_SECTOR], and writes nothing outside them. *)
Theorem Dir_Read_contract (st : state) (p : cstring) (buffer : mem)
  (capacity : Z) (parent child : Z) (name : cstring) :
  follow_path (st_disk st) (Some p) = Done (PathOk parent child name) ->
  0 <= child ->
  inode_type_of (st_disk st) child = 1 ->
  0 <= inode_size_of (st_disk st) child ->
  0 <= capacity <= int_max ->
  let E := inode_size_of (st_disk st) child in
  (capacity < E * sizeof_dirent ->
   Dir_Read st (Some p) buffer capacity
   = Done (set_errno st E_BUFFER_TOO_SMALL, buffer, -1))
  /\ (E * sizeof_dirent <= capacity ->
      (forall g, 0 <= g -> g * DIRENTS_PER_SECTOR < E ->
                 valid_sector (inode_data_of (st_disk st) child g) = true) ->
      exists buffer',
        Dir_Read st (Some p) buffer capacity = Done (st, buffer', E)
        /\ (forall i b, 0 <= i < E -> 0 <= b < sizeof_dirent ->
              buffer' (i * sizeof_dirent + b)
              = st_disk st
                  (inode_data_of (st_disk st) child (i ÷ DIRENTS_PER_SECTOR))
                  (Z.rem i DIRENTS_PER_SECTOR * sizeof_dirent + b))
        /\ (forall x, x < 0 \/ E * sizeof_dirent <= x -> buffer' x = buffer x)).
Proof.
  intros Hpath Hc Hty Hsz Hcap E.
  pose proof (follow_path_sector _ _ _ _ _ Hpath Hc) as Hv.
  pose proof (inode_offset_range child Hc) as Hoff. cbv zeta in Hoff.
  assert (Hrange : int_min <= E <= int_max) by apply load_int_range.
  assert (Hsd : sizeof_dirent = 20) by reflexivity.
  fold E in Hsz.
  unfold int_min, int_max in *.
  change (2 ^ 31) with 2147483648 in *.
  assert (Hcmp : (to_size_t capacity <? to_size_t (to_size_t E * sizeof_dirent))
                 = (capacity <? E * sizeof_dirent)).
  { unfold to_size_t. change (2 ^ 64) with 18446744073709551616.
    rewrite (Z.mod_small capacity) by lia.
    rewrite (Z.mod_small E) by lia.
    rewrite (Z.mod_small (E * sizeof_dirent)) by lia. reflexivity. }
  unfold Dir_Read. rewrite Hpath. cbn [bind].
  destruct (Z.ltb_spec child 0); [lia|].
  unfold Disk_Read. fold (inode_sector_of child). rewrite Hv, Hoff. cbn [assert bind].
  fold (inode_offset_of child).
  fold (inode_type_of (st_disk st) child). rewrite Hty. cbn [Z.eqb Pos.eqb negb].
  fold (inode_size_of (st_disk st) child). fold E. rewrite Hcmp.
  split.
  - intros Hsmall. destruct (Z.ltb_spec capacity (E * sizeof_dirent)); [reflexivity|lia].
  - intros Hbig Hblocks.
    destruct (Z.ltb_spec capacity (E * sizeof_dirent)); [lia|].
    destruct (Dir_Read_loop_spec (st_disk st) (st_disk st (inode_sector_of child))
                (inode_offset_of child) (Z.to_nat E) buffer E 0 0)
      as [buffer' [Hloop [Hin Hout]]].
    + lia.
    + change (2 ^ 64) with 18446744073709551616. lia.
    + intros g Hg Hlt. apply Hblocks; [lia|]. replace (g - 0) with g in Hlt by ring. exact Hlt.
    + exists buffer'. unfold Disk_Read in Hloop. rewrite Hloop. cbn [bind].
      split; [reflexivity|]. split.
      * intros i b Hi Hb. rewrite <- (Z.add_0_l (i * sizeof_dirent + b)), Z.add_assoc.
        rewrite Hin by assumption. reflexivity.
      * intros x Hx. apply Hout. lia.
Qed.

End DirRead.

Section DirReadRuns.
#[local] Existing Instance sample_geometry.

Lemma Dir_Read_contract_witness :
  inode_size_of (st_disk (state_of created_a_b)) 0 = 2
  /\ Dir_Read (state_of created_a_b) (path "/") zero_mem 39
     = Done (set_errno (state_of created_a_b) E_BUFFER_TOO_SMALL, zero_mem, -1)
  /\ exists buffer',
       Dir_Read (state_of created_a_b) (path "/") zero_mem 40
       = Done (state_of created_a_b, buffer', 2)
       /\ forall i b, 0 <= i < 2 -> 0 <= b < sizeof_dirent ->
            buffer' (i * sizeof_dirent + b)
            = st_disk (state_of created_a_b)
                (inode_data_of (st_disk (state_of created_a_b)) 0
                   (i ÷ DIRENTS_PER_SECTOR))
                (Z.rem i DIRENTS_PER_SECTOR * sizeof_dirent + b).
Proof.
  assert (Hsz : inode_size_of (st_disk (state_of created_a_b)) 0 = 2)
    by (vm_compute; reflexivity).
  split; [exact Hsz|].
  assert (H : forall capacity, 0 <= capacity <= int_max -> _) by
    (intros capacity Hcap;
     apply (@Dir_Read_contract sample_geometry eq_refl eq_refl
              (state_of created_a_b) (c_str "/") zero_mem capacity 0 0 []);
     [ vm_compute; reflexivity | lia | vm_compute; reflexivity
     | rewrite Hsz; lia | exact Hcap ]).
  cbv zeta in H. rewrite Hsz in H.
  split.
  - apply (H 39); [unfold int_max; lia|]. unfold sizeof_dirent, MAX_NAME. lia.
  - destruct (H 40) as [_ Hok]; [unfold int_max; lia|].
    destruct Hok as [buffer' [Hrun [Hin _]]].
    + unfold sizeof_dirent, MAX_NAME. lia.
    + intros g Hg Hlt.
      assert (g = 0) by (change DIRENTS_PER_SECTOR with 25 in Hlt; lia). subst g.
      vm_compute; reflexivity.
    + exists buffer'. split; [exact Hrun|exact Hin].
Defined.

(** C8 (the code departs from the claim): the root directory of
    [created_a_b] has [E = 2] entries, which take 40 bytes.  The test
    [child->size * sizeof(dirent_t) > size] is made in [size_t], where
    the capacity -1 is the largest value there is: [Dir_Read] with
    capacity -1 does not fail with [E_BUFFER_TOO_SMALL], it copies the
    two entries "a" and "b", 40 bytes, into the buffer and returns 2,
    leaving [osErrno] alone.  With capacity 39 the same call is
    refused. *)
Theorem Dir_Read_negative_capacity :
  inode_size_of (st_disk (state_of created_a_b)) 0 = 2
  /\ -1 < 2 * sizeof_dirent
  /\ observe (Dir_Read (state_of created_a_b) (path "/") zero_mem (-1))
       (fun '(s, buffer', r) =>
          (r, osErrno s,
           streq_at buffer' 0 (c_str "a"), dirent_inode buffer' 0,
           streq_at buffer' sizeof_dirent (c_str "b"),
           dirent_inode buffer' sizeof_dirent))
     = Some (2, E_NONE, true, 1, true, 2)
  /\ observe (Dir_Read (state_of created_a_b) (path "/") zero_mem 39)
       (fun '(s, _, r) => (r, osErrno s))
     = Some (-1, E_BUFFER_TOO_SMALL).
Proof. vm_compute. repeat split; reflexivity. Qed.

(** The two entries that a call with capacity 40 copies are "a" and "b". *)
Example Dir_Read_root_listing :
  observe (Dir_Read (state_of created_a_b) (path "/") zero_mem 40)
    (fun '(_, buffer', r) =>
       (r, streq_at buffer' 0 (c_str "a"), dirent_inode buffer' 0,
        streq_at buffer' sizeof_dirent (c_str "b"), dirent_inode buffer' sizeof_dirent))
  = Some (2, true, 1, true, 2).
Proof. vm_compute. reflexivity. Qed.

End DirReadRuns.

(** ** Integers in a buffer *)

Lemma to_signed_wrap (v : Z) :
  int_min <= v <= int_max -> to_signed (v mod 2 ^ 32) = v.
Proof.
  unfold int_min, int_max, to_signed. intros Hv.
  change (2 ^ 31) with 2147483648 in *. change (2 ^ 32) with 4294967296 in *.
  destruct (Z_lt_le_dec v 0) as [Hneg|Hpos].
  - replace (v mod 4294967296) with (v + 4294967296).
    + destruct (Z.ltb_spec (v + 4294967296) 2147483648); lia.
    + apply Z.mod_unique with (q := -1); lia.
  - rewrite Z.mod_small by lia.
    destruct (Z.ltb_spec v 2147483648); lia.
Qed.

Lemma store_int_inside (m : mem) (off v : Z) (i : Z) :
  0 <= i < 4 ->
  store_int m off v (off + i) = nth (Z.to_nat i) (le_split 4 v) Byte.x00.
Proof.
  intros Hi. unfold store_int.
  destruct (Z.leb_spec off (off + i)); [|lia].
  destruct (Z.ltb_spec (off + i) (off + 4)); [|lia].
  simpl. replace (off + i - off) with i by ring. reflexivity.
Qed.

Lemma store_int_outside (m : mem) (off v : Z) (x : Z) :
  x < off \/ off + 4 <= x -> store_int m off v x = m x.
Proof.
  intros Hx. unfold store_int.
  destruct (Z.leb_spec off x); [|reflexivity].
  destruct (Z.ltb_spec x (off + 4)); [lia|reflexivity].
Qed.

Lemma load_store_same (m : mem) (off v : Z) :
  int_min <= v <= int_max -> load_int (store_int m off v) off = v.
Proof.
  intros Hv. unfold load_int.
  pose proof (store_int_inside m off v 0) as H0. rewrite Z.add_0_r in H0.
  rewrite H0, !store_int_inside by lia.
  change [nth (Z.to_nat 0) (le_split 4 v) Byte.x00;
          nth (Z.to_nat 1) (le_split 4 v) Byte.x00;
          nth (Z.to_nat 2) (le_split 4 v) Byte.x00;
          nth (Z.to_nat 3) (le_split 4 v) Byte.x00]
    with (le_split 4 v).
  rewrite le_combine_split. change (Z.of_nat 4 * 8) with 32.
  apply to_signed_wrap. exact Hv.
Qed.

Lemma load_store_other (m : mem) (off v off' : Z) :
  off' + 4 <= off \/ off + 4 <= off' ->
  load_int (store_int m off v) off' = load_int m off'.
Proof.
  intros H. unfold load_int. rewrite !store_int_outside by lia. reflexivity.
Qed.

Section InodeFields.
Context {G : geometry}.

Lemma data_set_data_same (m : mem) (p g v : Z) :
  int_min <= v <= int_max -> inode_data (set_inode_data m p g v) p g = v.
Proof. apply load_store_same. Qed.

Lemma data_set_data_other (m : mem) (p g g' v : Z) :
  g' <> g -> inode_data (set_inode_data m p g v) p g' = inode_data m p g'.
Proof. intros H. apply load_store_other. lia. Qed.

Lemma type_set_data (m : mem) (p g v : Z) :
  0 <= g -> inode_type (set_inode_data m p g v) p = inode_type m p.
Proof. intros H. apply load_store_other. lia. Qed.

Lemma size_set_size (m : mem) (p v : Z) :
  int_min <= v <= int_max -> inode_size (set_inode_size m p v) p = v.
Proof. apply load_store_same. Qed.

Lemma type_set_size (m : mem) (p v : Z) :
  inode_type (set_inode_size m p v) p = inode_type m p.
Proof. apply load_store_other. lia. Qed.

Lemma data_set_size (m : mem) (p g v : Z) :
  0 <= g -> inode_data (set_inode_size m p v) p g = inode_data m p g.
Proof. intros H. apply load_store_other. lia. Qed.

End InodeFields.

(** ** First fit *)

Lemma set_first_clear_least (b k' : Z) :
  0 <= b < 255 -> 0 <= k' < snd (set_first_clear 8 0 b) ->
  Z.land b (tbl BYTE1 k') <> 0.
Proof.
  intros Hb Hk.
  pose (f := fun b => forallb (fun k' =>
             (snd (set_first_clear 8 0 b) <=? k')
             || negb (Z.land b (tbl BYTE1 k') =? 0))
             (map Z.of_nat (seq 0 8))).
  assert (H : f b = true).
  { apply (range_forallb f 255); [vm_compute; reflexivity|lia]. }
  unfold f in H; clear f.
  assert (Hk8 : snd (set_first_clear 8 0 b) <= 8).
  { pose (g := fun b => snd (set_first_clear 8 0 b) <=? 8).
    assert (Hg : g b = true).
    { apply (range_forallb g 255); [vm_compute; reflexivity|lia]. }
    unfold g in Hg. apply Z.leb_le in Hg. exact Hg. }
  apply (range_forallb _ 8) with (z := k') in H; [|lia].
  apply orb_prop in H. destruct H as [H|H].
  - apply Z.leb_le in H. lia.
  - apply negb_true_iff in H. apply Z.eqb_neq in H. exact H.
Qed.

Section FirstFit.
Context {G : geometry}.
Hypothesis sector_size_pos : 0 < SECTOR_SIZE.

Lemma scan_sector_least (n : nat) (j : Z) (buf : mem) (nbits : Z)
  (buf' : mem) (r : Z) :
  scan_sector n j buf nbits = Some (buf', r) ->
  forall j' k', j <= j' -> 0 <= k' < 8 -> j' * 8 + k' < r ->
    Z.land (byte.unsigned (buf j')) (tbl BYTE1 k') <> 0.
Proof.
  revert j. induction n as [|n IH]; intros j H j' k' Hj' Hk' Hlt; [discriminate|].
  cbn [scan_sector] in H. destruct (Z.leb_spec nbits j); [discriminate|].
  pose proof (byte.unsigned_range (buf j)) as Hr. change (2 ^ 8) with 256 in Hr.
  destruct (Z.ltb_spec (byte.unsigned (buf j)) 255) as [Hb|Hb].
  - pose proof (set_first_clear_least (byte.unsigned (buf j)) k') as Hl.
    destruct (set_first_clear_spec (byte.unsigned (buf j))) as [k [Hk [_ E]]]; [lia|].
    rewrite E in H, Hl. injection H as _ <-. cbn [snd] in Hl.
    assert (j' = j) by lia. subst j'. apply Hl; lia.
  - destruct (Z.eq_dec j' j) as [->|Hne].
    + replace (byte.unsigned (buf j)) with 255 by lia. apply full_byte_bit. exact Hk'.
    + apply (IH (j + 1)); [exact H|lia|exact Hk'|exact Hlt].
Qed.

Lemma bitmap_first_unused_loop_least (n : nat) (i : Z) (d : disk)
  (start nbits : Z) (d' : disk) (r : Z) :
  bitmap_first_unused_loop n i d start nbits = (d', r) ->
  0 <= r -> 0 <= i ->
  forall i' j' k', i <= i' -> 0 <= j' < SECTOR_SIZE -> 0 <= k' < 8 ->
    bit_index i' j' k' < r ->
    Z.land (byte.unsigned (d (start + i') j')) (tbl BYTE1 k') <> 0.
Proof.
  revert i nbits. induction n as [|n IH]; intros i nbits H Hr Hi i' j' k' Hi' Hj' Hk' Hlt.
  - injection H as _ <-. lia.
  - cbn [bitmap_first_unused_loop] in H.
    destruct (Disk_Read d (start + i)) as [buf|] eqn:Hrd; [|injection H as _ <-; lia].
    apply Disk_Read_Some in Hrd. destruct Hrd as [Hv ->].
    destruct (scan_sector (Z.to_nat SECTOR_SIZE) 0 (d (start + i)) nbits)
      as [[buf' r0]|] eqn:Hs.
    + destruct (Disk_Write d (start + i) buf'); [|injection H as _ <-; lia].
      injection H as _ <-.
      pose proof Hs as Hs'. apply scan_sector_Some in Hs'.
      destruct Hs' as [j0 [k0 [Hj0 [_ [Hk0 [Er _]]]]]].
      unfold bit_index in Hlt.
      assert (i' = i) by nia. subst i'.
      apply (scan_sector_least _ _ _ _ _ _ Hs); [lia|exact Hk'|lia].
    + pose proof H as H'.
      apply bitmap_first_unused_loop_spec in H'; [|exact sector_size_pos|lia].
      destruct H' as [[Hm _]|[i2 [j2 [k2 [Hi2 [Hj2 [Hk2 [Hn2 _]]]]]]]]; [lia|].
      destruct (Z.eq_dec i' i) as [->|Hne].
      * pose proof (scan_sector_None _ _ _ _ Hs j') as Hfull.
        rewrite Hfull by nia. apply full_byte_bit. exact Hk'.
      * apply (IH (i + 1) (nbits - SECTOR_SIZE)); auto; lia.
Qed.

(** A bitmap with a clear bit in range gives out an index, and none
    above that bit. *)
Lemma bitmap_first_unused_finds (d : disk) (start num nbits b : Z) :
  (forall i, 0 <= i < num -> valid_sector (start + i) = true) ->
  0 <= b < 8 * nbits -> b < 8 * (num * SECTOR_SIZE) ->
  bitmap_bit d start b = false ->
  0 <= snd (bitmap_first_unused d start num nbits) <= b.
Proof.
  intros Hv Hb Hnum Hclear.
  pose proof sector_size_pos as Hss.
  destruct (bitmap_first_unused d start num nbits) as [d' r] eqn:H. cbn [snd].
  unfold bitmap_first_unused in H.
  destruct (bit_index_join Hss b) as [Hi [Hj [Hk E]]]; [lia|].
  set (i := (b ÷ 8) ÷ SECTOR_SIZE) in *.
  set (j := Z.rem (b ÷ 8) SECTOR_SIZE) in *.
  set (k := Z.rem b 8) in *.
  pose proof E as E'. unfold bit_index in E'.
  assert (Hin : i < num) by nia.
  rewrite E, bitmap_bit_at in Hclear by assumption.
  apply negb_false_iff in Hclear. apply Z.eqb_eq in Hclear.
  destruct (Z_lt_le_dec r 0) as [Hneg|Hpos].
  - exfalso.
    pose proof (bitmap_first_unused_loop_full Hss _ _ _ _ _ _ _ H Hneg (Z.le_refl 0)) as Hfull.
    rewrite (Hfull ltac:(intros; apply Hv; lia) i j) in Hclear; try lia.
    apply (full_byte_bit k Hk). exact Hclear.
  - split; [exact Hpos|].
    destruct (Z_lt_le_dec b r) as [Hlt|]; [exfalso|lia].
    apply (bitmap_first_unused_loop_least _ _ _ _ _ _ _ H Hpos (Z.le_refl 0) i j k);
      try assumption; lia.
Qed.

End FirstFit.

(** ** Counting *)

(** Two tests that differ on one element of a list without repetition:
    the one that takes it keeps one element more. *)
Lemma filter_flip_length (f g : Z -> bool) (l : list Z) (x : Z) :
  NoDup l -> In x l -> f x = true -> g x = false ->
  (forall y, In y l -> y <> x -> g y = f y) ->
  List.length (filter f l) = S (List.length (filter g l)).
Proof.
  intros Hnd. induction Hnd as [|a l Hnotin Hnd IH]; intros Hin Hf Hg Hsame;
    [contradiction|].
  destruct (Z.eq_dec a x) as [->|Hne].
  - simpl. rewrite Hf, Hg. simpl. f_equal. f_equal.
    apply filter_ext_in. intros y Hy. symmetry. apply Hsame; [right; exact Hy|].
    intros ->. contradiction.
  - destruct Hin as [E|Hin]; [contradiction|].
    simpl. rewrite (Hsame a (or_introl eq_refl) Hne).
    destruct (f a); simpl; rewrite IH; auto;
      intros y Hy; apply Hsame; right; exact Hy.
Qed.

Lemma range_NoDup (n : nat) : NoDup (map Z.of_nat (seq 0 n)).
Proof.
  generalize 0%nat. induction n as [|n IH]; intros s; simpl; constructor.
  - rewrite in_map_iff. intros [k [E Hk]]. apply in_seq in Hk. lia.
  - apply IH.
Qed.

Lemma range_In (n : nat) (z : Z) :
  In z (map Z.of_nat (seq 0 n)) <-> 0 <= z < Z.of_nat n.
Proof.
  rewrite in_map_iff. split.
  - intros [k [<- Hk]]. apply in_seq in Hk. lia.
  - intros Hz. exists (Z.to_nat z). split; [lia|]. apply in_seq. lia.
Qed.

(** ** Writing a file and reading it back *)

Section RoundTrip.
Context {G : geometry}.
Hypothesis Hgeo : geometry_ok.

Lemma Disk_Write_Some (d : disk) (s : Z) (buf : mem) (d' : disk) :
  Disk_Write d s buf = Some d' ->
  valid_sector s = true /\ d' = (fun s' => if s' =? s then buf else d s').
Proof.
  unfold Disk_Write. destruct (valid_sector s); [|discriminate].
  intros H. injection H as <-. auto.
Qed.

Lemma valid_sector_range (s : Z) : valid_sector s = true <-> 0 <= s < TOTAL_SECTORS.
Proof.
  unfold valid_sector. rewrite andb_true_iff, Z.leb_le, Z.ltb_lt. reflexivity.
Qed.

(** *** The layout of the volume *)

Lemma quot_nonneg (a b : Z) : 0 <= a -> 0 < b -> 0 <= a ÷ b.
Proof. intros Ha Hb. apply Z.quot_pos; lia. Qed.

Lemma quot_ceil_gt (a b : Z) : 0 <= a -> 0 < b -> a < ((a + b - 1) ÷ b) * b + 1 /\ a <= ((a + b - 1) ÷ b) * b.
Proof.
  intros Ha Hb. rewrite Z.quot_div_nonneg by lia.
  assert (Hb0 : b <> 0) by lia.
  pose proof (Z.div_mod (a + b - 1) b Hb0).
  pose proof (Z.mod_pos_bound (a + b - 1) b Hb). nia.
Qed.

Lemma layout_nonneg :
  0 <= INODE_BITMAP_SECTORS /\ 0 <= SECTOR_BITMAP_SECTORS /\ 0 <= INODE_TABLE_SECTORS.
Proof.
  destruct Hgeo.
  unfold INODE_BITMAP_SECTORS, SECTOR_BITMAP_SECTORS, INODE_TABLE_SECTORS,
    INODE_BITMAP_SIZE, SECTOR_BITMAP_SIZE.
  assert (0 <= (MAX_FILES + 7) ÷ 8) by (apply quot_nonneg; lia).
  assert (0 <= (TOTAL_SECTORS + 7) ÷ 8) by (apply quot_nonneg; lia).
  repeat split; apply quot_nonneg; lia.
Qed.

Lemma inode_sector_layout (ino : Z) :
  0 <= ino < MAX_FILES ->
  INODE_TABLE_START_SECTOR <= inode_sector_of ino < DATABLOCK_START_SECTOR.
Proof.
  intros Hi. destruct Hgeo.
  unfold inode_sector_of, DATABLOCK_START_SECTOR, INODE_TABLE_SECTORS.
  assert (0 <= ino ÷ INODES_PER_SECTOR) by (apply quot_nonneg; lia).
  assert (ino ÷ INODES_PER_SECTOR < (MAX_FILES + INODES_PER_SECTOR - 1) ÷ INODES_PER_SECTOR).
  { destruct (quot_ceil_gt MAX_FILES INODES_PER_SECTOR) as [_ Hc]; [lia|lia|].
    rewrite (Z.quot_div_nonneg ino) by lia.
    assert (Hn : INODES_PER_SECTOR <> 0) by lia.
    pose proof (Z.div_mod ino INODES_PER_SECTOR Hn).
    pose proof (Z.mod_pos_bound ino INODES_PER_SECTOR ok_inodes_per_sector0). nia. }
  lia.
Qed.

(** The bit of a sector of the disk lies in a sector of the sector
    bitmap. *)
Lemma sector_bit_layout (s : Z) :
  0 <= s < TOTAL_SECTORS ->
  SECTOR_BITMAP_START_SECTOR
  <= SECTOR_BITMAP_START_SECTOR + (s ÷ 8) ÷ SECTOR_SIZE
  < INODE_TABLE_START_SECTOR.
Proof.
  intros Hs. destruct Hgeo.
  unfold INODE_TABLE_START_SECTOR, SECTOR_BITMAP_SECTORS, SECTOR_BITMAP_SIZE.
  assert (0 <= s ÷ 8) by (apply quot_nonneg; lia).
  assert (0 <= (s ÷ 8) ÷ SECTOR_SIZE) by (apply quot_nonneg; lia).
  assert (s ÷ 8 < (TOTAL_SECTORS + 7) ÷ 8).
  { rewrite !Z.quot_div_nonneg by lia.
    pose proof (Z.div_mod s 8 ltac:(lia)). pose proof (Z.mod_pos_bound s 8 ltac:(lia)).
    pose proof (Z.div_mod (TOTAL_SECTORS + 7) 8 ltac:(lia)).
    pose proof (Z.mod_pos_bound (TOTAL_SECTORS + 7) 8 ltac:(lia)). lia. }
  assert ((s ÷ 8) ÷ SECTOR_SIZE
          < ((TOTAL_SECTORS + 7) ÷ 8 + SECTOR_SIZE - 1) ÷ SECTOR_SIZE).
  { destruct (quot_ceil_gt ((TOTAL_SECTORS + 7) ÷ 8) SECTOR_SIZE) as [_ Hc]; [lia|lia|].
    rewrite (Z.quot_div_nonneg (s ÷ 8)) by lia.
    assert (Hn : SECTOR_SIZE <> 0) by lia.
    pose proof (Z.div_mod (s ÷ 8) SECTOR_SIZE Hn).
    pose proof (Z.mod_pos_bound (s ÷ 8) SECTOR_SIZE ok_sector_size0). nia. }
  lia.
Qed.

Lemma table_before_data : INODE_TABLE_START_SECTOR <= DATABLOCK_START_SECTOR.
Proof.
  pose proof layout_nonneg. unfold DATABLOCK_START_SECTOR. lia.
Qed.

(** Writing a sector of the inode table or a data block does not touch
    the bit of any sector of the disk. *)
Lemma bitmap_bit_write (d : disk) (t : Z) (buf : mem) (s : Z) :
  0 <= s < TOTAL_SECTORS -> INODE_TABLE_START_SECTOR <= t ->
  bitmap_bit (fun s' => if s' =? t then buf else d s') SECTOR_BITMAP_START_SECTOR s
  = bitmap_bit d SECTOR_BITMAP_START_SECTOR s.
Proof.
  intros Hs Ht. unfold bitmap_bit.
  pose proof (sector_bit_layout s Hs).
  destruct (Z.eqb_spec (SECTOR_BITMAP_START_SECTOR + (s ÷ 8) ÷ SECTOR_SIZE) t); [lia|].
  reflexivity.
Qed.

(** What a successful allocation in the sector bitmap does. *)
Lemma allocate_sector (d d1 : disk) (newsec : Z) :
  bitmap_first_unused d SECTOR_BITMAP_START_SECTOR SECTOR_BITMAP_SECTORS
    SECTOR_BITMAP_SIZE = (d1, newsec) ->
  0 <= newsec ->
  bitmap_bit d SECTOR_BITMAP_START_SECTOR newsec = false
  /\ bitmap_bit d1 SECTOR_BITMAP_START_SECTOR newsec = true
  /\ (forall b, 0 <= b -> b <> newsec ->
        bitmap_bit d1 SECTOR_BITMAP_START_SECTOR b
        = bitmap_bit d SECTOR_BITMAP_START_SECTOR b)
  /\ newsec <= int_max
  /\ (forall s, INODE_TABLE_START_SECTOR <= s -> d1 s = d s).
Proof.
  intros H Hr. unfold bitmap_first_unused in H.
  pose proof (ok_sector_size Hgeo) as Hss.
  destruct (bitmap_first_unused_loop_spec Hss _ _ _ _ _ _ _ H (Z.le_refl 0))
    as [[-> _]|[i [j [k [Hi [Hj [Hk [_ [-> [Hv [Hc ->]]]]]]]]]]]; [lia|].
  assert (Hi0 : 0 <= i) by lia.
  split; [apply allocated_was_free; assumption|].
  split; [apply allocated_is_used; assumption|].
  split; [intros b Hb Hne; apply allocated_other_bits; assumption|].
  pose proof layout_nonneg as [_ [Hsb _]].
  split.
  - pose proof (ok_sector_index Hgeo). 
    assert (i < SECTOR_BITMAP_SECTORS) by lia. unfold bit_index. nia.
  - intros s Hs. apply allocated_other_sectors.
    unfold INODE_TABLE_START_SECTOR in Hs. lia.
Qed.

(** *** Writing to a fresh file *)

(** One pass of the loop of [File_Write] on a block that has to be
    allocated: the new block joins those that hold the source. *)
Lemma blocks_hold_extend (d d1 : disk) (inode_buffer : mem) (p : Z)
  (src : mem) (soff : Z) (pos gidx newsec size1 : Z) (data : mem) :
  metadata_reserved d ->
  blocks_hold d inode_buffer p pos src soff ->
  gidx * SECTOR_SIZE = pos ->
  0 <= gidx ->
  bitmap_first_unused d SECTOR_BITMAP_START_SECTOR SECTOR_BITMAP_SECTORS
    SECTOR_BITMAP_SIZE = (d1, newsec) ->
  0 <= newsec ->
  valid_sector newsec = true ->
  0 < size1 <= SECTOR_SIZE ->
  (forall x, 0 <= x < size1 -> data x = src (soff + (pos + x))) ->
  let d2 : disk := fun s' => if s' =? newsec then data else d1 s' in
  metadata_reserved d2
  /\ blocks_hold d2 (set_inode_data inode_buffer p gidx newsec) p
       (pos + size1) src soff.
Proof.
  intros Hmeta Hold Halign Hg Halloc Hnew Hvalid Hsize Hdata d2. subst pos.
  destruct (allocate_sector _ _ _ Halloc Hnew) as [Hfree [Hused [Hother [Hint Hsame]]]].
  pose proof (ok_sector_size Hgeo) as Hss.
  pose proof (ok_metadata Hgeo) as Hfit.
  pose proof table_before_data as Htab.
  apply valid_sector_range in Hvalid.
  assert (Hdata_sector : DATABLOCK_START_SECTOR <= newsec).
  { destruct (Z_lt_le_dec newsec DATABLOCK_START_SECTOR) as [Hlt|]; [|assumption].
    rewrite Hmeta in Hfree by lia. discriminate. }
  assert (Hbit2 : forall s, 0 <= s < TOTAL_SECTORS ->
            bitmap_bit d2 SECTOR_BITMAP_START_SECTOR s
            = bitmap_bit d1 SECTOR_BITMAP_START_SECTOR s).
  { intros s Hs. unfold d2. apply bitmap_bit_write; [exact Hs|lia]. }
  split.
  - intros s Hs. rewrite Hbit2 by lia. rewrite Hother by lia. apply Hmeta. exact Hs.
  - intros g Hg0 Hlen.
    destruct (Z.eq_dec g gidx) as [->|Hne].
    + rewrite data_set_data_same by (unfold int_min; lia).
      split; [apply valid_sector_range; exact Hvalid|].
      split; [exact Hdata_sector|].
      split; [rewrite Hbit2 by exact Hvalid; exact Hused|].
      intros x Hx Hxl. unfold d2. rewrite Z.eqb_refl. apply Hdata. lia.
    + rewrite data_set_data_other by exact Hne.
      assert (Hlt : g < gidx) by nia.
      destruct (Hold g Hg0 ltac:(nia)) as [Hv [Hds [Hb Hc]]].
      apply valid_sector_range in Hv.
      assert (Hdiff : inode_data inode_buffer p g <> newsec).
      { intros E. rewrite E in Hb. rewrite Hb in Hfree. discriminate. }
      split; [apply valid_sector_range; exact Hv|].
      split; [exact Hds|].
      split; [rewrite Hbit2 by exact Hv; rewrite Hother by lia; exact Hb|].
      intros x Hx Hxl. unfold d2.
      destruct (Z.eqb_spec (inode_data inode_buffer p g) newsec); [contradiction|].
      rewrite Hsame by lia. apply Hc; [exact Hx|nia].
Qed.

(** *** Free sectors *)

Lemma free_sectors_nonneg (d : disk) : 0 <= free_sectors d.
Proof. unfold free_sectors. lia. Qed.

(** A volume with a free sector has a clear bit among its sectors. *)
Lemma free_sectors_pos (d : disk) :
  0 < free_sectors d ->
  exists b, 0 <= b < TOTAL_SECTORS
            /\ bitmap_bit d SECTOR_BITMAP_START_SECTOR b = false.
Proof.
  unfold free_sectors. intros H.
  destruct (filter _ _) as [|b l] eqn:E; [simpl in H; lia|].
  assert (Hin : In b (b :: l)) by (left; reflexivity).
  rewrite <- E in Hin. apply filter_In in Hin. destruct Hin as [Hin Hb].
  apply range_In in Hin. apply negb_true_iff in Hb.
  pose proof (ok_total_sectors Hgeo).
  exists b. split; [lia|exact Hb].
Qed.

(** Setting the bit of one sector takes one free sector away. *)
Lemma free_sectors_take (d d' : disk) (s : Z) :
  0 <= s < TOTAL_SECTORS ->
  bitmap_bit d SECTOR_BITMAP_START_SECTOR s = false ->
  bitmap_bit d' SECTOR_BITMAP_START_SECTOR s = true ->
  (forall b, 0 <= b < TOTAL_SECTORS -> b <> s ->
     bitmap_bit d' SECTOR_BITMAP_START_SECTOR b
     = bitmap_bit d SECTOR_BITMAP_START_SECTOR b) ->
  free_sectors d' = free_sectors d - 1.
Proof.
  intros Hs Hfree Hused Hother. unfold free_sectors.
  rewrite (filter_flip_length
             (fun s => negb (bitmap_bit d SECTOR_BITMAP_START_SECTOR s))
             (fun s => negb (bitmap_bit d' SECTOR_BITMAP_START_SECTOR s))
             _ s).
  - lia.
  - apply range_NoDup.
  - apply range_In. lia.
  - rewrite Hfree. reflexivity.
  - rewrite Hused. reflexivity.
  - intros y Hy Hne. apply range_In in Hy. rewrite Hother by lia. reflexivity.
Qed.

(** The sector bitmap lies on the disk and has a bit for every sector. *)
Lemma sector_bitmap_covers :
  (forall i, 0 <= i < SECTOR_BITMAP_SECTORS ->
     valid_sector (SECTOR_BITMAP_START_SECTOR + i) = true)
  /\ TOTAL_SECTORS <= 8 * SECTOR_BITMAP_SIZE
  /\ SECTOR_BITMAP_SIZE <= SECTOR_BITMAP_SECTORS * SECTOR_SIZE.
Proof.
  pose proof (ok_sector_size Hgeo) as Hss.
  pose proof (ok_total_sectors Hgeo) as Hts.
  pose proof (ok_metadata Hgeo) as Hfit.
  pose proof layout_nonneg as [Hib [Hsb Hit]].
  assert (Hsz : 0 <= SECTOR_BITMAP_SIZE)
    by (unfold SECTOR_BITMAP_SIZE; apply quot_nonneg; lia).
  split; [|split].
  - intros i Hi. apply valid_sector_range.
    unfold DATABLOCK_START_SECTOR, INODE_TABLE_START_SECTOR,
      SECTOR_BITMAP_START_SECTOR, INODE_BITMAP_START_SECTOR in *. lia.
  - unfold SECTOR_BITMAP_SIZE.
    destruct (quot_ceil_gt TOTAL_SECTORS 8) as [_ H]; [lia|lia|].
    replace (TOTAL_SECTORS + 8 - 1) with (TOTAL_SECTORS + 7) in H by ring. lia.
  - unfold SECTOR_BITMAP_SECTORS.
    destruct (quot_ceil_gt SECTOR_BITMAP_SIZE SECTOR_SIZE) as [_ H]; [lia|lia|].
    exact H.
Qed.

(** On a volume with a free sector the allocation in the sector bitmap
    gives out a sector of the disk. *)
Lemma allocate_sector_room (d : disk) :
  0 < free_sectors d ->
  0 <= snd (bitmap_first_unused d SECTOR_BITMAP_START_SECTOR SECTOR_BITMAP_SECTORS
              SECTOR_BITMAP_SIZE) < TOTAL_SECTORS.
Proof.
  intros Hfree. destruct (free_sectors_pos d Hfree) as [b [Hb Hclear]].
  destruct sector_bitmap_covers as [Hv [Hbits Hbytes]].
  assert (Hb1 : 0 <= b < 8 * SECTOR_BITMAP_SIZE) by lia.
  assert (Hb2 : b < 8 * (SECTOR_BITMAP_SECTORS * SECTOR_SIZE)) by lia.
  pose proof (bitmap_first_unused_finds (ok_sector_size Hgeo) d
                SECTOR_BITMAP_START_SECTOR SECTOR_BITMAP_SECTORS SECTOR_BITMAP_SIZE b
                Hv Hb1 Hb2 Hclear). lia.
Qed.

(** *** The loop of [File_Write] *)

(** The loop of [File_Write] on a fresh file, with as many free sectors
    as the bytes left to write take: it runs to completion, and the
    blocks of the file hold the source. *)
Lemma File_Write_loop_fresh (src : mem) (soff p n : Z) (fuel : nat) :
  n <= MAX_SECTORS_PER_FILE * SECTOR_SIZE ->
  forall (d : disk) (inode_buffer : mem) (pos : Z),
    (Z.to_nat (n - pos) <= fuel)%nat ->
    0 <= pos <= n ->
    (pos < n -> pos ÷ SECTOR_SIZE * SECTOR_SIZE = pos) ->
    metadata_reserved d ->
    blocks_hold d inode_buffer p pos src soff ->
    n - pos <= free_sectors d * SECTOR_SIZE ->
    exists d' inode_buffer',
      File_Write_loop fuel d inode_buffer p 0 src soff pos pos (n - pos) (n - pos)
      = Done (WriteDone d' inode_buffer' n n)
      /\ blocks_hold d' inode_buffer' p n src soff
      /\ inode_type inode_buffer' p = inode_type inode_buffer p.
Proof.
  intros Hn. pose proof (ok_sector_size Hgeo) as Hss.
  induction fuel as [|fuel IH];
    intros d inode_buffer pos Hfuel Hpos Halign Hmeta Hold Hroom.
  - assert (pos = n) by lia. subst pos.
    exists d, inode_buffer. simpl.
    destruct (Z.ltb_spec 0 (n - n)); [lia|]. auto.
  - cbn [File_Write_loop].
    destruct (Z.ltb_spec 0 (n - pos)) as [Hrem|Hrem].
    2:{ assert (pos = n) by lia. subst pos.
        exists d, inode_buffer. auto. }
    specialize (Halign ltac:(lia)).
    set (gidx := pos ÷ SECTOR_SIZE) in *.
    assert (Hg : 0 <= gidx) by (apply quot_nonneg; lia).
    assert (Hgmax : gidx < MAX_SECTORS_PER_FILE) by nia.
    destruct (Z.eqb_spec gidx MAX_SECTORS_PER_FILE) as [|_]; [lia|].
    cbv zeta.
    set (size1 := if gidx * SECTOR_SIZE + SECTOR_SIZE <? pos + (n - pos)
                  then gidx * SECTOR_SIZE + SECTOR_SIZE - pos else n - pos).
    assert (Hsize : 0 < size1 <= SECTOR_SIZE /\ size1 <= n - pos
                    /\ (pos + size1 < n -> size1 = SECTOR_SIZE)).
    { unfold size1. destruct (Z.ltb_spec (gidx * SECTOR_SIZE + SECTOR_SIZE) (pos + (n - pos))); lia. }
    clearbody size1. destruct Hsize as [Hs1 [Hs2 Hs3]].
    destruct (Z.ltb_spec (gidx * SECTOR_SIZE) 0) as [|_]; [nia|].
    assert (Hfree : 0 < free_sectors d) by nia.
    pose proof (allocate_sector_room d Hfree) as Hnewsec.
    destruct (bitmap_first_unused d SECTOR_BITMAP_START_SECTOR SECTOR_BITMAP_SECTORS
                SECTOR_BITMAP_SIZE) as [d1 newsec] eqn:Halloc.
    cbn [snd] in Hnewsec.
    destruct (Z.ltb_spec newsec 0) as [|Hnew]; [lia|].
    destruct (allocate_sector _ _ _ Halloc Hnew) as [Hwas [Hnow [Hother [Hint Hsame]]]].
    rewrite data_set_data_same by (unfold int_min; lia).
    assert (Hvalid : valid_sector newsec = true) by (apply valid_sector_range; lia).
    unfold Disk_Write. rewrite Hvalid.
    destruct (blocks_hold_extend d d1 inode_buffer p src soff pos gidx newsec size1
                (memcpy (mem_fill zero_mem 0 SECTOR_SIZE Byte.x00)
                   (pos - gidx * SECTOR_SIZE) src (soff + pos) size1)
                Hmeta Hold Halign Hg Halloc Hnew Hvalid Hs1) as [Hmeta2 Hold2].
    { intros x Hx. unfold memcpy. rewrite Halign.
      destruct (Z.leb_spec (pos - pos) x); [|lia].
      destruct (Z.ltb_spec x (pos - pos + size1)); [|lia].
      simpl. f_equal. lia. }
    assert (Hdata_sector : INODE_TABLE_START_SECTOR <= newsec).
    { pose proof table_before_data.
      destruct (Z_lt_le_dec newsec DATABLOCK_START_SECTOR) as [Hlt|]; [|lia].
      rewrite Hmeta in Hwas by lia. discriminate. }
    match type of Hold2 with
    | blocks_hold ?d2 _ _ _ _ _ =>
        assert (Htake : free_sectors d2 = free_sectors d - 1)
    end.
    { apply (free_sectors_take d _ newsec); [lia|exact Hwas| |].
      - rewrite bitmap_bit_write by lia. exact Hnow.
      - intros b Hb Hne. rewrite bitmap_bit_write by lia. apply Hother; lia. }
    replace (n - pos - size1) with (n - (pos + size1)) by ring.
    match goal with
    | |- context [File_Write_loop fuel ?d2 _ _ _ _ _ _ _ _ _] =>
        destruct (IH d2 (set_inode_data inode_buffer p gidx newsec) (pos + size1))
          as [d' [ib' [Hrun [Hb Ht]]]]; try assumption; try lia
    end.
    + intros Hlt. rewrite (Hs3 Hlt). rewrite <- Halign at 1.
      rewrite Z.quot_div_nonneg by lia.
      replace (gidx * SECTOR_SIZE + SECTOR_SIZE) with ((gidx + 1) * SECTOR_SIZE) by ring.
      rewrite Z.div_mul by lia. lia.
    + rewrite Htake.
      destruct (Z_lt_le_dec (pos + size1) n) as [Hlt|Hge]; [rewrite (Hs3 Hlt) in *; lia|nia].
    + exists d', ib'. split; [exact Hrun|]. split; [exact Hb|].
      rewrite Ht. apply type_set_data. exact Hg.
Qed.

Lemma inode_sector_valid (ino : Z) :
  0 <= ino < MAX_FILES -> valid_sector (inode_sector_of ino) = true.
Proof.
  intros Hi. apply valid_sector_range.
  pose proof (inode_sector_layout ino Hi). pose proof (ok_metadata Hgeo).
  pose proof layout_nonneg.
  unfold INODE_TABLE_START_SECTOR, SECTOR_BITMAP_START_SECTOR,
    INODE_BITMAP_START_SECTOR in *. lia.
Qed.

(** [File_Write] on a fresh file, on a volume with as many free sectors
    as [n] bytes take: it returns [n], all [n] bytes are in the blocks
    of the file, and the session stands at [n] with cached size [n]. *)
Lemma File_Write_fresh (st : state) (fd : Z) (src : mem) (soff n : Z) :
  metadata_reserved (st_disk st) ->
  fresh_open_file st fd ->
  0 <= n <= MAX_SECTORS_PER_FILE * SECTOR_SIZE ->
  n <= free_sectors (st_disk st) * SECTOR_SIZE ->
  exists st1,
    File_Write st fd (Some (src, soff)) n = Done (st1, n)
    /\ file_holds (st_disk st1) (of_inode (open_files st fd)) n src soff
    /\ open_files st1 fd
       = {| of_inode := of_inode (open_files st fd); of_size := n; of_pos := n |}.
Proof.
  intros Hmeta [Hfd Hino Hsize Hpos Hisz Hity] Hn Hroom.
  set (ino := of_inode (open_files st fd)) in *.
  pose proof (ok_sector_size Hgeo) as Hss.
  pose proof (inode_sector_valid ino ltac:(lia)) as Hv.
  pose proof (inode_offset_range (ok_inodes_per_sector Hgeo) ino ltac:(lia)) as Hoff.
  cbv zeta in Hoff.
  unfold File_Write, open_file_at.
  destruct (Z.ltb_spec fd 0); [lia|].
  destruct (Z.ltb_spec MAX_OPEN_FILES fd); [lia|].
  destruct (Z.leb_spec 0 fd); [|lia].
  destruct (Z.ltb_spec fd MAX_OPEN_FILES); [|lia].
  cbn [orb andb bind]. fold ino.
  destruct (Z.leb_spec ino 0); [lia|].
  destruct (Z.ltb_spec n 0); [lia|].
  destruct (Z.eqb_spec n 0) as [->|Hn0].
  { exists st. split; [reflexivity|]. split.
    - split; [exact Hv|]. split; [exact Hisz|]. split; [exact Hity|].
      intros g Hg Hlt. nia.
    - destruct (open_files st fd) as [i sz ps]. simpl in *. subst. reflexivity. }
  unfold Disk_Read at 1. fold (inode_sector_of ino). rewrite Hv, Hoff.
  cbn [assert bind]. fold (inode_offset_of ino).
  fold (inode_size_of (st_disk st) ino). fold (inode_type_of (st_disk st) ino).
  rewrite Hisz, Hity, Hsize, Hpos. cbn [Z.eqb assert bind].
  destruct (File_Write_loop_fresh src soff (inode_offset_of ino) n (Z.to_nat n)
              ltac:(lia) (st_disk st) (st_disk st (inode_sector_of ino)) 0)
    as [d' [ib' [Hrun [Hb Ht]]]].
  - lia.
  - lia.
  - intros _. reflexivity.
  - exact Hmeta.
  - intros g Hg Hlt. nia.
  - lia.
  - rewrite Z.sub_0_r in Hrun. rewrite Hrun. cbn [bind].
    destruct (Z.ltb_spec 0 n); [|lia].
    unfold Disk_Write. rewrite Hv.
    eexists. split; [reflexivity|].
    pose proof (ok_file_size Hgeo).
    split.
    + unfold file_holds, inode_size_of, inode_type_of, inode_data_of. simpl.
      rewrite Z.eqb_refl.
      split; [exact Hv|].
      split; [apply size_set_size; unfold int_min; lia|].
      split; [rewrite type_set_size, Ht; exact Hity|].
      intros g Hg Hlt. rewrite data_set_size by exact Hg.
      destruct (Hb g Hg Hlt) as [Hvg [Hdg [_ Hc]]].
      split; [exact Hvg|]. intros x Hx Hxl.
      pose proof (inode_sector_layout ino ltac:(lia)).
      destruct (Z.eqb_spec (inode_data ib' (inode_offset_of ino) g) (inode_sector_of ino));
        [lia|]. apply Hc; assumption.
    + simpl. rewrite Z.eqb_refl. reflexivity.
Qed.

(** *** Reading it back *)

Lemma read_all_holds (d : disk) (ino n : Z) (src : mem) (soff : Z) (fd : Z)
  (fuel : nat) :
  file_holds d ino n src soff ->
  0 < ino -> 0 <= fd < MAX_OPEN_FILES ->
  forall (st : state) (bmem : mem) (got : Z),
    st_disk st = d ->
    open_files st fd = {| of_inode := ino; of_size := n; of_pos := got |} ->
    0 <= got <= n ->
    (Z.to_nat (n - got) <= fuel)%nat ->
    (forall x, 0 <= x < got -> bmem x = src (soff + x)) ->
    exists st' bmem',
      read_all fuel st fd bmem got n = Done (st', bmem', n)
      /\ forall x, 0 <= x < n -> bmem' x = src (soff + x).
Proof.
  intros [Hv [Hisz [Hity Hblocks]]] Hino Hfd.
  pose proof (ok_sector_size Hgeo) as Hss.
  pose proof (inode_offset_range (ok_inodes_per_sector Hgeo) ino ltac:(lia)) as Hoff.
  cbv zeta in Hoff.
  induction fuel as [|fuel IH]; intros st bmem got Hd Hses Hgot Hfuel Hbuf.
  - assert (got = n) by lia. subst got. exists st, bmem. simpl.
    destruct (Z.ltb_spec n n); [lia|]. auto.
  - cbn [read_all]. destruct (Z.ltb_spec got n) as [Hlt|Hge].
    2:{ assert (got = n) by lia. subst got. exists st, bmem. auto. }
    unfold File_Read, open_file_at.
    destruct (Z.ltb_spec fd 0); [lia|].
    destruct (Z.ltb_spec MAX_OPEN_FILES fd); [lia|].
    destruct (Z.leb_spec 0 fd); [|lia].
    destruct (Z.ltb_spec fd MAX_OPEN_FILES); [|lia].
    cbn [orb andb bind]. rewrite Hses. cbn [of_inode of_size of_pos].
    destruct (Z.leb_spec ino 0); [lia|].
    destruct (Z.ltb_spec (n - got) 0); [lia|].
    destruct (Z.eqb_spec got n); [lia|].
    destruct (Z.eqb_spec (n - got) 0); [lia|].
    cbn [orb]. rewrite Hd.
    unfold Disk_Read at 1. fold (inode_sector_of ino). rewrite Hv, Hoff.
    cbn [assert bind]. fold (inode_offset_of ino).
    fold (inode_size_of d ino). fold (inode_type_of d ino).
    rewrite Hisz, Hity, Z.eqb_refl. cbn [Z.eqb assert bind].
    fold (inode_data_of d ino (got ÷ SECTOR_SIZE)).
    set (gidx := got ÷ SECTOR_SIZE).
    assert (Hg : 0 <= gidx) by (apply quot_nonneg; lia).
    assert (Hblk : gidx * SECTOR_SIZE <= got < gidx * SECTOR_SIZE + SECTOR_SIZE).
    { unfold gidx. rewrite Z.quot_div_nonneg by lia.
      assert (Hs0 : SECTOR_SIZE <> 0) by lia.
      pose proof (Z.div_mod got SECTOR_SIZE Hs0).
      pose proof (Z.mod_pos_bound got SECTOR_SIZE Hss). lia. }
    destruct (Hblocks gidx Hg ltac:(lia)) as [Hvg Hc].
    unfold Disk_Read. rewrite Hvg.
    set (end_addr := if n <? gidx * SECTOR_SIZE + SECTOR_SIZE
                     then n else gidx * SECTOR_SIZE + SECTOR_SIZE).
    assert (He : got < end_addr <= n /\ end_addr <= gidx * SECTOR_SIZE + SECTOR_SIZE).
    { unfold end_addr. destruct (Z.ltb_spec n (gidx * SECTOR_SIZE + SECTOR_SIZE)); lia. }
    clearbody end_addr.
    set (size1 := if end_addr <? got + (n - got) then end_addr - got else n - got).
    assert (Hs1 : 0 < size1 /\ got + size1 <= end_addr).
    { unfold size1. destruct (Z.ltb_spec end_addr (got + (n - got))); lia. }
    clearbody size1.
    cbn [bind]. destruct (Z.leb_spec size1 0); [lia|].
    match goal with
    | |- context [read_all fuel ?st1 fd ?bmem1 _ n] =>
        destruct (IH st1 bmem1 (got + size1)) as [st' [bmem' [Hrun Hres]]]
    end.
    + simpl. exact Hd.
    + simpl. rewrite Z.eqb_refl. reflexivity.
    + lia.
    + lia.
    + intros x Hx. unfold memcpy.
      destruct (Z.leb_spec got x); [|apply Hbuf; lia].
      destruct (Z.ltb_spec x (got + size1)); [|lia].
      simpl. rewrite Hc by lia. f_equal. lia.
    + exists st', bmem'. split; [exact Hrun|exact Hres].
Qed.

(** C2 (as amended): on a volume whose sector bitmap reserves the
    metadata sectors and has at least as many free sectors as [n] bytes
    take ([n <= free_sectors * SECTOR_SIZE]), [File_Write] of [n]
    bytes, [0 <= n <= MAX_SECTORS_PER_FILE * SECTOR_SIZE], at offset 0
    of a freshly created open file returns [n] and leaves the session
    at position [n] with cached size [n]; any session on that file that
    then stands at offset 0 with cached size [n] (after [File_Seek] to
    0 or a new [File_Open]) gets the same [n] bytes back from repeated
    calls of [File_Read], within [n] calls. *)
Theorem write_read_round_trip (st : state) (fd : Z) (src : mem) (soff n : Z) :
  metadata_reserved (st_disk st) ->
  fresh_open_file st fd ->
  0 <= n <= MAX_SECTORS_PER_FILE * SECTOR_SIZE ->
  n <= free_sectors (st_disk st) * SECTOR_SIZE ->
  exists st1,
    File_Write st fd (Some (src, soff)) n = Done (st1, n)
    /\ open_files st1 fd
       = {| of_inode := of_inode (open_files st fd); of_size := n; of_pos := n |}
    /\ forall (st2 : state) (fd2 : Z) (dst : mem),
         st_disk st2 = st_disk st1 ->
         0 <= fd2 < MAX_OPEN_FILES ->
         open_files st2 fd2
         = {| of_inode := of_inode (open_files st fd); of_size := n; of_pos := 0 |} ->
         exists st3 dst',
           read_all (Z.to_nat n) st2 fd2 dst 0 n = Done (st3, dst', n)
           /\ forall x, 0 <= x < n -> dst' x = src (soff + x).
Proof.
  intros Hmeta Hfresh Hn Hroom.
  destruct (File_Write_fresh st fd src soff n Hmeta Hfresh Hn Hroom)
    as [st1 [Hw [Hholds Hses1]]].
  exists st1. split; [exact Hw|]. split; [exact Hses1|].
  intros st2 fd2 dst Hd Hfd2 Hses.
  apply (read_all_holds (st_disk st1) (of_inode (open_files st fd)) n src soff fd2
           (Z.to_nat n) Hholds) with (st := st2) (got := 0).
  - destruct Hfresh. lia.
  - exact Hfd2.
  - exact Hd.
  - exact Hses.
  - lia.
  - lia.
  - intros x Hx. lia.
Qed.

End RoundTrip.

Section RoundTripRuns.
#[local] Existing Instance sample_geometry.

Lemma sample_geometry_ok : geometry_ok.
Proof. constructor; vm_compute; congruence. Qed.

Lemma booted_metadata_reserved (m : exec (state * Z)) :
  forallb (fun s => bitmap_bit (st_disk (state_of m)) SECTOR_BITMAP_START_SECTOR s)
    (map Z.of_nat (seq 0 (Z.to_nat DATABLOCK_START_SECTOR))) = true ->
  metadata_reserved (st_disk (state_of m)).
Proof.
  intros H s Hs. apply (range_forallb _ _ H). lia.
Qed.

(** A source buffer whose byte at [x] is [x mod 256]. *)
Lemma write_read_round_trip_witness :
  let src : mem := fun x => byte.of_Z x in
  exists st1,
    File_Write (state_of opened_f) 0 (Some (src, 0)) 1000 = Done (st1, 1000)
    /\ open_files st1 0 = {| of_inode := 1; of_size := 1000; of_pos := 1000 |}
    /\ forall (st2 : state) (fd2 : Z) (dst : mem),
         st_disk st2 = st_disk st1 ->
         0 <= fd2 < MAX_OPEN_FILES ->
         open_files st2 fd2 = {| of_inode := 1; of_size := 1000; of_pos := 0 |} ->
         exists st3 dst',
           read_all (Z.to_nat 1000) st2 fd2 dst 0 1000 = Done (st3, dst', 1000)
           /\ forall x, 0 <= x < 1000 -> dst' x = src (0 + x).
Proof.
  intros src.
  apply (@write_read_round_trip sample_geometry sample_geometry_ok
           (state_of opened_f) 0 src 0 1000).
  - apply booted_metadata_reserved. vm_compute. reflexivity.
  - constructor; vm_compute; try reflexivity; split; congruence.
  - vm_compute. split; congruence.
  - assert (E : free_sectors (st_disk (state_of opened_f)) = 9744)
      by (vm_compute; reflexivity).
    rewrite E. vm_compute. congruence.
Defined.

(** C2 (the claim as stated fails): [FS_Boot] on a volume whose sector
    bitmap has no clear bit, then [File_Create("/f")] and
    [File_Open("/f")]: descriptor 0 is a session on a freshly created
    file.  [File_Write] of one byte returns -1 with [E_NO_SPACE], the
    session stays as it was, and reading from offset 0 yields no
    byte. *)
Lemma File_Write_full_volume :
  let st := state_of opened_f_full in
  observe opened_f_full snd = Some 0
  /\ metadata_reserved (st_disk st)
  /\ fresh_open_file st 0
  /\ 0 <= 1 <= MAX_SECTORS_PER_FILE * SECTOR_SIZE
  /\ free_sectors (st_disk st) = 0
  /\ exists st1,
       File_Write st 0 letters 1 = Done (st1, -1)
       /\ osErrno st1 = E_NO_SPACE
       /\ open_files st1 0 = open_files st 0
       /\ observe (read_all 1 st1 0 zero_mem 0 1) (fun '(_, _, got) => got) = Some 0.
Proof.
  intros st.
  split; [vm_compute; reflexivity|].
  split; [apply booted_metadata_reserved; vm_compute; reflexivity|].
  split; [constructor; vm_compute; try reflexivity; split; congruence|].
  split; [vm_compute; split; congruence|].
  split; [vm_compute; reflexivity|].
  exists (state_of (File_Write st 0 letters 1)).
  split; [apply state_of_run; vm_compute; reflexivity|].
  split; [vm_compute; reflexivity|].
  split; vm_compute; reflexivity.
Qed.

(** The same run on the code: write 1000 bytes, seek back to 0 on
    descriptor 0, read until 1000 bytes are there; two calls of
    [File_Read] deliver 512 and 488 bytes. *)
Example write_seek_read_run :
  let src : mem := fun x => byte.of_Z x in
  observe ('(s, _) <- File_Write (state_of opened_f) 0 (Some (src, 0)) 1000 ;;
           '(s, _) <- File_Seek s 0 0 ;;
           '(s1, b1, r1) <- File_Read s 0 (Some (zero_mem, 0)) 1000 ;;
           '(s2, dst, got) <- read_all 1000 s 0 zero_mem 0 1000 ;;
           Done (r1, got, of_pos (open_files s2 0),
                 forallb (fun x => Byte.eqb (dst x) (src x))
                   (map Z.of_nat (seq 0 1000)),
                 Byte.eqb (dst 1000) Byte.x00))
    (fun a => a)
  = Some (512, 1000, 1000, true, true).
Proof. vm_compute. reflexivity. Qed.

End RoundTripRuns.

(** * Further properties of the library *)

(** ** File names and paths *)

Section Names.
Context {G : geometry}.

(** X1: [illegal_filename] decides by the length alone: it returns 1 for
    a name of more than [MAX_NAME - 1] bytes and 0 for every other
    name, whatever its characters. *)
Theorem illegal_filename_length_only (name : cstring) :
  illegal_filename name
  = if MAX_NAME - 1 <? Z.of_nat (List.length name) then 1 else 0.
Proof.
  unfold illegal_filename.
  destruct (MAX_NAME - 1 <? Z.of_nat (List.length name)); [reflexivity|].
  apply illegal_filename_loop_0.
Qed.






(** X3: creating what exists already fails: when the path resolves to an
    inode, [File_Create] and [Dir_Create] return -1 with [E_CREATE] and
    change nothing else. *)
Theorem create_existing_fails (st : state) (type : Z) (p : option cstring)
  (parent child : Z) (name : cstring) :
  follow_path (st_disk st) p = Done (PathOk parent child name) ->
  0 <= child ->
  create_file_or_directory st type p = Done (set_errno st E_CREATE, -1).
Proof.
  intros Hp Hc. unfold create_file_or_directory. rewrite Hp. simpl.
  pose proof (follow_path_parent _ _ _ _ _ Hp Hc).
  destruct (Z.leb_spec 0 parent); [|lia].
  destruct (Z.leb_spec 0 child); [reflexivity|lia].
Qed.

End Names.

(** ** Descriptors *)

Section Descriptors.
Context {G : geometry}.

Lemma new_file_fd_loop_least (tab : Z -> open_file) (n : nat) (i : Z) :
  let fd := new_file_fd_loop n i tab in
  (fd = -1 /\ forall x, i <= x < i + Z.of_nat n -> 0 < of_inode (tab x))
  \/ (i <= fd < i + Z.of_nat n /\ of_inode (tab fd) <= 0
      /\ forall x, i <= x < fd -> 0 < of_inode (tab x)).
Proof.
  revert i. induction n as [|n IH]; intros i; simpl.
  - left. split; [reflexivity|]. intros; lia.
  - destruct (Z.leb_spec (of_inode (tab i)) 0) as [Hle|Hgt].
    + right. split; [lia|]. split; [exact Hle|]. intros; lia.
    + destruct (IH (i + 1)) as [[E Hall]|[Hr [Hf Hall]]].
      * left. split; [exact E|]. intros x Hx.
        destruct (Z.eq_dec x i) as [->|]; [exact Hgt|apply Hall; lia].
      * right. split; [lia|]. split; [exact Hf|]. intros x Hx.
        destruct (Z.eq_dec x i) as [->|]; [exact Hgt|apply Hall; lia].
Qed.

Lemma new_file_fd_least (st : state) :
  (new_file_fd st = -1
   /\ forall x, 0 <= x < MAX_OPEN_FILES -> 0 < of_inode (open_files st x))
  \/ (0 <= new_file_fd st < MAX_OPEN_FILES
      /\ of_inode (open_files st (new_file_fd st)) <= 0
      /\ forall x, 0 <= x < new_file_fd st -> 0 < of_inode (open_files st x)).
Proof.
  unfold new_file_fd.
  destruct (new_file_fd_loop_least (open_files st) (Z.to_nat MAX_OPEN_FILES) 0)
    as [[E Hall]|[Hr [Hf Hall]]].
  - left. split; [exact E|]. intros x Hx. apply Hall. unfold MAX_OPEN_FILES in *. lia.
  - right. split; [unfold MAX_OPEN_FILES in *; lia|]. split; [exact Hf|exact Hall].
Qed.

(** What a successful [File_Open] has done on a path that resolves. *)
Lemma File_Open_inv (st : state) (file : option cstring)
  (parent child : Z) (name : cstring) (st' : state) (fd : Z) :
  follow_path (st_disk st) file = Done (PathOk parent child name) ->
  File_Open st file = Done (st', fd) -> 0 <= fd ->
  0 <= child
  /\ inode_type_of (st_disk st) child = 0
  /\ fd = new_file_fd st
  /\ st' = set_open_file st fd
             {| of_inode := child;
                of_size := inode_size_of (st_disk st) child;
                of_pos := 0 |}.
Proof.
  intros Hp H Hfd. unfold File_Open in H. rewrite Hp in H.
  destruct (Z.ltb_spec (new_file_fd st) 0).
  { injection H as _ <-. lia. }
  cbn [bind] in H.
  destruct (Z.leb_spec 0 child) as [Hc|]; [|injection H as _ <-; lia].
  unfold Disk_Read in H. destruct (valid_sector _); [|injection H as _ <-; lia].
  destruct (assert _); [|discriminate]. cbn [bind] in H.
  fold (inode_sector_of child) in H. fold (inode_offset_of child) in H.
  fold (inode_type_of (st_disk st) child) in H.
  fold (inode_size_of (st_disk st) child) in H.
  destruct (Z.eqb_spec (inode_type_of (st_disk st) child) 0) as [Hty|];
    cbn [negb] in H; [|injection H as _ <-; lia].
  injection H as <- <-. auto.
Qed.

(** X4: on a path that [follow_path] resolves, a successful [File_Open]
    has found a regular file and returns the lowest descriptor whose
    slot is free; the slot then holds the file's inode number, the size
    read from the inode and position 0, and nothing else changes (other
    slots, disk, [osErrno]). *)
Theorem File_Open_lowest_free (st : state) (file : option cstring)
  (parent child : Z) (name : cstring) (st' : state) (fd : Z) :
  follow_path (st_disk st) file = Done (PathOk parent child name) ->
  File_Open st file = Done (st', fd) -> 0 <= fd ->
  0 <= child
  /\ inode_type_of (st_disk st) child = 0
  /\ 0 <= fd < MAX_OPEN_FILES
  /\ of_inode (open_files st fd) <= 0
  /\ (forall x, 0 <= x < fd -> 0 < of_inode (open_files st x))
  /\ open_files st' fd
     = {| of_inode := child;
          of_size := inode_size_of (st_disk st) child;
          of_pos := 0 |}
  /\ (forall x, x <> fd -> open_files st' x = open_files st x)
  /\ st_disk st' = st_disk st
  /\ osErrno st' = osErrno st.
Proof.
  intros Hp H Hfd.
  destruct (File_Open_inv st file parent child name st' fd Hp H Hfd)
    as [Hc [Hty [Efd ->]]].
  destruct (new_file_fd_least st) as [[E _]|[Hr [Hf Hall]]]; [lia|].
  rewrite <- Efd in Hr, Hf, Hall.
  repeat (split; [assumption|]). simpl. rewrite Z.eqb_refl.
  split; [reflexivity|]. split; [|split; reflexivity].
  intros x Hx. destruct (Z.eqb_spec x fd); [contradiction|reflexivity].
Qed.

(** X5: on a path that [follow_path] resolves, opening it twice gives
    two different descriptors on the same inode, the one the path
    resolves to, and the second [File_Open] leaves the first session as
    it was. *)
Theorem File_Open_twice (st : state) (file : option cstring)
  (parent child : Z) (name : cstring) (st1 st2 : state) (fd1 fd2 : Z) :
  follow_path (st_disk st) file = Done (PathOk parent child name) ->
  File_Open st file = Done (st1, fd1) -> 0 <= fd1 ->
  0 < of_inode (open_files st1 fd1) ->
  File_Open st1 file = Done (st2, fd2) -> 0 <= fd2 ->
  fd2 <> fd1
  /\ of_inode (open_files st2 fd1) = child
  /\ of_inode (open_files st2 fd2) = child
  /\ open_files st2 fd1 = open_files st1 fd1.
Proof.
  intros Hp H1 Hfd1 Hocc H2 Hfd2.
  destruct (File_Open_inv st file parent child name st1 fd1 Hp H1 Hfd1)
    as [Hc1 [Hty1 [Efd1 E1]]].
  assert (Hd : st_disk st1 = st_disk st) by (rewrite E1; reflexivity).
  assert (Hp1 : follow_path (st_disk st1) file = Done (PathOk parent child name))
    by (rewrite Hd; exact Hp).
  destruct (File_Open_inv st1 file parent child name st2 fd2 Hp1 H2 Hfd2)
    as [Hc2 [Hty2 [Efd2 E2]]].
  assert (Hne : fd2 <> fd1).
  { intros E. destruct (new_file_fd_least st1) as [[E' _]|[_ [Hf _]]]; [lia|].
    rewrite <- Efd2, E in Hf. lia. }
  split; [exact Hne|].
  rewrite E2. simpl. rewrite Z.eqb_refl.
  destruct (Z.eqb_spec fd1 fd2) as [E|_]; [congruence|].
  split; [|split; reflexivity].
  rewrite E1. simpl. rewrite Z.eqb_refl. reflexivity.
Qed.

(** X6: a descriptor that is negative, or in range with a free slot, is
    refused by [File_Read], [File_Write] and [File_Close] with
    [E_BAD_FD]; the buffer, the disk and the table are not touched. *)
Theorem bad_descriptor_refused (st : state) (fd : Z) (buffer : pointer) (size : Z) :
  fd < 0 \/ (fd < MAX_OPEN_FILES /\ of_inode (open_files st fd) <= 0) ->
  File_Read st fd buffer size = Done (set_errno st E_BAD_FD, buffer, -1)
  /\ File_Write st fd buffer size = Done (set_errno st E_BAD_FD, -1)
  /\ File_Close st fd = Done (set_errno st E_BAD_FD, -1).
Proof.
  intros H. unfold File_Read, File_Write, File_Close, open_file_at.
  destruct (Z.ltb_spec fd 0) as [Hneg|Hpos]; [auto|].
  destruct H as [H|[Hlt Hfree]]; [lia|].
  destruct (Z.ltb_spec MAX_OPEN_FILES fd); [lia|].
  destruct (Z.leb_spec 0 fd); [|lia].
  destruct (Z.ltb_spec fd MAX_OPEN_FILES); [|lia].
  cbn [orb andb bind].
  destruct (Z.leb_spec (of_inode (open_files st fd)) 0); [auto|lia].
Qed.

(** X7: for a descriptor other than [MAX_OPEN_FILES] (the one index
    past the table that the test [fd > MAX_OPEN_FILES] lets through), a
    successful [File_Close] was given a descriptor of the table whose
    slot was occupied; it frees that slot and touches nothing else; the
    descriptor is then refused by a second [File_Close], and it is the
    lowest free one as soon as no lower slot is free. *)
Theorem File_Close_frees_slot (st : state) (fd : Z) (st' : state) :
  fd <> MAX_OPEN_FILES ->
  File_Close st fd = Done (st', 0) ->
  0 <= fd < MAX_OPEN_FILES
  /\ 0 < of_inode (open_files st fd)
  /\ of_inode (open_files st' fd) = 0
  /\ (forall x, x <> fd -> open_files st' x = open_files st x)
  /\ st_disk st' = st_disk st
  /\ File_Close st' fd = Done (set_errno st' E_BAD_FD, -1)
  /\ 0 <= new_file_fd st' <= fd.
Proof.
  intros Hne H. unfold File_Close, open_file_at in H.
  destruct (Z.ltb_spec fd 0); [discriminate|].
  destruct (Z.ltb_spec MAX_OPEN_FILES fd); [discriminate|].
  destruct (Z.leb_spec 0 fd); [|lia].
  destruct (Z.ltb_spec fd MAX_OPEN_FILES) as [Hlt|]; [|lia].
  cbn [orb andb bind] in H.
  destruct (Z.leb_spec (of_inode (open_files st fd)) 0) as [|Hocc]; [discriminate|].
  injection H as <-.
  assert (Hfree : of_inode (open_files
            (set_open_file st fd
               {| of_inode := 0; of_size := of_size (open_files st fd);
                  of_pos := of_pos (open_files st fd) |}) fd) = 0).
  { simpl. rewrite Z.eqb_refl. reflexivity. }
  split; [lia|]. split; [exact Hocc|]. split; [exact Hfree|].
  split.
  { intros x Hx. simpl. destruct (Z.eqb_spec x fd); [contradiction|reflexivity]. }
  split; [reflexivity|]. split.
  - unfold File_Close, open_file_at.
    destruct (Z.ltb_spec fd 0); [lia|].
    destruct (Z.ltb_spec MAX_OPEN_FILES fd); [lia|].
    destruct (Z.leb_spec 0 fd); [|lia].
    destruct (Z.ltb_spec fd MAX_OPEN_FILES); [|lia].
    cbn [orb andb bind]. rewrite Hfree. reflexivity.
  - match goal with |- 0 <= new_file_fd ?s <= fd =>
      destruct (new_file_fd_least s) as [[_ Hall]|[Hr [_ Hall]]] end.
    + specialize (Hall fd ltac:(lia)). rewrite Hfree in Hall. lia.
    + split; [lia|].
      destruct (Z_le_gt_dec (new_file_fd (set_open_file st fd
               {| of_inode := 0; of_size := of_size (open_files st fd);
                  of_pos := of_pos (open_files st fd) |})) fd) as [|Hgt]; [assumption|].
      specialize (Hall fd ltac:(lia)). rewrite Hfree in Hall. lia.
Qed.

(** X8: [File_Seek] by descriptor.  On descriptor 0 it moves the cursor
    to any offset in [0, cached size] and returns it, and rejects every
    other offset with [E_SEEK_OUT_OF_BOUNDS], whether or not slot 0 is
    occupied; on every descriptor from 1 to [MAX_OPEN_FILES - 1] it
    fails with [E_GENERAL].  The disk is never changed. *)
Theorem File_Seek_by_descriptor (st : state) (fd offset : Z) :
  0 <= fd < MAX_OPEN_FILES ->
  File_Seek st fd offset
  = if 0 <? fd then Done (set_errno st E_GENERAL, -1)
    else if (of_size (open_files st fd) <? offset) || (offset <? 0)
    then Done (set_errno st E_SEEK_OUT_OF_BOUNDS, -1)
    else Done (set_open_file st fd (with_pos (open_files st fd) offset), offset).
Proof.
  intros H. unfold File_Seek, open_file_at.
  destruct (Z.leb_spec 0 fd); [|lia].
  destruct (Z.ltb_spec fd MAX_OPEN_FILES); [|lia].
  cbn [andb bind]. rewrite is_file_open_hit by lia. cbn [Z.leb Z.compare].
  destruct (Z.ltb_spec 0 fd); [reflexivity|].
  destruct (Z.ltb_spec MAX_OPEN_FILES fd); [lia|]. reflexivity.
Qed.

End Descriptors.

(** ** Reading and writing through a session *)

Section SessionIO.
Context {G : geometry}.
Hypothesis sector_size_pos : 0 < SECTOR_SIZE.

(** X9: what one successful [File_Read] does, for a session whose cursor
    is within its size.  It returns [r] with [0 <= r <= size]; [r] is 0
    exactly at end of file or on a request of 0 bytes; the [r] bytes are
    those of the block that holds the cursor, from the cursor on, and
    never go past the end of that block or of the file; the cursor
    advances by [r]; the rest of the buffer, the disk and the other
    sessions stay as they were. *)
Theorem File_Read_one_block (st : state) (fd : Z) (bmem : mem) (boff size : Z)
  (st' : state) (buffer' : pointer) (r : Z) :
  let f := open_files st fd in
  let start := of_pos f ÷ SECTOR_SIZE * SECTOR_SIZE in
  File_Read st fd (Some (bmem, boff)) size = Done (st', buffer', r) ->
  0 <= r ->
  0 <= of_pos f <= of_size f ->
  r <= size
  /\ (r = 0 <-> size = 0 \/ of_pos f = of_size f)
  /\ of_pos f + r <= of_size f
  /\ of_pos f + r <= start + SECTOR_SIZE
  /\ (exists bmem',
        buffer' = Some (bmem', boff)
        /\ forall x,
             bmem' x
             = if (boff <=? x) && (x <? boff + r)
               then st_disk st
                      (inode_data_of (st_disk st) (of_inode f)
                         (of_pos f ÷ SECTOR_SIZE))
                      (of_pos f - start + (x - boff))
               else bmem x)
  /\ open_files st' fd = with_pos f (of_pos f + r)
  /\ (forall x, x <> fd -> open_files st' x = open_files st x)
  /\ st_disk st' = st_disk st.
Proof.
  intros f start H Hr Hpos. subst f start.
  unfold File_Read, open_file_at in H.
  destruct ((fd <? 0) || (MAX_OPEN_FILES <? fd)); [injection H as _ _ <-; lia|].
  destruct ((0 <=? fd) && (fd <? MAX_OPEN_FILES)); [|discriminate].
  cbn [bind] in H.
  destruct (Z.leb_spec (of_inode (open_files st fd)) 0); [injection H as _ _ <-; lia|].
  destruct (Z.ltb_spec size 0); [injection H as _ _ <-; lia|].
  pose proof (block_bounds sector_size_pos (of_pos (open_files st fd)) ltac:(lia)) as Hb.
  destruct ((of_pos (open_files st fd) =? of_size (open_files st fd)) || (size =? 0)) eqn:Heof.
  { injection H as <- <- <-.
    apply orb_true_iff in Heof. rewrite !Z.eqb_eq in Heof.
    split; [lia|]. split; [split; [intros _; tauto|reflexivity]|].
    split; [lia|]. split; [lia|]. split.
    - exists bmem. split; [reflexivity|]. intros x.
      destruct (Z.leb_spec boff x); [|reflexivity].
      destruct (Z.ltb_spec x (boff + 0)); [lia|reflexivity].
    - split; [|auto]. unfold with_pos. rewrite Z.add_0_r.
      destruct (open_files st fd); reflexivity. }
  apply orb_false_iff in Heof. destruct Heof as [Hne Hsz].
  apply Z.eqb_neq in Hne. apply Z.eqb_neq in Hsz.
  unfold Disk_Read in H at 1.
  destruct (valid_sector _); [|injection H as _ _ <-; lia].
  destruct (assert (_ && _)); [|discriminate]. cbn [bind] in H.
  fold (inode_sector_of (of_inode (open_files st fd))) in H.
  fold (inode_offset_of (of_inode (open_files st fd))) in H.
  fold (inode_size_of (st_disk st) (of_inode (open_files st fd))) in H.
  fold (inode_type_of (st_disk st) (of_inode (open_files st fd))) in H.
  destruct (Z.eqb_spec (inode_size_of (st_disk st) (of_inode (open_files st fd)))
              (of_size (open_files st fd))) as [Esz|]; [|discriminate].
  cbn [assert bind] in H.
  destruct (assert _); [|discriminate]. cbn [bind] in H.
  fold (inode_data_of (st_disk st) (of_inode (open_files st fd))
          (of_pos (open_files st fd) ÷ SECTOR_SIZE)) in H.
  unfold Disk_Read in H.
  destruct (valid_sector _); [|injection H as _ _ <-; lia].
  rewrite Esz in H.
  set (e := if of_size (open_files st fd) <? _ then _ else _) in H.
  assert (He : of_pos (open_files st fd) < e <= of_size (open_files st fd)
               /\ e <= of_pos (open_files st fd) ÷ SECTOR_SIZE * SECTOR_SIZE + SECTOR_SIZE).
  { unfold e. destruct (Z.ltb_spec (of_size (open_files st fd))
      (of_pos (open_files st fd) ÷ SECTOR_SIZE * SECTOR_SIZE + SECTOR_SIZE)); lia. }
  clearbody e.
  set (size1 := if e <? of_pos (open_files st fd) + size
                then e - of_pos (open_files st fd) else size) in H.
  assert (Hs1 : 0 < size1 <= size /\ of_pos (open_files st fd) + size1 <= e).
  { unfold size1. destruct (Z.ltb_spec e (of_pos (open_files st fd) + size)); lia. }
  clearbody size1.
  injection H as <- <- <-.
  split; [lia|]. split; [split; [lia|intros [?|?]; lia]|].
  split; [lia|]. split; [lia|]. split.
  - eexists. split; [reflexivity|]. intros x. unfold memcpy. reflexivity.
  - simpl. rewrite Z.eqb_refl. split; [reflexivity|]. split; [|reflexivity].
    intros x Hx. destruct (Z.eqb_spec x fd); [contradiction|reflexivity].
Qed.



End SessionIO.

(** ** What the calls never touch *)

Section Untouched.
Context {G : geometry}.

Lemma File_Open_disk (st : state) (p : option cstring) (st' : state) (r : Z) :
  File_Open st p = Done (st', r) -> st_disk st' = st_disk st.
Proof.
  intros H. unfold File_Open in H.
  exec_cases H; injection H as <- _; reflexivity.
Qed.

Lemma File_Read_disk (st : state) (fd : Z) (buffer : pointer) (size : Z)
  (st' : state) (buffer' : pointer) (r : Z) :
  File_Read st fd buffer size = Done (st', buffer', r) -> st_disk st' = st_disk st.
Proof.
  intros H. unfold File_Read in H.
  exec_cases H; injection H as <- _ _; reflexivity.
Qed.

Lemma File_Seek_disk (st : state) (fd offset : Z) (st' : state) (r : Z) :
  File_Seek st fd offset = Done (st', r) -> st_disk st' = st_disk st.
Proof.
  intros H. unfold File_Seek in H.
  exec_cases H; injection H as <- _; reflexivity.
Qed.

Lemma File_Close_disk (st : state) (fd : Z) (st' : state) (r : Z) :
  File_Close st fd = Done (st', r) -> st_disk st' = st_disk st.
Proof.
  intros H. unfold File_Close in H.
  exec_cases H; injection H as <- _; reflexivity.
Qed.

Lemma Dir_Size_disk (st : state) (p : option cstring) (st' : state) (r : Z) :
  Dir_Size st p = Done (st', r) -> st_disk st' = st_disk st.
Proof.
  intros H. unfold Dir_Size in H.
  exec_cases H; injection H as <- _; reflexivity.
Qed.

Lemma Dir_Read_disk (st : state) (p : option cstring) (buffer : mem) (size : Z)
  (st' : state) (buffer' : mem) (r : Z) :
  Dir_Read st p buffer size = Done (st', buffer', r) -> st_disk st' = st_disk st.
Proof.
  intros H. unfold Dir_Read in H.
  exec_cases H; injection H as <- _ _; reflexivity.
Qed.

(** X11: [File_Open], [File_Read], [File_Seek], [File_Close], [Dir_Size]
    and [Dir_Read] never write to the disk, whatever they return. *)
Theorem reading_calls_keep_disk (st : state) (c : api_call) (st' : state) (r : Z) :
  reads_volume_only c = true ->
  run_call st c = Done (st', r) ->
  st_disk st' = st_disk st.
Proof.
  intros Hc H. destruct c; try discriminate; simpl in H.
  - eapply File_Open_disk; eauto.
  - apply bind_Done in H. destruct H as [[[st1 b1] r1] [H E]].
    injection E as <- _. eapply File_Read_disk; eauto.
  - eapply File_Seek_disk; eauto.
  - eapply File_Close_disk; eauto.
  - eapply Dir_Size_disk; eauto.
  - apply bind_Done in H. destruct H as [[[st1 b1] r1] [H E]].
    injection E as <- _. eapply Dir_Read_disk; eauto.
Qed.

(** X12: [File_Create], [File_Unlink], [Dir_Create], [Dir_Unlink],
    [Dir_Size] and [Dir_Read] never change the open-file table,
    whatever they return. *)
Theorem path_calls_keep_table (st : state) (c : api_call) (st' : state) (r : Z) :
  works_on_path_only c = true ->
  run_call st c = Done (st', r) ->
  open_files st' = open_files st.
Proof.
  intros Hc H. destruct c; try discriminate; simpl in H.
  - eapply create_file_or_directory_table; eauto.
  - eapply File_Unlink_table; eauto.
  - eapply create_file_or_directory_table; eauto.
  - eapply Dir_Unlink_table; eauto.
  - eapply Dir_Size_table; eauto.
  - apply bind_Done in H. destruct H as [[[st1 b1] r1] [H E]].
    injection E as <- _. eapply Dir_Read_table; eauto.
Qed.

End Untouched.

(** ** Removing what cannot be removed *)

Section Refusals.
Context {G : geometry}.
Hypothesis inodes_pos : 0 < INODES_PER_SECTOR.

Lemma remove_inode_refuses (d : disk) (type parent child : Z) :
  0 <= child -> valid_sector (inode_sector_of child) = true ->
  (inode_type_of d child <> type -> remove_inode d type parent child = Done (d, -3))
  /\ (inode_type_of d child = type -> type = 1 -> 0 < inode_size_of d child ->
      remove_inode d type parent child = Done (d, -2)).
Proof.
  intros Hc Hv.
  pose proof (inode_offset_range inodes_pos child Hc) as Hoff. cbv zeta in Hoff.
  unfold remove_inode, Disk_Read.
  fold (inode_sector_of child). rewrite Hv, Hoff. cbn [assert bind].
  fold (inode_offset_of child).
  fold (inode_type_of d child). fold (inode_size_of d child).
  split.
  - intros Hne. destruct (Z.eqb_spec (inode_type_of d child) type); [contradiction|].
    reflexivity.
  - intros E -> Hsz. rewrite E. cbn [Z.eqb Pos.eqb negb andb].
    destruct (Z.ltb_spec 0 (inode_size_of d child)); [reflexivity|lia].
Qed.

Lemma set_disk_same (st : state) : set_disk st (st_disk st) = st.
Proof. destruct st; reflexivity. Qed.

(** X13: [Dir_Unlink] on a directory that still has entries returns -2
    and leaves the state exactly as it was ([osErrno] included). *)
Theorem Dir_Unlink_not_empty (st : state) (p : cstring)
  (parent child : Z) (name : cstring) :
  cstring_eqb p [Byte.x2f] = false ->
  follow_path (st_disk st) (Some p) = Done (PathOk parent child name) ->
  0 <= child ->
  inode_type_of (st_disk st) child = 1 ->
  0 < inode_size_of (st_disk st) child ->
  Dir_Unlink st (Some p) = Done (st, -2).
Proof.
  intros Hroot Hp Hc Hty Hsz. unfold Dir_Unlink. rewrite Hroot, Hp. cbn [bind].
  pose proof (follow_path_parent _ _ _ _ _ Hp Hc).
  pose proof (follow_path_sector _ _ _ _ _ Hp Hc) as Hv.
  destruct (Z.ltb_spec parent 0); [lia|]. destruct (Z.ltb_spec child 0); [lia|].
  destruct (remove_inode_refuses (st_disk st) 1 parent child Hc Hv) as [_ Hr].
  rewrite Hr by auto. cbn [bind]. rewrite set_disk_same. reflexivity.
Qed.

(** X14: unlinking with the wrong call changes nothing on the disk:
    [Dir_Unlink] on a regular file returns -3, and [File_Unlink] on a
    directory that no slot of the open-file table refers to returns -1
    with [E_GENERAL]. *)
Theorem unlink_wrong_type (st : state) (p : cstring)
  (parent child : Z) (name : cstring) :
  follow_path (st_disk st) (Some p) = Done (PathOk parent child name) ->
  0 <= child ->
  (cstring_eqb p [Byte.x2f] = false ->
   inode_type_of (st_disk st) child <> 1 ->
   Dir_Unlink st (Some p) = Done (st, -3))
  /\ (inode_type_of (st_disk st) child <> 0 ->
      is_file_open st child = 0 ->
      File_Unlink st (Some p) = Done (set_errno st E_GENERAL, -1)).
Proof.
  intros Hp Hc.
  pose proof (follow_path_parent _ _ _ _ _ Hp Hc).
  pose proof (follow_path_sector _ _ _ _ _ Hp Hc) as Hv.
  split.
  - intros Hroot Hty. unfold Dir_Unlink. rewrite Hroot, Hp. cbn [bind].
    destruct (Z.ltb_spec parent 0); [lia|]. destruct (Z.ltb_spec child 0); [lia|].
    destruct (remove_inode_refuses (st_disk st) 1 parent child Hc Hv) as [Hr _].
    rewrite Hr by auto. cbn [bind]. rewrite set_disk_same. reflexivity.
  - intros Hty Hopen. unfold File_Unlink. rewrite Hp. cbn [bind].
    destruct (Z.leb_spec 0 parent); [|lia]. destruct (Z.leb_spec 0 child); [|lia].
    rewrite Hopen. cbn [Z.eqb negb].
    destruct (remove_inode_refuses (st_disk st) 0 parent child Hc Hv) as [Hr _].
    rewrite Hr by auto. cbn [bind]. rewrite set_disk_same. reflexivity.
Qed.

(** X15: [Dir_Size] on a path that resolves: -1 with [E_NO_SUCH_DIR]
    when the last component was not found, -1 with [E_GENERAL] when it
    is not a directory, and otherwise the number of entries times
    [sizeof(dirent_t)], with the state unchanged.  The product is
    taken to be a value of an [int], as the function returns one. *)
Theorem Dir_Size_contract (st : state) (p : cstring)
  (parent child : Z) (name : cstring) :
  follow_path (st_disk st) (Some p) = Done (PathOk parent child name) ->
  int_min <= inode_size_of (st_disk st) child * sizeof_dirent <= int_max ->
  Dir_Size st (Some p)
  = if child <? 0 then Done (set_errno st E_NO_SUCH_DIR, -1)
    else if inode_type_of (st_disk st) child =? 1
    then Done (st, inode_size_of (st_disk st) child * sizeof_dirent)
    else Done (set_errno st E_GENERAL, -1).
Proof.
  intros Hp _. unfold Dir_Size. rewrite Hp. cbn [bind].
  destruct (Z.ltb_spec child 0) as [|Hc]; [reflexivity|].
  pose proof (follow_path_sector _ _ _ _ _ Hp Hc) as Hv.
  pose proof (inode_offset_range inodes_pos child Hc) as Hoff. cbv zeta in Hoff.
  unfold Disk_Read. fold (inode_sector_of child). rewrite Hv, Hoff.
  cbn [assert bind]. fold (inode_offset_of child).
  fold (inode_type_of (st_disk st) child). fold (inode_size_of (st_disk st) child).
  destruct (inode_type_of (st_disk st) child =? 1); reflexivity.
Qed.

End Refusals.

(** ** The bitmaps *)

Lemma reset_bit_byte (b k k' : Z) :
  0 <= b < 256 -> 0 <= k < 8 -> 0 <= k' < 8 ->
  0 <= Z.land b (tbl BYTE0 k) < 256
  /\ Z.land (Z.land b (tbl BYTE0 k)) (tbl BYTE1 k')
     = if k' =? k then 0 else Z.land b (tbl BYTE1 k').
Proof.
  intros Hb Hk Hk'.
  pose (f := fun b => forallb (fun k => forallb (fun k' =>
             (0 <=? Z.land b (tbl BYTE0 k)) && (Z.land b (tbl BYTE0 k) <? 256)
             && (Z.land (Z.land b (tbl BYTE0 k)) (tbl BYTE1 k')
                 =? if k' =? k then 0 else Z.land b (tbl BYTE1 k')))
             (map Z.of_nat (seq 0 8))) (map Z.of_nat (seq 0 8))).
  assert (H : f b = true).
  { apply (range_forallb f 256); [vm_compute; reflexivity|lia]. }
  unfold f in H; clear f. apply (range_forallb _ 8) with (z := k) in H; [|lia].
  apply (range_forallb _ 8) with (z := k') in H; [|lia].
  apply andb_prop in H. destruct H as [H H3]. apply andb_prop in H. destruct H as [H1 H2].
  apply Z.leb_le in H1. apply Z.ltb_lt in H2. apply Z.eqb_eq in H3. auto.
Qed.

Lemma init_byte_bit (c k : Z) :
  0 <= c <= 8 -> 0 <= k < 8 ->
  negb (Z.land (byte.unsigned (byte.of_Z (tbl BYTE10 c))) (tbl BYTE1 k) =? 0)
  = (k <? c).
Proof.
  intros Hc Hk. rewrite byte.unsigned_of_Z. unfold byte.wrap.
  pose (f := fun c => forallb (fun k =>
             Bool.eqb (negb (Z.land (tbl BYTE10 c mod 2 ^ 8) (tbl BYTE1 k) =? 0)) (k <? c))
             (map Z.of_nat (seq 0 8))).
  assert (H : f c = true).
  { apply (range_forallb f 9); [vm_compute; reflexivity|lia]. }
  unfold f in H; clear f. apply (range_forallb _ 8) with (z := k) in H; [|lia].
  apply Bool.eqb_prop in H. exact H.
Qed.

Section BitmapLaws.
Context {G : geometry}.
Hypothesis sector_size_pos : 0 < SECTOR_SIZE.

(** X16: allocation is first fit: when [bitmap_first_unused] returns
    an index, every bit below that index was already set. *)
Theorem bitmap_first_unused_lowest (d : disk) (start num nbits : Z)
  (d' : disk) (r : Z) :
  bitmap_first_unused d start num nbits = (d', r) ->
  forall b, 0 <= b < r -> bitmap_bit d start b = true.
Proof.
  intros H b Hb. unfold bitmap_first_unused in H.
  destruct (bit_index_join sector_size_pos b) as [Hi [Hj [Hk E]]]; [lia|].
  rewrite E. rewrite bitmap_bit_at by assumption.
  apply negb_true_iff. apply Z.eqb_neq.
  apply (bitmap_first_unused_loop_least sector_size_pos _ _ _ _ _ _ _ H);
    try assumption; try lia.
Qed.

Lemma bitmap_reset_spec (d : disk) (start num ibit : Z) :
  0 <= ibit ->
  (num <= (ibit ÷ 8) ÷ SECTOR_SIZE -> bitmap_reset d start num ibit = Stuck)
  /\ ((ibit ÷ 8) ÷ SECTOR_SIZE < num ->
      valid_sector (start + (ibit ÷ 8) ÷ SECTOR_SIZE) = true ->
      exists d',
        bitmap_reset d start num ibit = Done (d', 0)
        /\ bitmap_bit d' start ibit = false
        /\ (forall b, 0 <= b -> b <> ibit -> bitmap_bit d' start b = bitmap_bit d start b)
        /\ (forall s, s <> start + (ibit ÷ 8) ÷ SECTOR_SIZE -> d' s = d s)).
Proof.
  intros Hb.
  destruct (bit_index_join sector_size_pos ibit Hb) as [Hi [Hj [Hk E]]].
  set (i := (ibit ÷ 8) ÷ SECTOR_SIZE) in *.
  set (j := Z.rem (ibit ÷ 8) SECTOR_SIZE) in *.
  set (k := Z.rem ibit 8) in *.
  split.
  - intros Hnum. unfold bitmap_reset. fold i.
    destruct (Z.ltb_spec i num); [lia|]. rewrite andb_false_r. reflexivity.
  - intros Hnum Hv. unfold bitmap_reset. fold i j k.
    destruct (Z.leb_spec 0 i); [|lia]. destruct (Z.ltb_spec i num); [|lia].
    cbn [andb assert bind]. unfold Disk_Read, Disk_Write. rewrite Hv.
    eexists. split; [reflexivity|].
    pose proof (byte.unsigned_range (d (start + i) j)) as Hr.
    change (2 ^ 8) with 256 in Hr.
    assert (Hbyte : forall k', 0 <= k' < 8 ->
      Z.land (byte.unsigned (byte.of_Z (Z.land (byte.unsigned (d (start + i) j))
                                          (tbl BYTE0 k)))) (tbl BYTE1 k')
      = if k' =? k then 0 else Z.land (byte.unsigned (d (start + i) j)) (tbl BYTE1 k')).
    { intros k' Hk'.
      destruct (reset_bit_byte _ k k' Hr Hk Hk') as [Hrange Hland].
      rewrite byte.unsigned_of_Z. unfold byte.wrap. change (2 ^ 8) with 256.
      rewrite Z.mod_small by exact Hrange. exact Hland. }
    split; [|split].
    + rewrite E. rewrite bitmap_bit_at by assumption.
      rewrite Z.eqb_refl. unfold mem_set. rewrite Z.eqb_refl.
      rewrite Hbyte by exact Hk. rewrite Z.eqb_refl. reflexivity.
    + intros b Hb0 Hne.
      destruct (bit_index_join sector_size_pos b Hb0) as [Hi2 [Hj2 [Hk2 E2]]].
      set (i2 := (b ÷ 8) ÷ SECTOR_SIZE) in *.
      set (j2 := Z.rem (b ÷ 8) SECTOR_SIZE) in *.
      set (k2 := Z.rem b 8) in *.
      rewrite E2. rewrite !bitmap_bit_at by assumption.
      destruct (Z.eqb_spec (start + i2) (start + i)) as [Ei|Ni]; [|reflexivity].
      assert (i2 = i) by lia.
      unfold mem_set. destruct (Z.eqb_spec j2 j) as [Ej|Nj]; [|replace i2 with i; reflexivity].
      rewrite Hbyte by exact Hk2.
      destruct (Z.eqb_spec k2 k) as [Ek|Nk].
      * exfalso. apply Hne. rewrite E, E2. congruence.
      * replace i2 with i. rewrite Ej. reflexivity.
    + intros s Hs. destruct (Z.eqb_spec s (start + i)); [contradiction|reflexivity].
Qed.

(** X17: [bitmap_reset] on a bit whose sector lies in the bitmap and
    on the disk returns 0, clears that bit and keeps every other bit
    and every other sector; on a bit beyond the [num] sectors of the
    bitmap the [assert] stops the program. *)
Theorem bitmap_reset_clears (d : disk) (start num ibit : Z) :
  0 <= ibit ->
  (num <= (ibit ÷ 8) ÷ SECTOR_SIZE -> bitmap_reset d start num ibit = Stuck)
  /\ ((ibit ÷ 8) ÷ SECTOR_SIZE < num ->
      valid_sector (start + (ibit ÷ 8) ÷ SECTOR_SIZE) = true ->
      exists d',
        bitmap_reset d start num ibit = Done (d', 0)
        /\ bitmap_bit d' start ibit = false
        /\ (forall b, 0 <= b -> b <> ibit -> bitmap_bit d' start b = bitmap_bit d start b)
        /\ (forall s, s <> start + (ibit ÷ 8) ÷ SECTOR_SIZE -> d' s = d s)).
Proof. exact (bitmap_reset_spec d start num ibit). Qed.

Lemma bitmap_init_bytes_spec (n : nat) (j : Z) (buf : mem) (nbits : Z) :
  0 <= nbits ->
  snd (bitmap_init_bytes n j buf nbits) = Z.max 0 (nbits - 8 * Z.of_nat n)
  /\ forall x,
       fst (bitmap_init_bytes n j buf nbits) x
       = if (j <=? x) && (x <? j + Z.of_nat n)
         then byte.of_Z (tbl BYTE10 (Z.min 8 (Z.max 0 (nbits - 8 * (x - j)))))
         else buf x.
Proof.
  revert j buf nbits. induction n as [|n IH]; intros j buf nbits Hn.
  - cbn [bitmap_init_bytes fst snd]. split; [lia|].
    intros x. destruct (Z.leb_spec j x); destruct (Z.ltb_spec x (j + Z.of_nat 0));
      try reflexivity; lia.
  - cbn [bitmap_init_bytes]. destruct (Z.ltb_spec 8 nbits) as [Hgt|Hle].
    + destruct (IH (j + 1) (mem_set buf j (byte.of_Z 255)) (nbits - 8)) as [E1 E2]; [lia|].
      split; [rewrite E1; lia|].
      intros x. rewrite E2. unfold mem_set. change 255 with (tbl BYTE10 8).
      destruct (Z.leb_spec (j + 1) x); destruct (Z.ltb_spec x (j + 1 + Z.of_nat n));
        destruct (Z.leb_spec j x); destruct (Z.ltb_spec x (j + Z.of_nat (S n)));
        destruct (Z.eqb_spec x j);
        cbn [andb]; try lia; try reflexivity; f_equal; f_equal; lia.
    + destruct (IH (j + 1) (mem_set buf j (byte.of_Z (tbl BYTE10 nbits))) 0) as [E1 E2]; [lia|].
      split; [rewrite E1; lia|].
      intros x. rewrite E2. unfold mem_set.
      destruct (Z.leb_spec (j + 1) x); destruct (Z.ltb_spec x (j + 1 + Z.of_nat n));
        destruct (Z.leb_spec j x); destruct (Z.ltb_spec x (j + Z.of_nat (S n)));
        destruct (Z.eqb_spec x j);
        cbn [andb]; try lia; try reflexivity; f_equal; f_equal; lia.
Qed.

Lemma bitmap_init_loop_spec (n : nat) (i : Z) (d : disk) (start : Z)
  (buf : mem) (nbits : Z) :
  (forall i', i <= i' < i + Z.of_nat n -> valid_sector (start + i') = true) ->
  (forall i' x, i <= i' < i + Z.of_nat n -> 0 <= x < SECTOR_SIZE ->
     bitmap_init_loop n i d start buf nbits (start + i') x
     = byte.of_Z (tbl BYTE10
         (Z.min 8 (Z.max 0 (nbits - 8 * ((i' - i) * SECTOR_SIZE + x))))))
  /\ (forall s, ~ (start + i <= s < start + i + Z.of_nat n) ->
        bitmap_init_loop n i d start buf nbits s = d s).
Proof.
  revert i d buf nbits. induction n as [|n IH]; intros i d buf nbits Hv.
  - split; [intros; lia|reflexivity].
  - cbn [bitmap_init_loop].
    set (step := if 0 <? nbits
                 then bitmap_init_bytes (Z.to_nat SECTOR_SIZE) 0 buf nbits
                 else (mem_fill buf 0 SECTOR_SIZE Byte.x00, nbits)).
    assert (Hstep :
      (forall x, 0 <= x < SECTOR_SIZE ->
         fst step x = byte.of_Z (tbl BYTE10 (Z.min 8 (Z.max 0 (nbits - 8 * x)))))
      /\ (forall y, 0 <= y -> Z.max 0 (snd step - 8 * y)
                              = Z.max 0 (nbits - 8 * (SECTOR_SIZE + y)))).
    { unfold step. destruct (Z.ltb_spec 0 nbits) as [Hpos|Hneg].
      - destruct (bitmap_init_bytes_spec (Z.to_nat SECTOR_SIZE) 0 buf nbits) as [E1 E2]; [lia|].
        split.
        + intros x Hx. rewrite E2.
          destruct (Z.leb_spec 0 x); [|lia].
          destruct (Z.ltb_spec x (0 + Z.of_nat (Z.to_nat SECTOR_SIZE))); [|lia].
          cbn [andb]. f_equal. f_equal. lia.
        + intros y Hy. rewrite E1. lia.
      - cbn [fst snd]. split.
        + intros x Hx. unfold mem_fill.
          destruct (Z.leb_spec 0 x); [|lia].
          destruct (Z.ltb_spec x (0 + SECTOR_SIZE)); [|lia].
          replace (Z.min 8 (Z.max 0 (nbits - 8 * x))) with 0 by lia. reflexivity.
        + intros y Hy. lia. }
    destruct step as [buf' nbits']. cbn [fst snd] in Hstep. destruct Hstep as [Hb Hn].
    unfold Disk_Write. rewrite (Hv i) by lia.
    destruct (IH (i + 1) (fun s' => if s' =? start + i then buf' else d s') buf' nbits')
      as [IH1 IH2]; [intros; apply Hv; lia|].
    split.
    + intros i' x Hi' Hx. destruct (Z.eq_dec i' i) as [->|Hne].
      * rewrite IH2 by lia. rewrite Z.eqb_refl. rewrite Hb by exact Hx.
        f_equal. f_equal. lia.
      * rewrite IH1 by lia. f_equal. f_equal.
        pose proof (Hn ((i' - (i + 1)) * SECTOR_SIZE + x)) as Hn'.
        replace (SECTOR_SIZE + ((i' - (i + 1)) * SECTOR_SIZE + x))
          with ((i' - i) * SECTOR_SIZE + x) in Hn' by ring.
        rewrite Hn' by nia. reflexivity.
    + intros s Hs. rewrite IH2 by lia.
      destruct (Z.eqb_spec s (start + i)); [lia|reflexivity].
Qed.

Lemma bitmap_init_bits (d : disk) (start num nbits : Z) :
  (forall i, 0 <= i < num -> valid_sector (start + i) = true) ->
  (forall b, 0 <= b < num * SECTOR_SIZE * 8 ->
     bitmap_bit (bitmap_init d start num nbits) start b = (b <? nbits))
  /\ (forall s, ~ (start <= s < start + num) ->
        bitmap_init d start num nbits s = d s).
Proof.
  intros Hv. unfold bitmap_init.
  destruct (bitmap_init_loop_spec (Z.to_nat num) 0 d start zero_mem nbits) as [H1 H2].
  { intros i' Hi'. apply Hv. lia. }
  split.
  - intros b Hb.
    destruct (bit_index_join sector_size_pos b) as [Hi [Hj [Hk E]]]; [lia|].
    set (i := (b ÷ 8) ÷ SECTOR_SIZE) in *.
    set (j := Z.rem (b ÷ 8) SECTOR_SIZE) in *.
    set (k := Z.rem b 8) in *.
    assert (Hin : i < num) by (unfold bit_index in E; nia).
    rewrite E at 1. rewrite bitmap_bit_at by assumption.
    rewrite H1 by lia. rewrite init_byte_bit by lia.
    unfold bit_index in E.
    destruct (Z.ltb_spec k (Z.min 8 (Z.max 0 (nbits - 8 * ((i - 0) * SECTOR_SIZE + j)))));
      destruct (Z.ltb_spec b nbits); try reflexivity; lia.
  - intros s Hs. apply H2. lia.
Qed.

(** X18: [bitmap_init] on sectors of the disk sets exactly the first
    [nbits] bits of the bitmap and writes no sector outside of it. *)
Theorem bitmap_init_first_bits (d : disk) (start num nbits : Z) :
  (forall i, 0 <= i < num -> valid_sector (start + i) = true) ->
  (forall b, 0 <= b < num * SECTOR_SIZE * 8 ->
     bitmap_bit (bitmap_init d start num nbits) start b = (b <? nbits))
  /\ (forall s, ~ (start <= s < start + num) ->
        bitmap_init d start num nbits s = d s).
Proof. exact (bitmap_init_bits d start num nbits). Qed.

End BitmapLaws.

(** ** A new volume *)

Lemma magic_round_trip (m : mem) :
  load_int (store_int m 0 3735928559) 0 mod 2 ^ 32 = 3735928559.
Proof.
  unfold load_int.
  pose proof (store_int_inside m 0 3735928559 0) as H0.
  pose proof (store_int_inside m 0 3735928559 1) as H1.
  pose proof (store_int_inside m 0 3735928559 2) as H2.
  pose proof (store_int_inside m 0 3735928559 3) as H3.
  cbn [Z.add] in H0.
  rewrite H0, H1, H2, H3 by lia. vm_compute. reflexivity.
Qed.

Section NewVolume.
Context {G : geometry}.
Hypothesis Hgeo : geometry_ok.

Lemma format_inode_table_spec (n : nat) (i : Z) (d : disk) :
  (forall i', i <= i' < i + Z.of_nat n ->
              valid_sector (INODE_TABLE_START_SECTOR + i') = true) ->
  exists d',
    format_inode_table n i d = Some d'
    /\ (forall i', i <= i' < i + Z.of_nat n ->
          d' (INODE_TABLE_START_SECTOR + i')
          = if i' =? 0
            then set_inode_type
                   (set_inode_size (mem_fill zero_mem 0 SECTOR_SIZE Byte.x00) 0 0) 0 1
            else mem_fill zero_mem 0 SECTOR_SIZE Byte.x00)
    /\ (forall s, ~ (INODE_TABLE_START_SECTOR + i <= s
                     < INODE_TABLE_START_SECTOR + i + Z.of_nat n) -> d' s = d s).
Proof.
  revert i d. induction n as [|n IH]; intros i d Hv.
  - exists d. split; [reflexivity|]. split; [intros; lia|reflexivity].
  - cbn [format_inode_table]. unfold Disk_Write. rewrite (Hv i) by lia.
    match goal with
    | |- context [format_inode_table n (i + 1) ?d1] =>
        destruct (IH (i + 1) d1) as [d' [E [H1 H2]]]; [intros; apply Hv; lia|]
    end.
    exists d'. split; [exact E|]. split.
    + intros i' Hi'. destruct (Z.eq_dec i' i) as [->|Hne].
      * rewrite H2 by lia. rewrite Z.eqb_refl. reflexivity.
      * apply H1. lia.
    + intros s Hs. rewrite H2 by lia.
      destruct (Z.eqb_spec s (INODE_TABLE_START_SECTOR + i)); [lia|reflexivity].
Qed.

Lemma bitmaps_cover :
  MAX_FILES <= INODE_BITMAP_SECTORS * SECTOR_SIZE * 8
  /\ TOTAL_SECTORS <= SECTOR_BITMAP_SECTORS * SECTOR_SIZE * 8
  /\ 1 <= INODE_TABLE_SECTORS.
Proof.
  destruct Hgeo.
  unfold INODE_BITMAP_SECTORS, SECTOR_BITMAP_SECTORS, INODE_BITMAP_SIZE,
    SECTOR_BITMAP_SIZE, INODE_TABLE_SECTORS.
  destruct (quot_ceil_gt MAX_FILES 8) as [_ H1]; [lia|lia|].
  destruct (quot_ceil_gt TOTAL_SECTORS 8) as [_ H2]; [lia|lia|].
  replace (MAX_FILES + 8 - 1) with (MAX_FILES + 7) in H1 by ring.
  replace (TOTAL_SECTORS + 8 - 1) with (TOTAL_SECTORS + 7) in H2 by ring.
  assert (0 <= (MAX_FILES + 7) ÷ 8) by (apply quot_nonneg; lia).
  assert (0 <= (TOTAL_SECTORS + 7) ÷ 8) by (apply quot_nonneg; lia).
  destruct (quot_ceil_gt ((MAX_FILES + 7) ÷ 8) SECTOR_SIZE) as [_ H3]; [lia|lia|].
  destruct (quot_ceil_gt ((TOTAL_SECTORS + 7) ÷ 8) SECTOR_SIZE) as [_ H4]; [lia|lia|].
  destruct (quot_ceil_gt MAX_FILES INODES_PER_SECTOR) as [_ H5]; [lia|lia|].
  repeat split; nia.
Qed.

Lemma format_spec (d : disk) :
  exists d',
    format d = Some d'
    /\ check_magic d' = 1
    /\ (forall b, 0 <= b < MAX_FILES ->
          bitmap_bit d' INODE_BITMAP_START_SECTOR b = (b =? 0))
    /\ (forall s, 0 <= s < TOTAL_SECTORS ->
          bitmap_bit d' SECTOR_BITMAP_START_SECTOR s = (s <? DATABLOCK_START_SECTOR))
    /\ inode_type_of d' 0 = 1
    /\ inode_size_of d' 0 = 0
    /\ (forall s, DATABLOCK_START_SECTOR <= s -> d' s = d s).
Proof.
  pose proof (layout_nonneg Hgeo) as [Hl1 [Hl2 Hl3]].
  pose proof bitmaps_cover as [Hc1 [Hc2 Hc3]].
  pose proof (ok_metadata Hgeo) as Hmeta.
  pose proof (ok_sector_size Hgeo) as Hss.
  assert (Hlay : INODE_BITMAP_START_SECTOR = 1
                 /\ SECTOR_BITMAP_START_SECTOR = 1 + INODE_BITMAP_SECTORS
                 /\ INODE_TABLE_START_SECTOR
                    = 1 + INODE_BITMAP_SECTORS + SECTOR_BITMAP_SECTORS
                 /\ DATABLOCK_START_SECTOR
                    = 1 + INODE_BITMAP_SECTORS + SECTOR_BITMAP_SECTORS
                      + INODE_TABLE_SECTORS).
  { unfold DATABLOCK_START_SECTOR, INODE_TABLE_START_SECTOR,
      SECTOR_BITMAP_START_SECTOR, INODE_BITMAP_START_SECTOR. lia. }
  destruct Hlay as [La [Lb [Lc Ld]]].
  assert (Hvalid : forall s, 0 <= s < DATABLOCK_START_SECTOR -> valid_sector s = true).
  { intros s Hs. apply valid_sector_range. lia. }
  unfold format. unfold Disk_Write at 1.
  rewrite (Hvalid SUPERBLOCK_START_SECTOR) by (unfold SUPERBLOCK_START_SECTOR; lia).
  set (d0 := fun s' => if s' =? SUPERBLOCK_START_SECTOR
                       then store_int (mem_fill zero_mem 0 SECTOR_SIZE Byte.x00) 0 OS_MAGIC
                       else d s').
  destruct (bitmap_init_bits Hss d0 INODE_BITMAP_START_SECTOR INODE_BITMAP_SECTORS 1)
    as [Hi1 Hi2]; [intros; apply Hvalid; lia|].
  set (d1 := bitmap_init d0 INODE_BITMAP_START_SECTOR INODE_BITMAP_SECTORS 1) in *.
  destruct (bitmap_init_bits Hss d1 SECTOR_BITMAP_START_SECTOR SECTOR_BITMAP_SECTORS
              DATABLOCK_START_SECTOR) as [Hs1 Hs2]; [intros; apply Hvalid; lia|].
  set (d2 := bitmap_init d1 SECTOR_BITMAP_START_SECTOR SECTOR_BITMAP_SECTORS
               DATABLOCK_START_SECTOR) in *.
  destruct (format_inode_table_spec (Z.to_nat INODE_TABLE_SECTORS) 0 d2)
    as [d3 [E [Ht1 Ht2]]]; [intros; apply Hvalid; lia|].
  exists d3. split; [exact E|].
  assert (Hroot : d3 (inode_sector_of 0)
                  = set_inode_type
                      (set_inode_size (mem_fill zero_mem 0 SECTOR_SIZE Byte.x00) 0 0) 0 1).
  { unfold inode_sector_of. change (0 ÷ INODES_PER_SECTOR) with 0.
    rewrite Ht1 by lia. reflexivity. }
  assert (Hoff : inode_offset_of 0 = 0).
  { unfold inode_offset_of, inode_sector_of. change (0 ÷ INODES_PER_SECTOR) with 0.
    ring. }
  split; [|split; [|split; [|split; [|split]]]].
  - unfold check_magic, Disk_Read.
    rewrite (Hvalid SUPERBLOCK_START_SECTOR) by (unfold SUPERBLOCK_START_SECTOR; lia).
    rewrite Ht2 by (unfold SUPERBLOCK_START_SECTOR; lia).
    unfold d2. rewrite Hs2 by (unfold SUPERBLOCK_START_SECTOR; lia).
    unfold d1. rewrite Hi2 by (unfold SUPERBLOCK_START_SECTOR; lia).
    unfold d0. cbv beta.
    destruct (Z.eqb_spec SUPERBLOCK_START_SECTOR SUPERBLOCK_START_SECTOR); [|congruence].
    unfold OS_MAGIC. rewrite magic_round_trip. reflexivity.
  - intros b Hb.
    assert (Hsec : 0 <= (b ÷ 8) ÷ SECTOR_SIZE < INODE_BITMAP_SECTORS).
    { destruct (bit_index_join Hss b) as [Hi [Hj [Hk Eb]]]; [lia|].
      unfold bit_index in Eb. split; [lia|nia]. }
    transitivity (bitmap_bit d1 INODE_BITMAP_START_SECTOR b).
    + unfold bitmap_bit. rewrite Ht2 by lia. unfold d2. rewrite Hs2 by lia. reflexivity.
    + rewrite Hi1 by lia.
      destruct (Z.ltb_spec b 1); destruct (Z.eqb_spec b 0); try reflexivity; lia.
  - intros s Hs.
    pose proof (sector_bit_layout Hgeo s Hs) as Hsl.
    transitivity (bitmap_bit d2 SECTOR_BITMAP_START_SECTOR s).
    + unfold bitmap_bit. rewrite Ht2 by lia. reflexivity.
    + apply Hs1. lia.
  - unfold inode_type_of. rewrite Hroot, Hoff.
    unfold inode_type, set_inode_type. apply load_store_same.
    unfold int_min, int_max. lia.
  - unfold inode_size_of. rewrite Hroot, Hoff.
    unfold inode_size, set_inode_type, set_inode_size.
    rewrite load_store_other by lia. apply load_store_same.
    unfold int_min, int_max. lia.
  - intros s Hs. rewrite Ht2 by lia. unfold d2. rewrite Hs2 by lia.
    unfold d1. rewrite Hi2 by lia. unfold d0.
    destruct (Z.eqb_spec s SUPERBLOCK_START_SECTOR) as [->|]; [|reflexivity].
    unfold SUPERBLOCK_START_SECTOR in Hs. lia.
Qed.

(** X19: on a geometry whose metadata fits on the disk, [FS_Boot]
    without a backstore file formats the disk and returns 0; the new
    volume has only inode 0 in use, exactly the sectors below the
    first data block marked used, an empty directory as root and no
    open file; and booting again from that image succeeds with the
    same state. *)
Theorem FS_Boot_new_volume :
  exists st,
    FS_Boot None = (st, 0)
    /\ FS_Boot (Some (st_disk st)) = (st, 0)
    /\ (forall b, 0 <= b < MAX_FILES ->
          bitmap_bit (st_disk st) INODE_BITMAP_START_SECTOR b = (b =? 0))
    /\ (forall s, 0 <= s < TOTAL_SECTORS ->
          bitmap_bit (st_disk st) SECTOR_BITMAP_START_SECTOR s
          = (s <? DATABLOCK_START_SECTOR))
    /\ inode_type_of (st_disk st) 0 = 1
    /\ inode_size_of (st_disk st) 0 = 0
    /\ (forall fd, of_inode (open_files st fd) = 0).
Proof.
  destruct (format_spec blank_disk) as [d' [E [Hm [Hi [Hs [Hty [Hsz _]]]]]]].
  unfold FS_Boot. rewrite E.
  eexists. split; [reflexivity|]. cbn [st_disk open_files].
  rewrite Hm. cbn [Z.eqb Pos.eqb].
  split; [reflexivity|]. auto 6.
Qed.

End NewVolume.

(** ** Creating an entry and finding it *)

Lemma load_int_ext (m m' : mem) (off : Z) :
  (forall x, off <= x < off + 4 -> m x = m' x) -> load_int m off = load_int m' off.
Proof. intros H. unfold load_int. rewrite !H by lia. reflexivity. Qed.

Lemma load_int_zero (m : mem) (off : Z) :
  (forall x, off <= x < off + 4 -> m x = Byte.x00) -> load_int m off = 0.
Proof. intros H. unfold load_int. rewrite !H by lia. reflexivity. Qed.

Lemma byte_eqb_refl (b : byte) : Byte.eqb b b = true.
Proof. apply Byte.byte_dec_lb. reflexivity. Qed.

Lemma streq_at_ext (m m' : mem) (off : Z) (s : cstring) :
  (forall x, off <= x <= off + Z.of_nat (List.length s) -> m x = m' x) ->
  streq_at m off s = streq_at m' off s.
Proof.
  revert off. induction s as [|c s IH]; intros off H; cbn [streq_at].
  - rewrite H by (cbn [List.length]; lia). reflexivity.
  - rewrite H by (cbn [List.length]; lia). f_equal.
    apply IH. intros x Hx. apply H. cbn [List.length]. lia.
Qed.

Lemma streq_at_strncpy_from (m : mem) (off : Z) (s : cstring) (n : Z)
  (s2 s1 : cstring) :
  s = s1 ++ s2 -> Z.of_nat (List.length s) < n ->
  streq_at (strncpy m off s n) (off + Z.of_nat (List.length s1)) s2 = true.
Proof.
  revert s1. induction s2 as [|c s2 IH]; intros s1 E Hn; cbn [streq_at].
  - rewrite app_nil_r in E. subst s1. unfold strncpy.
    destruct (Z.leb_spec off (off + Z.of_nat (List.length s))); [|lia].
    destruct (Z.ltb_spec (off + Z.of_nat (List.length s)) (off + n)); [|lia].
    cbn [andb]. rewrite nth_overflow by lia. reflexivity.
  - assert (Hl : List.length s = (List.length s1 + S (List.length s2))%nat).
    { rewrite E, length_app. reflexivity. }
    apply andb_true_intro. split.
    + unfold strncpy.
      destruct (Z.leb_spec off (off + Z.of_nat (List.length s1))); [|lia].
      destruct (Z.ltb_spec (off + Z.of_nat (List.length s1)) (off + n)); [|lia].
      cbn [andb].
      replace (Z.to_nat (off + Z.of_nat (List.length s1) - off))
        with (List.length s1) by lia.
      rewrite E, nth_middle. apply byte_eqb_refl.
    + replace (off + Z.of_nat (List.length s1) + 1)
        with (off + Z.of_nat (List.length (s1 ++ [c])))
        by (rewrite length_app; cbn [List.length]; lia).
      apply IH; [|exact Hn]. rewrite <- app_assoc. exact E.
Qed.

Lemma streq_at_strncpy (m : mem) (off : Z) (s : cstring) (n : Z) :
  Z.of_nat (List.length s) < n -> streq_at (strncpy m off s n) off s = true.
Proof.
  intros Hn.
  pose proof (streq_at_strncpy_from m off s n s [] eq_refl Hn) as H.
  cbn [List.length Z.of_nat] in H. rewrite Z.add_0_r in H. exact H.
Qed.

Section Directory.
Context {G : geometry}.

Lemma scan_dirents_miss (n : nat) (i : Z) (buf : mem) (fname : cstring) (nentries : Z) :
  (forall i', i <= i' < i + Z.of_nat n -> i' <= nentries ->
              streq_at buf (i' * sizeof_dirent) fname = false) ->
  scan_dirents n i buf fname nentries = None.
Proof.
  revert i. induction n as [|n IH]; intros i H; [reflexivity|].
  cbn [scan_dirents]. destruct (Z.ltb_spec nentries i); [reflexivity|].
  rewrite H by lia. apply IH. intros i' Hi' Hn. apply H; lia.
Qed.

Lemma scan_dirents_hit (n : nat) (i : Z) (buf : mem) (fname : cstring)
  (nentries I : Z) :
  i <= I < i + Z.of_nat n -> I <= nentries ->
  (forall i', i <= i' < I -> streq_at buf (i' * sizeof_dirent) fname = false) ->
  streq_at buf (I * sizeof_dirent) fname = true ->
  scan_dirents n i buf fname nentries = Some (dirent_inode buf (I * sizeof_dirent)).
Proof.
  revert i. induction n as [|n IH]; intros i HI Hn Hmiss Hhit; [lia|].
  cbn [scan_dirents]. destruct (Z.ltb_spec nentries i); [lia|].
  destruct (Z.eq_dec i I) as [->|Hne].
  - rewrite Hhit. reflexivity.
  - rewrite Hmiss by lia. apply IH; [lia|exact Hn| |exact Hhit].
    intros i' Hi'. apply Hmiss. lia.
Qed.

(** The loop of [find_child_inode] when the sectors before the [K]-th
    hold no entry of the name and entry [I] of the [K]-th is the first
    that does. *)
Lemma find_child_loop_found (K : nat) (d : disk) (parent : Z) (fname : cstring)
  (csec : Z) (cbuf : mem) (I : Z) :
  forall (fuel : nat) (nentries idx : Z),
  (K < fuel)%nat ->
  0 < DIRENTS_PER_SECTOR ->
  0 <= I < DIRENTS_PER_SECTOR ->
  Z.of_nat K * DIRENTS_PER_SECTOR + I <= nentries ->
  0 < nentries - Z.of_nat K * DIRENTS_PER_SECTOR ->
  (forall g, 0 <= g <= Z.of_nat K ->
     valid_sector (inode_data cbuf parent (idx + g)) = true) ->
  (forall g i, 0 <= g < Z.of_nat K -> 0 <= i < DIRENTS_PER_SECTOR ->
     streq_at (d (inode_data cbuf parent (idx + g))) (i * sizeof_dirent) fname = false) ->
  (forall i, 0 <= i < I ->
     streq_at (d (inode_data cbuf parent (idx + Z.of_nat K))) (i * sizeof_dirent) fname
     = false) ->
  streq_at (d (inode_data cbuf parent (idx + Z.of_nat K))) (I * sizeof_dirent) fname
  = true ->
  let child :=
    dirent_inode (d (inode_data cbuf parent (idx + Z.of_nat K))) (I * sizeof_dirent) in
  let sector := INODE_TABLE_START_SECTOR + child ÷ INODES_PER_SECTOR in
  find_child_loop fuel d parent fname csec cbuf nentries idx
  = if negb (sector =? csec)
    then match Disk_Read d sector with
         | None => Done (-2, sector, cbuf)
         | Some cbuf' => Done (child, sector, cbuf')
         end
    else Done (child, csec, cbuf).
Proof.
  induction K as [|K IH]; intros fuel nentries idx Hfuel Hdps HI Hle Hpos Hv Hmiss HmissK Hhit.
  - destruct fuel as [|fuel]; [lia|]. cbn [find_child_loop].
    cbn [Z.of_nat] in *. rewrite Z.add_0_r in *.
    destruct (Z.ltb_spec 0 nentries); [|lia].
    unfold Disk_Read at 1. rewrite <- (Z.add_0_r idx) at 1. rewrite Hv by lia.
    rewrite (scan_dirents_hit _ _ _ _ _ I); [reflexivity|lia|lia| |exact Hhit].
    intros i' Hi'. apply HmissK. lia.
  - destruct fuel as [|fuel]; [lia|]. cbn [find_child_loop].
    destruct (Z.ltb_spec 0 nentries); [|nia].
    unfold Disk_Read at 1. rewrite <- (Z.add_0_r idx) at 1. rewrite Hv by lia.
    rewrite scan_dirents_miss.
    + replace (idx + Z.of_nat (S K)) with (idx + 1 + Z.of_nat K) in * by lia.
      apply IH; try assumption; try lia.
      * intros g Hg. replace (idx + 1 + g) with (idx + (1 + g)) by ring.
        apply Hv. lia.
      * intros g i Hg Hi. replace (idx + 1 + g) with (idx + (1 + g)) by ring.
        apply Hmiss; lia.
    + intros i' Hi' _. specialize (Hmiss 0 i'). rewrite Z.add_0_r in Hmiss.
      apply Hmiss; lia.
Qed.

End Directory.

Section Creation.
Context {G : geometry}.
Hypothesis Hgeo : geometry_ok.
Hypothesis Hdir : directory_geometry.

Lemma dirent_split (n : Z) :
  0 <= n ->
  0 <= n ÷ DIRENTS_PER_SECTOR <= n
  /\ 0 <= n - n ÷ DIRENTS_PER_SECTOR * DIRENTS_PER_SECTOR < DIRENTS_PER_SECTOR.
Proof.
  intros Hn. pose proof (dir_dirents_per_sector Hdir) as Hd.
  rewrite Z.quot_div_nonneg by lia.
  assert (Hd0 : DIRENTS_PER_SECTOR <> 0) by lia.
  pose proof (Z.div_mod n DIRENTS_PER_SECTOR Hd0).
  pose proof (Z.mod_pos_bound n DIRENTS_PER_SECTOR Hd).
  assert (0 <= n / DIRENTS_PER_SECTOR) by (apply Z.div_pos; lia).
  nia.
Qed.

(** The entry that [add_dirent] writes is the first of its name that
    [find_child_inode] meets afterwards. *)
Lemma add_dirent_found (dX : disk) (parent : Z) (pbX db : mem) (file : cstring)
  (child : Z) (d' : disk) (n : Z) :
  let ps := inode_sector_of parent in
  let poff := inode_offset_of parent in
  let group := n ÷ DIRENTS_PER_SECTOR in
  let off := n - group * DIRENTS_PER_SECTOR in
  let dsec := inode_data pbX poff group in
  0 <= parent ->
  ps < DATABLOCK_START_SECTOR ->
  inode_size pbX poff = n ->
  0 <= n < MAX_SECTORS_PER_FILE * DIRENTS_PER_SECTOR ->
  inode_type pbX poff = 1 ->
  DATABLOCK_START_SECTOR <= dsec ->
  (forall g, 0 <= g < group ->
     valid_sector (inode_data pbX poff g) = true
     /\ DATABLOCK_START_SECTOR <= inode_data pbX poff g
     /\ inode_data pbX poff g <> dsec
     /\ forall i, 0 <= i < DIRENTS_PER_SECTOR ->
          streq_at (dX (inode_data pbX poff g)) (i * sizeof_dirent) file = false) ->
  (forall i, 0 <= i < off -> streq_at db (i * sizeof_dirent) file = false) ->
  Z.of_nat (List.length file) < MAX_NAME ->
  0 <= child <= int_max ->
  valid_sector (inode_sector_of child) = true ->
  inode_sector_of child < DATABLOCK_START_SECTOR ->
  add_dirent dX ps pbX poff group db file child = Done (d', 0) ->
  d' ps = set_inode_size pbX poff (n + 1)
  /\ (forall s, s <> ps -> s <> dsec -> d' s = dX s)
  /\ valid_sector dsec = true
  /\ dirent_inode (d' dsec) (off * sizeof_dirent) = child
  /\ find_child_inode d' parent file ps (d' ps)
     = Done (child, inode_sector_of child, d' (inode_sector_of child)).
Proof.
  intros ps poff group off dsec Hparent Hps Hsize Hn Htype Hdsec Hold Hdb Hname
    Hchild Hcv Hcs H.
  pose proof (dir_dirents_per_sector Hdir) as Hdps.
  pose proof (ok_inodes_per_sector Hgeo) as Hips.
  destruct (dirent_split n) as [Hgroup Hoff]; [lia|]. fold group in Hgroup, Hoff.
  fold off in Hoff.
  unfold add_dirent in H. rewrite Hsize in H. fold off in H. fold dsec in H.
  set (db' := store_int (strncpy db (off * sizeof_dirent) file MAX_NAME)
                (off * sizeof_dirent + MAX_NAME) child) in H.
  destruct (Disk_Write dX dsec db') as [d4|] eqn:E4; [|injection H as _ H; lia].
  apply Disk_Write_Some in E4. destruct E4 as [Hdv ->].
  match type of H with
  | match Disk_Write ?dd _ _ with _ => _ end = _ =>
      destruct (Disk_Write dd ps (set_inode_size pbX poff (n + 1))) as [d5|] eqn:E5;
        [|injection H as _ H; lia]
  end.
  apply Disk_Write_Some in E5. destruct E5 as [Hpv ->].
  injection H as H.
  assert (Hne : dsec <> ps) by lia.
  assert (Hd'ps : d' ps = set_inode_size pbX poff (n + 1)).
  { rewrite <- H. rewrite Z.eqb_refl. reflexivity. }
  assert (Hd'dsec : d' dsec = db').
  { rewrite <- H. destruct (Z.eqb_spec dsec ps); [contradiction|].
    rewrite Z.eqb_refl. reflexivity. }
  assert (Hd'other : forall s, s <> ps -> s <> dsec -> d' s = dX s).
  { intros s Hs1 Hs2. rewrite <- H.
    destruct (Z.eqb_spec s ps); [contradiction|].
    destruct (Z.eqb_spec s dsec); [contradiction|reflexivity]. }
  clear H.
  split; [exact Hd'ps|]. split; [exact Hd'other|]. split; [exact Hdv|].
  split.
  { rewrite Hd'dsec. unfold dirent_inode, db'. apply load_store_same.
    unfold int_min. lia. }
  assert (Hint : int_min <= n + 1 <= int_max).
  { pose proof (ok_file_size Hgeo). pose proof (ok_sector_size Hgeo).
    pose proof (ok_file_sectors Hgeo).
    assert (DIRENTS_PER_SECTOR <= SECTOR_SIZE).
    { unfold DIRENTS_PER_SECTOR, sizeof_dirent, MAX_NAME.
      rewrite Z.quot_div_nonneg by lia.
      apply Z.div_le_upper_bound; lia. }
    unfold int_min. nia. }
  unfold find_child_inode.
  pose proof (inode_offset_range Hips parent Hparent) as Hrange. cbv zeta in Hrange.
  fold ps in Hrange. rewrite Hrange. cbn [assert bind].
  change ((parent - (ps - INODE_TABLE_START_SECTOR) * INODES_PER_SECTOR) * sizeof_inode)
    with poff.
  rewrite Hd'ps. rewrite type_set_size, Htype. cbn [Z.eqb Pos.eqb negb].
  rewrite size_set_size by exact Hint.
  assert (Hdata : forall g, 0 <= g ->
            inode_data (set_inode_size pbX poff (n + 1)) poff g = inode_data pbX poff g).
  { intros g Hg. apply data_set_size. exact Hg. }
  assert (Hhit : streq_at db' (off * sizeof_dirent) file = true
                 /\ dirent_inode db' (off * sizeof_dirent) = child).
  { split.
    - unfold db'. rewrite (streq_at_ext _ (strncpy db (off * sizeof_dirent) file MAX_NAME)).
      + apply streq_at_strncpy. exact Hname.
      + intros x Hx. apply store_int_outside. lia.
    - unfold dirent_inode, db'. apply load_store_same. unfold int_min. lia. }
  assert (Hbefore : forall i, 0 <= i < off ->
            streq_at db' (i * sizeof_dirent) file = false).
  { intros i Hi. rewrite <- (Hdb i Hi). apply streq_at_ext.
    intros x Hx. unfold db'.
    assert (x < off * sizeof_dirent) by (unfold sizeof_dirent, MAX_NAME in *; nia).
    rewrite store_int_outside by lia. unfold strncpy.
    destruct (Z.leb_spec (off * sizeof_dirent) x); [lia|]. reflexivity. }
  pose proof (find_child_loop_found (Z.to_nat group) d' poff file ps
                (set_inode_size pbX poff (n + 1)) off (Z.to_nat (n + 1)) (n + 1) 0) as F.
  cbv zeta in F. rewrite Z2Nat.id in F by lia. rewrite Z.add_0_l in F.
  rewrite (Hdata group) in F by lia. fold dsec in F. rewrite Hd'dsec in F.
  destruct Hhit as [Hh1 Hh2]. rewrite Hh2 in F.
  fold (inode_sector_of child) in F.
  rewrite F; try assumption; try lia.
  - destruct (Z.eqb_spec (inode_sector_of child) ps) as [E|Hdiff]; cbn [negb].
    + rewrite E, Hd'ps. reflexivity.
    + unfold Disk_Read. rewrite Hcv. reflexivity.
  - intros g Hg. rewrite Z.add_0_l, Hdata by lia.
    destruct (Z.eq_dec g group) as [->|Hgne].
    + fold dsec. exact Hdv.
    + destruct (Hold g) as [Hv _]; [lia|exact Hv].
  - intros g i Hg Hi. rewrite Z.add_0_l, Hdata by lia.
    destruct (Hold g) as [_ [Hds [Hdiff Hmiss]]]; [lia|].
    rewrite Hd'other by lia. apply Hmiss. exact Hi.
Qed.

Lemma allocate_frame (d d1 : disk) (start num nbits r : Z) :
  bitmap_first_unused d start num nbits = (d1, r) ->
  forall s, ~ (start <= s < start + num) -> d1 s = d s.
Proof.
  intros H s Hs. unfold bitmap_first_unused in H.
  pose proof (ok_sector_size Hgeo) as Hss.
  destruct (bitmap_first_unused_loop_spec Hss _ _ _ _ _ _ _ H (Z.le_refl 0))
    as [[_ ->]|[i [j [k [Hi [_ [_ [_ [_ [_ [_ ->]]]]]]]]]]]; [reflexivity|].
  unfold set_bit. destruct (Z.eqb_spec s (start + i)); [lia|reflexivity].
Qed.

Lemma inode_bit_layout (b : Z) :
  0 <= b < MAX_FILES ->
  INODE_BITMAP_START_SECTOR
  <= INODE_BITMAP_START_SECTOR + (b ÷ 8) ÷ SECTOR_SIZE
  < SECTOR_BITMAP_START_SECTOR.
Proof.
  intros Hb. pose proof (ok_sector_size Hgeo) as Hss.
  unfold SECTOR_BITMAP_START_SECTOR, INODE_BITMAP_SECTORS, INODE_BITMAP_SIZE.
  assert (0 <= b ÷ 8) by (apply quot_nonneg; lia).
  assert (0 <= (b ÷ 8) ÷ SECTOR_SIZE) by (apply quot_nonneg; lia).
  assert (H8 : (8 : Z) <> 0) by lia.
  assert (b ÷ 8 < (MAX_FILES + 7) ÷ 8).
  { rewrite !Z.quot_div_nonneg by lia.
    pose proof (Z.div_mod b 8 H8). pose proof (Z.mod_pos_bound b 8 ltac:(lia)).
    pose proof (Z.div_mod (MAX_FILES + 7) 8 H8).
    pose proof (Z.mod_pos_bound (MAX_FILES + 7) 8 ltac:(lia)). lia. }
  assert ((b ÷ 8) ÷ SECTOR_SIZE
          < ((MAX_FILES + 7) ÷ 8 + SECTOR_SIZE - 1) ÷ SECTOR_SIZE).
  { destruct (quot_ceil_gt ((MAX_FILES + 7) ÷ 8) SECTOR_SIZE) as [_ Hc]; [lia|lia|].
    rewrite (Z.quot_div_nonneg (b ÷ 8)) by lia.
    assert (Hn : SECTOR_SIZE <> 0) by lia.
    pose proof (Z.div_mod (b ÷ 8) SECTOR_SIZE Hn).
    pose proof (Z.mod_pos_bound (b ÷ 8) SECTOR_SIZE Hss). nia. }
  lia.
Qed.

(** What a successful allocation in the inode bitmap does. *)
Lemma allocate_inode (d d1 : disk) (child : Z) :
  bitmap_first_unused d INODE_BITMAP_START_SECTOR INODE_BITMAP_SECTORS
    INODE_BITMAP_SIZE = (d1, child) ->
  0 <= child ->
  bitmap_bit d INODE_BITMAP_START_SECTOR child = false
  /\ bitmap_bit d1 INODE_BITMAP_START_SECTOR child = true
  /\ child < MAX_FILES
  /\ (forall b, 0 <= b -> b <> child ->
        bitmap_bit d1 INODE_BITMAP_START_SECTOR b
        = bitmap_bit d INODE_BITMAP_START_SECTOR b).
Proof.
  intros H Hr. unfold bitmap_first_unused in H.
  pose proof (ok_sector_size Hgeo) as Hss.
  destruct (bitmap_first_unused_loop_spec Hss _ _ _ _ _ _ _ H (Z.le_refl 0))
    as [[-> _]|[i [j [k [Hi [Hj [Hk [Hn [-> [Hv [Hc ->]]]]]]]]]]]; [lia|].
  assert (Hi0 : 0 <= i) by lia.
  split; [apply allocated_was_free; assumption|].
  split; [apply allocated_is_used; assumption|].
  split; [pose proof (dir_inode_numbers Hdir); unfold bit_index; nia|].
  intros b Hb Hne. apply allocated_other_bits; assumption.
Qed.

Lemma child_slot_frame (m : mem) (coff type x : Z) :
  x < coff \/ coff + sizeof_inode <= x ->
  set_inode_type (mem_fill m coff sizeof_inode Byte.x00) coff type x = m x.
Proof.
  intros Hx. pose proof (ok_file_sectors Hgeo).
  unfold set_inode_type. unfold sizeof_inode in *.
  rewrite store_int_outside by lia. unfold mem_fill.
  destruct (Z.leb_spec coff x); destruct (Z.ltb_spec x (coff + (8 + 4 * MAX_SECTORS_PER_FILE)));
    cbn [andb]; try reflexivity; lia.
Qed.

Lemma child_slot_fresh (m : mem) (coff type : Z) :
  int_min <= type <= int_max ->
  inode_type (set_inode_type (mem_fill m coff sizeof_inode Byte.x00) coff type) coff = type
  /\ inode_size (set_inode_type (mem_fill m coff sizeof_inode Byte.x00) coff type) coff = 0.
Proof.
  intros Ht. pose proof (ok_file_sectors Hgeo). split.
  - apply load_store_same. exact Ht.
  - unfold inode_size, set_inode_type. rewrite load_store_other by lia.
    apply load_int_zero. intros x Hx. unfold mem_fill, sizeof_inode.
    destruct (Z.leb_spec coff x); [|lia].
    destruct (Z.ltb_spec x (coff + (8 + 4 * MAX_SECTORS_PER_FILE))); [|lia].
    reflexivity.
Qed.

(** Two inodes of one sector occupy disjoint slots. *)
Lemma slots_apart (a b : Z) :
  a <> b -> inode_sector_of a = inode_sector_of b ->
  inode_offset_of a + sizeof_inode <= inode_offset_of b
  \/ inode_offset_of b + sizeof_inode <= inode_offset_of a.
Proof.
  intros Hne Hs. unfold inode_offset_of. rewrite Hs.
  pose proof (ok_file_sectors Hgeo). unfold sizeof_inode. nia.
Qed.

Lemma add_inode_full (d : disk) (type parent : Z) (file : cstring) (d' : disk) :
  metadata_reserved d ->
  dir_ready d parent file ->
  int_min <= type <= int_max ->
  add_inode d type parent file = Done (d', 0) ->
  exists child,
    (0 <= child < MAX_FILES
     /\ child <> parent
     /\ bitmap_bit d INODE_BITMAP_START_SECTOR child = false
     /\ bitmap_bit d' INODE_BITMAP_START_SECTOR child = true
     /\ inode_type_of d' child = type
     /\ inode_size_of d' child = 0
     /\ inode_type_of d' parent = 1
     /\ inode_size_of d' parent = inode_size_of d parent + 1
     /\ metadata_reserved d'
     /\ find_child_inode d' parent file (inode_sector_of parent)
          (d' (inode_sector_of parent))
        = Done (child, inode_sector_of child, d' (inode_sector_of child)))
    /\ add_inode_frame d d' parent child.
Proof.
  intros Hmeta Hready Htype H.
  destruct Hready as [Hparent Hused Hroom Hblocks Hdistinct Hname Habsent].
  pose proof (ok_sector_size Hgeo) as Hss.
  pose proof (ok_inodes_per_sector Hgeo) as Hips.
  pose proof (ok_file_sectors Hgeo) as Hmspf.
  pose proof (ok_metadata Hgeo) as Hfit.
  pose proof (dir_dirents_per_sector Hdir) as Hdps.
  pose proof (dir_inode_int Hdir) as Hmaxint.
  pose proof (layout_nonneg Hgeo) as [Hl1 [Hl2 Hl3]].
  assert (Hlay : INODE_BITMAP_START_SECTOR = 1
                 /\ SECTOR_BITMAP_START_SECTOR = 1 + INODE_BITMAP_SECTORS
                 /\ INODE_TABLE_START_SECTOR
                    = 1 + INODE_BITMAP_SECTORS + SECTOR_BITMAP_SECTORS).
  { unfold INODE_TABLE_START_SECTOR, SECTOR_BITMAP_START_SECTOR,
      INODE_BITMAP_START_SECTOR. lia. }
  destruct Hlay as [La [Lb Lc]].
  unfold add_inode in H.
  destruct (bitmap_first_unused d INODE_BITMAP_START_SECTOR INODE_BITMAP_SECTORS
              INODE_BITMAP_SIZE) as [d1 child] eqn:Ealloc.
  destruct (Z.ltb_spec child 0) as [|Hc0]; [injection H as _ H; lia|].
  destruct (allocate_inode _ _ _ Ealloc Hc0) as [Hfree [Hset [Hcmax Hiother]]].
  pose proof (allocate_frame _ _ _ _ _ _ Ealloc) as Hframe1.
  assert (Hcp : child <> parent).
  { intros ->. rewrite Hused in Hfree. discriminate. }
  cbv zeta in H.
  change (INODE_TABLE_START_SECTOR + child ÷ INODES_PER_SECTOR)
    with (inode_sector_of child) in H.
  change (INODE_TABLE_START_SECTOR + parent ÷ INODES_PER_SECTOR)
    with (inode_sector_of parent) in H.
  change ((child - (inode_sector_of child - INODE_TABLE_START_SECTOR) * INODES_PER_SECTOR)
          * sizeof_inode) with (inode_offset_of child) in H.
  change ((parent - (inode_sector_of parent - INODE_TABLE_START_SECTOR) * INODES_PER_SECTOR)
          * sizeof_inode) with (inode_offset_of parent) in H.
  pose proof (inode_sector_valid Hgeo child ltac:(lia)) as Hcv.
  pose proof (inode_sector_valid Hgeo parent Hparent) as Hpv.
  pose proof (inode_sector_layout Hgeo child ltac:(lia)) as Hcl.
  pose proof (inode_sector_layout Hgeo parent Hparent) as Hpl.
  pose proof (inode_offset_range Hips child Hc0) as Hcr. cbv zeta in Hcr.
  pose proof (inode_offset_range Hips parent ltac:(lia)) as Hpr. cbv zeta in Hpr.
  set (cs := inode_sector_of child) in *.
  set (ps := inode_sector_of parent) in *.
  set (coff := inode_offset_of child) in *.
  set (poff := inode_offset_of parent) in *.
  set (n := inode_size_of d parent) in *.
  unfold Disk_Read at 1 in H. rewrite Hcv, Hcr in H. cbn [assert bind] in H.
  unfold Disk_Write at 1 in H. rewrite Hcv in H.
  set (cb := set_inode_type (mem_fill (d1 cs) coff sizeof_inode Byte.x00) coff type) in H.
  match type of H with
  | context [Disk_Read ?dd ps] => set (d2 := dd) in H
  end.
  assert (Hd2cs : d2 cs = cb) by (unfold d2; rewrite Z.eqb_refl; reflexivity).
  assert (Hd2other : forall s, s <> cs -> d2 s = d1 s).
  { intros s Hs. unfold d2. destruct (Z.eqb_spec s cs); [contradiction|reflexivity]. }
  clearbody d2.
  unfold Disk_Read at 1 in H. rewrite Hpv, Hpr in H. cbn [assert bind] in H.
  set (pb := d2 ps) in *.
  destruct (Z.eqb_spec (inode_type pb poff) 1) as [Hpt|];
    cbn [negb] in H; [|injection H as _ H; lia].
  (* the parent's slot is as it was *)
  assert (Hslot : forall x, poff <= x < poff + sizeof_inode -> pb x = d ps x).
  { intros x Hx. unfold pb. destruct (Z.eq_dec ps cs) as [E|Hne].
    - rewrite E, Hd2cs. unfold cb. rewrite child_slot_frame.
      + rewrite Hframe1 by lia. reflexivity.
      + destruct (slots_apart child parent Hcp) as [Hs|Hs]; [symmetry; exact E| |];
          fold coff poff in Hs; lia.
    - rewrite Hd2other by exact Hne. rewrite Hframe1 by lia. reflexivity. }
  assert (Hpsize : inode_size pb poff = n).
  { unfold n, inode_size_of, inode_size. apply load_int_ext.
    intros x Hx. apply Hslot. unfold sizeof_inode. lia. }
  assert (Hpdata : forall g, 0 <= g < MAX_SECTORS_PER_FILE ->
            inode_data pb poff g = inode_data_of d parent g).
  { intros g Hg. unfold inode_data_of, inode_data. apply load_int_ext.
    intros x Hx. apply Hslot. unfold sizeof_inode. lia. }
  rewrite Hpsize in H.
  destruct (dirent_split n) as [Hgroup Hoff]; [lia|].
  set (group := n ÷ DIRENTS_PER_SECTOR) in *.
  assert (Hgmax : group < MAX_SECTORS_PER_FILE) by nia.
  assert (Hd2data : forall s, DATABLOCK_START_SECTOR <= s -> d2 s = d s).
  { intros s Hs. rewrite Hd2other by lia. rewrite Hframe1 by lia. reflexivity. }
  assert (Hd2bits : forall s, 0 <= s < TOTAL_SECTORS ->
            bitmap_bit d2 SECTOR_BITMAP_START_SECTOR s
            = bitmap_bit d SECTOR_BITMAP_START_SECTOR s).
  { intros s Hs. pose proof (sector_bit_layout Hgeo s Hs) as Hsl.
    unfold bitmap_bit. rewrite Hd2other by lia. rewrite Hframe1 by lia. reflexivity. }
  assert (Hold : forall g, 0 <= g < group ->
            valid_sector (inode_data pb poff g) = true
            /\ DATABLOCK_START_SECTOR <= inode_data pb poff g
            /\ bitmap_bit d SECTOR_BITMAP_START_SECTOR (inode_data pb poff g) = true
            /\ forall i, 0 <= i < DIRENTS_PER_SECTOR ->
                 streq_at (d2 (inode_data pb poff g)) (i * sizeof_dirent) file = false).
  { intros g Hg. rewrite Hpdata by lia.
    destruct (Hblocks g) as [Hr Hb]; [lia|nia|].
    split; [apply valid_sector_range; lia|]. split; [lia|]. split; [exact Hb|].
    intros i Hi. rewrite Hd2data by lia. apply Habsent; [lia|exact Hi|nia]. }
  (* what is left to show once the entry is written *)
  assert (Hfinish : forall (dX : disk) (pbX : mem) (dsec : Z),
            inode_type pbX poff = 1 ->
            (forall x, cs = ps -> coff <= x < coff + sizeof_inode -> pbX x = cb x) ->
            (forall s, s < SECTOR_BITMAP_START_SECTOR \/ s = cs -> dX s = d2 s) ->
            metadata_reserved dX ->
            DATABLOCK_START_SECTOR <= dsec ->
            inode_data pbX poff group = dsec ->
            (forall s, 0 <= s < TOTAL_SECTORS ->
               n - group * DIRENTS_PER_SECTOR <> 0 \/ s <> dsec ->
               bitmap_bit dX SECTOR_BITMAP_START_SECTOR s
               = bitmap_bit d SECTOR_BITMAP_START_SECTOR s) ->
            (n - group * DIRENTS_PER_SECTOR = 0 ->
             bitmap_bit d SECTOR_BITMAP_START_SECTOR dsec = false) ->
            d' ps = set_inode_size pbX poff (n + 1) ->
            (forall s, s <> ps -> s <> dsec -> d' s = dX s) ->
            valid_sector dsec = true ->
            dirent_inode (d' dsec) ((n - group * DIRENTS_PER_SECTOR) * sizeof_dirent)
            = child ->
            find_child_inode d' parent file ps (d' ps) = Done (child, cs, d' cs) ->
            exists child0,
              (0 <= child0 < MAX_FILES
              /\ child0 <> parent
              /\ bitmap_bit d INODE_BITMAP_START_SECTOR child0 = false
              /\ bitmap_bit d' INODE_BITMAP_START_SECTOR child0 = true
              /\ inode_type_of d' child0 = type
              /\ inode_size_of d' child0 = 0
              /\ inode_type_of d' parent = 1
              /\ inode_size_of d' parent = n + 1
              /\ metadata_reserved d'
              /\ find_child_inode d' parent file ps (d' ps)
                 = Done (child0, inode_sector_of child0, d' (inode_sector_of child0)))
              /\ add_inode_frame d d' parent child0).
  { intros dX pbX dsec HtX HcX HdX HmX Hds Hdg HsX Hsf Hd'ps Hd'other Hdv Hlast Hfind.
    assert (Hint : int_min <= n + 1 <= int_max).
    { pose proof (ok_file_size Hgeo).
      assert (DIRENTS_PER_SECTOR <= SECTOR_SIZE).
      { unfold DIRENTS_PER_SECTOR, sizeof_dirent, MAX_NAME.
        rewrite Z.quot_div_nonneg by lia. apply Z.div_le_upper_bound; lia. }
      unfold int_min. nia. }
    assert (Hcslot : forall x, coff <= x < coff + sizeof_inode -> d' cs x = cb x).
    { intros x Hx. destruct (Z.eq_dec cs ps) as [E|Hne].
      - rewrite E, Hd'ps. unfold set_inode_size.
        destruct (slots_apart child parent Hcp E) as [Hs|Hs]; fold coff poff in Hs;
          (rewrite store_int_outside by (unfold sizeof_inode in *; lia));
          apply HcX; assumption.
      - rewrite Hd'other by lia. rewrite HdX by lia. rewrite Hd2cs. reflexivity. }
    destruct (child_slot_fresh (d1 cs) coff type Htype) as [Hfty Hfsz]. fold cb in Hfty, Hfsz.
    assert (Hd'g : inode_data_of d' parent group = dsec).
    { unfold inode_data_of. fold ps poff. rewrite Hd'ps.
      rewrite data_set_size by lia. exact Hdg. }
    exists child. split; [|shelve]. split; [lia|]. split; [exact Hcp|]. split; [exact Hfree|].
    split.
    { rewrite <- Hset. pose proof (inode_bit_layout child ltac:(lia)) as Hbl.
      unfold bitmap_bit. rewrite Hd'other by lia. rewrite HdX by lia.
      rewrite Hd2other by lia. reflexivity. }
    split.
    { rewrite <- Hfty. unfold inode_type_of, inode_type. fold cs coff.
      apply load_int_ext. intros x Hx. apply Hcslot. unfold sizeof_inode. lia. }
    split.
    { rewrite <- Hfsz. unfold inode_size_of, inode_size. fold cs coff.
      apply load_int_ext. intros x Hx. apply Hcslot. unfold sizeof_inode. lia. }
    split.
    { unfold inode_type_of. fold ps poff. rewrite Hd'ps, type_set_size. exact HtX. }
    split.
    { unfold inode_size_of. fold ps poff. rewrite Hd'ps. apply size_set_size. exact Hint. }
    split.
    { intros s Hs. rewrite <- (HmX s Hs).
      pose proof (sector_bit_layout Hgeo s ltac:(lia)) as Hsl.
      unfold bitmap_bit. rewrite Hd'other by lia. reflexivity. }
    exact Hfind.
    Unshelve.
    unfold add_inode_frame. fold n group. rewrite Hd'g.
    apply valid_sector_range in Hdv.
    split.
    { intros b Hb Hne. rewrite <- Hiother by lia.
      pose proof (inode_bit_layout b Hb) as Hbl.
      unfold bitmap_bit. rewrite Hd'other by lia. rewrite HdX by lia.
      rewrite Hd2other by lia. reflexivity. }
    split.
    { intros s Hs Hne. rewrite <- HsX by assumption.
      pose proof (sector_bit_layout Hgeo s Hs) as Hsl.
      unfold bitmap_bit. rewrite Hd'other by lia. reflexivity. }
    split; [exact Hsf|]. split; [lia|exact Hlast]. }
  fold n.
  destruct (Z.eqb_spec (group * DIRENTS_PER_SECTOR) n) as [Enew|Eold].
  - (* a new sector for the entry *)
    destruct (bitmap_first_unused d2 SECTOR_BITMAP_START_SECTOR SECTOR_BITMAP_SECTORS
                SECTOR_BITMAP_SIZE) as [d3 newsec] eqn:Esec.
    destruct (Z.ltb_spec newsec 0) as [|Hn0]; [injection H as _ H; lia|].
    destruct (allocate_sector Hgeo _ _ _ Esec Hn0) as [Hsfree [_ [Hsother [Hnint _]]]].
    pose proof (allocate_frame _ _ _ _ _ _ Esec) as Hframe3.
    assert (Hnewdata : DATABLOCK_START_SECTOR <= newsec).
    { destruct (Z_lt_le_dec newsec DATABLOCK_START_SECTOR) as [Hlt|]; [|assumption].
      rewrite Hd2bits in Hsfree by lia. rewrite Hmeta in Hsfree by lia. discriminate. }
    assert (Hdsec : inode_data (set_inode_data pb poff group newsec) poff group = newsec).
    { apply data_set_data_same. unfold int_min. lia. }
    pose proof (add_dirent_found d3 parent (set_inode_data pb poff group newsec)
                  (mem_fill zero_mem 0 SECTOR_SIZE Byte.x00) file child d' n) as F.
    cbv zeta in F. fold ps poff group in F. rewrite Hdsec in F.
    destruct F as [F1 [F2 [F3 [F4 F5]]]]; try assumption; try lia.
    + unfold inode_size, set_inode_data. rewrite load_store_other by lia. exact Hpsize.
    + rewrite type_set_data by lia. exact Hpt.
    + intros g Hg. rewrite data_set_data_other by lia.
      destruct (Hold g Hg) as [Hv [Hd [Hb Hm]]].
      split; [exact Hv|]. split; [exact Hd|]. split.
      * intros E. rewrite E in Hb. apply valid_sector_range in Hv. rewrite E in Hv.
        rewrite Hd2bits in Hsfree by lia. rewrite Hb in Hsfree. discriminate.
      * intros i Hi. rewrite Hframe3 by lia. apply Hm. exact Hi.
    + apply (Hfinish d3 (set_inode_data pb poff group newsec) newsec); try assumption.
      * rewrite type_set_data by lia. exact Hpt.
      * intros x E Hx. unfold set_inode_data.
        destruct (slots_apart child parent Hcp E) as [Hs|Hs]; fold coff poff in Hs;
          (rewrite store_int_outside by (unfold sizeof_inode in *; lia));
          unfold pb; rewrite <- E; exact (f_equal (fun m => m x) Hd2cs).
      * intros s Hs. apply Hframe3. lia.
      * intros s Hs. rewrite Hsother by lia. rewrite Hd2bits by lia. apply Hmeta. exact Hs.
      * intros s Hs Hne. rewrite Hsother by lia. apply Hd2bits. exact Hs.
      * intros _. rewrite <- Hd2bits; [exact Hsfree|].
        apply valid_sector_range in F3. exact F3.
  - (* the entry joins the last sector *)
    assert (Hgn : group * DIRENTS_PER_SECTOR < n) by lia.
    destruct (Hblocks group) as [Hr Hb]; [lia|lia|].
    rewrite <- Hpdata in Hr, Hb by lia.
    destruct (Disk_Read d2 (inode_data pb poff group)) as [db|] eqn:Erd;
      [|injection H as _ H; lia].
    apply Disk_Read_Some in Erd. destruct Erd as [Hdv ->].
    pose proof (add_dirent_found d2 parent pb (d2 (inode_data pb poff group))
                  file child d' n) as F.
    cbv zeta in F. fold ps poff group in F.
    destruct F as [F1 [F2 [F3 [F4 F5]]]]; try assumption; try lia.
    + intros g Hg. destruct (Hold g Hg) as [Hv [Hd [Hb' Hm]]].
      split; [exact Hv|]. split; [exact Hd|]. split; [|exact Hm].
      rewrite !Hpdata by lia. apply Hdistinct; lia.
    + intros i Hi. rewrite Hd2data by lia. rewrite Hpdata by lia.
      apply Habsent; lia.
    + apply (Hfinish d2 pb (inode_data pb poff group)); try assumption; try lia.
      * intros x E Hx. unfold pb. rewrite <- E. exact (f_equal (fun m => m x) Hd2cs).
      * intros s Hs. reflexivity.
      * intros s Hs. rewrite Hd2bits by lia. apply Hmeta. exact Hs.
      * intros s Hs _. apply Hd2bits. exact Hs.
Qed.

Lemma add_inode_spec (d : disk) (type parent : Z) (file : cstring) (d' : disk) :
  metadata_reserved d ->
  dir_ready d parent file ->
  int_min <= type <= int_max ->
  add_inode d type parent file = Done (d', 0) ->
  exists child,
    0 <= child < MAX_FILES
    /\ child <> parent
    /\ bitmap_bit d INODE_BITMAP_START_SECTOR child = false
    /\ bitmap_bit d' INODE_BITMAP_START_SECTOR child = true
    /\ inode_type_of d' child = type
    /\ inode_size_of d' child = 0
    /\ inode_type_of d' parent = 1
    /\ inode_size_of d' parent = inode_size_of d parent + 1
    /\ metadata_reserved d'
    /\ find_child_inode d' parent file (inode_sector_of parent)
         (d' (inode_sector_of parent))
       = Done (child, inode_sector_of child, d' (inode_sector_of child)).
Proof.
  intros Hmeta Hready Htype H.
  destruct (add_inode_full d type parent file d' Hmeta Hready Htype H) as [child [Hs _]].
  exists child. exact Hs.
Qed.

End Creation.

(** ** Paths with one name, and opening what was created *)

Section Paths.
Context {G : geometry}.

Lemma follow_tokens_names (d : disk) (tokens : list cstring) :
  forall parent child csec cbuf last,
    follow_tokens d tokens parent child csec cbuf last
    = follow_tokens d
        (filter (fun t => match t with [] => false | _ => true end) tokens)
        parent child csec cbuf last.
Proof.
  induction tokens as [|token rest IH]; intros parent child csec cbuf last; [reflexivity|].
  destruct token as [|c token]; cbn [filter follow_tokens]; [apply IH|].
  destruct (negb (illegal_filename (c :: token) =? 0)); [reflexivity|].
  destruct (child <? 0); [reflexivity|].
  destruct (find_child_inode d child (c :: token) csec cbuf) as [[[r csec'] cbuf']|];
    cbn [bind]; [apply IH|reflexivity].
Qed.

Lemma follow_path_names (d : disk) (c : byte) (rest : cstring) :
  follow_path d (Some (c :: rest))
  = if negb (Byte.eqb c slash) then Done PathError
    else match Disk_Read d INODE_TABLE_START_SECTOR with
         | None => Done PathError
         | Some cbuf =>
             follow_tokens d (path_names (c :: rest)) (-1) 0
               INODE_TABLE_START_SECTOR cbuf []
         end.
Proof.
  unfold follow_path, path_names, path_components. cbn [tl].
  destruct (negb (Byte.eqb c slash)); [reflexivity|].
  destruct (Disk_Read d INODE_TABLE_START_SECTOR); [|reflexivity].
  apply follow_tokens_names.
Qed.


Lemma follow_path_one_name (d : disk) (c : byte) (rest name : cstring) :
  path_names (c :: rest) = [name] ->
  follow_path d (Some (c :: rest))
  = if negb (Byte.eqb c slash) then Done PathError
    else match Disk_Read d INODE_TABLE_START_SECTOR with
         | None => Done PathError
         | Some cbuf =>
             if negb (illegal_filename name =? 0) then Done PathError
             else
               '(r, csec', cbuf') <-
                 find_child_inode d 0 name INODE_TABLE_START_SECTOR cbuf ;;
               if r <? -1 then Done PathError else Done (PathOk 0 r name)
         end.
Proof.
  intros Hn. rewrite follow_path_names, Hn.
  destruct (negb (Byte.eqb c slash)); [reflexivity|].
  destruct (Disk_Read d INODE_TABLE_START_SECTOR) as [cbuf|]; [|reflexivity].
  assert (Hne : name <> []).
  { intros ->. assert (Hin : In [] (path_names (c :: rest))) by (rewrite Hn; left; reflexivity).
    unfold path_names in Hin. apply filter_In in Hin. destruct Hin as [_ Hf]. discriminate. }
  destruct name as [|c0 name]; [contradiction|].
  cbn [follow_tokens].
  destruct (negb (illegal_filename (c0 :: name) =? 0)); [reflexivity|].
  change (0 <? 0) with false. cbv iota.
  destruct (find_child_inode d 0 (c0 :: name) INODE_TABLE_START_SECTOR cbuf)
    as [[[r csec'] cbuf']|]; cbn [bind]; [|reflexivity].
  destruct (r <? -1); reflexivity.
Qed.

Lemma add_inode_ret (d : disk) (type parent : Z) (file : cstring) (d' : disk) (r : Z) :
  add_inode d type parent file = Done (d', r) -> 0 <= r -> r = 0.
Proof.
  intros H Hr. unfold add_inode, add_dirent in H.
  exec_cases H; injection H as _ <-; lia.
Qed.

End Paths.

Section CreateOpen.
Context {G : geometry}.
Hypothesis Hgeo : geometry_ok.
Hypothesis Hdir : directory_geometry.

(** X21: [add_inode] on a directory that has room and no entry of the
    name: when it returns 0, it has taken an inode that was free, marked
    it used, made it an empty inode of the requested type, lengthened
    the directory by one entry, and [find_child_inode] now finds the
    name in the directory, with that inode. *)
Theorem add_inode_then_find (d : disk) (type parent : Z) (file : cstring) (d' : disk) :
  metadata_reserved d ->
  dir_ready d parent file ->
  int_min <= type <= int_max ->
  add_inode d type parent file = Done (d', 0) ->
  exists child,
    0 <= child < MAX_FILES
    /\ child <> parent
    /\ bitmap_bit d INODE_BITMAP_START_SECTOR child = false
    /\ bitmap_bit d' INODE_BITMAP_START_SECTOR child = true
    /\ inode_type_of d' child = type
    /\ inode_size_of d' child = 0
    /\ inode_type_of d' parent = 1
    /\ inode_size_of d' parent = inode_size_of d parent + 1
    /\ metadata_reserved d'
    /\ find_child_inode d' parent file (inode_sector_of parent)
         (d' (inode_sector_of parent))
       = Done (child, inode_sector_of child, d' (inode_sector_of child)).
Proof. exact (add_inode_spec Hgeo Hdir d type parent file d'). Qed.

Lemma File_Create_Open_spec (st : state) (p name : cstring) (st' : state) :
  metadata_reserved (st_disk st) ->
  path_names p = [name] ->
  dir_ready (st_disk st) 0 name ->
  File_Create st (Some p) = Done (st', 0) ->
  exists child,
    0 < child < MAX_FILES
    /\ bitmap_bit (st_disk st) INODE_BITMAP_START_SECTOR child = false
    /\ follow_path (st_disk st') (Some p) = Done (PathOk 0 child name)
    /\ metadata_reserved (st_disk st')
    /\ open_files st' = open_files st
    /\ (new_file_fd st' < 0 ->
        File_Open st' (Some p) = Done (set_errno st' E_TOO_MANY_OPEN_FILES, -1))
    /\ (0 <= new_file_fd st' ->
        exists st'',
          File_Open st' (Some p) = Done (st'', new_file_fd st')
          /\ of_inode (open_files st'' (new_file_fd st')) = child
          /\ fresh_open_file st'' (new_file_fd st')).
Proof.
  intros Hmeta Hn Hready H.
  pose proof (ok_inodes_per_sector Hgeo) as Hips.
  unfold File_Create, create_file_or_directory in H. unfold cstring in *.
  destruct p as [|c rest]; [discriminate|].
  pose proof (follow_path_one_name (st_disk st) c rest name Hn) as HR.
  destruct (follow_path (st_disk st) (Some (c :: rest))) as [[|parent ch last]|] eqn:ER;
    cbn [bind] in H; try discriminate H.
  destruct (negb (Byte.eqb c slash)) eqn:Ec; [discriminate|].
  destruct (Disk_Read (st_disk st) INODE_TABLE_START_SECTOR) as [cbuf|] eqn:Erd;
    [|discriminate].
  apply Disk_Read_Some in Erd. destruct Erd as [Hv0 ->].
  destruct (negb (illegal_filename name =? 0)) eqn:Eill; [discriminate|].
  symmetry in HR. apply bind_Done in HR.
  destruct HR as [[[r csec] cbuf] [Efind HR]].
  destruct (r <? -1); [discriminate|]. injection HR as <- <- <-.
  destruct (Z.leb_spec 0 0); [|lia].
  destruct (Z.leb_spec 0 r); [discriminate|].
  destruct (add_inode (st_disk st) 0 0 name) as [[d' ret]|] eqn:Eadd;
    cbn [bind] in H; [|discriminate].
  destruct (Z.leb_spec 0 ret) as [Hret|]; [|discriminate].
  injection H as <-.
  apply add_inode_ret in Eadd as Hret0; [|exact Hret]. subst ret.
  assert (Hint : int_min <= 0 <= int_max) by (unfold int_min, int_max; lia).
  destruct (add_inode_spec Hgeo Hdir (st_disk st) 0 0 name d' Hmeta Hready Hint Eadd)
    as [child [Hc [Hcp [Hfree [Hset [Hty [Hsz [_ [_ [Hmeta' Hfind]]]]]]]]]].
  assert (Hroot : inode_sector_of 0 = INODE_TABLE_START_SECTOR).
  { unfold inode_sector_of. change (0 ÷ INODES_PER_SECTOR) with 0. ring. }
  rewrite Hroot in Hfind.
  assert (Hpath : follow_path d' (Some (c :: rest)) = Done (PathOk 0 child name)).
  { rewrite (follow_path_one_name d' c rest name Hn), Ec.
    unfold Disk_Read. rewrite Hv0, Eill, Hfind. cbn [bind].
    destruct (Z.ltb_spec child (-1)); [lia|reflexivity]. }
  pose proof (inode_sector_valid Hgeo child ltac:(lia)) as Hcv.
  pose proof (inode_offset_range Hips child ltac:(lia)) as Hcr. cbv zeta in Hcr.
  exists child. split; [lia|]. split; [exact Hfree|].
  cbn [set_disk st_disk open_files].
  split; [exact Hpath|]. split; [exact Hmeta'|]. split; [reflexivity|].
  split.
  - intros Hfull. unfold File_Open.
    destruct (Z.ltb_spec (new_file_fd (set_disk st d')) 0); [reflexivity|lia].
  - intros Hfd. unfold File_Open.
    destruct (Z.ltb_spec (new_file_fd (set_disk st d')) 0); [lia|].
    cbn [set_disk st_disk]. rewrite Hpath. cbn [bind].
    destruct (Z.leb_spec 0 child); [|lia].
    fold (inode_sector_of child). unfold Disk_Read. rewrite Hcv, Hcr.
    cbn [assert bind]. fold (inode_offset_of child).
    fold (inode_type_of d' child). fold (inode_size_of d' child).
    rewrite Hty, Hsz. cbn [Z.eqb negb].
    eexists. split; [reflexivity|].
    set (fd := new_file_fd (set_disk st d')).
    assert (Hrange : 0 <= fd < MAX_OPEN_FILES).
    { unfold fd. destruct (new_file_fd_least (set_disk st d')) as [[E _]|[Hr _]]; lia. }
    split.
    + cbn [set_open_file open_files]. rewrite Z.eqb_refl. reflexivity.
    + constructor; cbn [set_open_file open_files st_disk]; rewrite ?Z.eqb_refl;
        cbn [of_inode of_size of_pos]; try reflexivity; try assumption; lia.
Qed.

(** X22: a file created in the root directory can be opened: when
    [File_Create] returns 0 on a path with one name that the root did
    not hold, the path resolves to a new inode, and [File_Open] on the
    same path either finds the open-file table full or returns the
    lowest free descriptor, for an empty file at offset 0. *)
Theorem File_Create_then_Open (st : state) (p name : cstring) (st' : state) :
  metadata_reserved (st_disk st) ->
  path_names p = [name] ->
  dir_ready (st_disk st) 0 name ->
  File_Create st (Some p) = Done (st', 0) ->
  exists child,
    0 < child < MAX_FILES
    /\ bitmap_bit (st_disk st) INODE_BITMAP_START_SECTOR child = false
    /\ follow_path (st_disk st') (Some p) = Done (PathOk 0 child name)
    /\ metadata_reserved (st_disk st')
    /\ open_files st' = open_files st
    /\ (new_file_fd st' < 0 ->
        File_Open st' (Some p) = Done (set_errno st' E_TOO_MANY_OPEN_FILES, -1))
    /\ (0 <= new_file_fd st' ->
        exists st'',
          File_Open st' (Some p) = Done (st'', new_file_fd st')
          /\ of_inode (open_files st'' (new_file_fd st')) = child
          /\ fresh_open_file st'' (new_file_fd st')).
Proof. exact (File_Create_Open_spec st p name st'). Qed.

End CreateOpen.

(** ** Room for a new entry *)

Section Room.
Context {G : geometry}.
Hypothesis Hgeo : geometry_ok.
Hypothesis Hdir : directory_geometry.

Lemma add_inode_room (d : disk) (type parent : Z) (file : cstring) (b s : Z) :
  metadata_reserved d ->
  dir_ready d parent file ->
  inode_type_of d parent = 1 ->
  0 <= b < MAX_FILES -> bitmap_bit d INODE_BITMAP_START_SECTOR b = false ->
  0 <= s < TOTAL_SECTORS -> bitmap_bit d SECTOR_BITMAP_START_SECTOR s = false ->
  exists d', add_inode d type parent file = Done (d', 0).
Proof.
  intros Hmeta Hready Hptype Hb Hbfree Hs Hsfree.
  destruct Hready as [Hparent Hused Hroom Hblocks Hdistinct Hname Habsent].
  pose proof (ok_sector_size Hgeo) as Hss.
  pose proof (ok_inodes_per_sector Hgeo) as Hips.
  pose proof (ok_file_sectors Hgeo) as Hmspf.
  pose proof (ok_metadata Hgeo) as Hfit.
  pose proof (dir_dirents_per_sector Hdir) as Hdps.
  pose proof (dir_inode_int Hdir) as Hmaxint.
  pose proof (dir_inode_numbers Hdir) as Hnumbers.
  pose proof (layout_nonneg Hgeo) as [Hl1 [Hl2 Hl3]].
  pose proof (bitmaps_cover Hgeo) as [Hc1 [Hc2 _]].
  assert (Hlay : INODE_BITMAP_START_SECTOR = 1
                 /\ SECTOR_BITMAP_START_SECTOR = 1 + INODE_BITMAP_SECTORS
                 /\ INODE_TABLE_START_SECTOR
                    = 1 + INODE_BITMAP_SECTORS + SECTOR_BITMAP_SECTORS
                 /\ DATABLOCK_START_SECTOR
                    = 1 + INODE_BITMAP_SECTORS + SECTOR_BITMAP_SECTORS
                      + INODE_TABLE_SECTORS).
  { unfold DATABLOCK_START_SECTOR, INODE_TABLE_START_SECTOR, SECTOR_BITMAP_START_SECTOR,
      INODE_BITMAP_START_SECTOR. lia. }
  destruct Hlay as [La [Lb [Lc Ld]]].
  assert (Hvalid : forall x, 0 <= x < DATABLOCK_START_SECTOR -> valid_sector x = true).
  { intros x Hx. apply valid_sector_range. lia. }
  assert (Hbsize : MAX_FILES <= 8 * INODE_BITMAP_SIZE
                   /\ TOTAL_SECTORS <= 8 * SECTOR_BITMAP_SIZE).
  { unfold INODE_BITMAP_SIZE, SECTOR_BITMAP_SIZE. pose proof (ok_max_files Hgeo).
    pose proof (ok_total_sectors Hgeo).
    destruct (quot_ceil_gt MAX_FILES 8) as [_ H1]; [lia|lia|].
    destruct (quot_ceil_gt TOTAL_SECTORS 8) as [_ H2]; [lia|lia|].
    replace (MAX_FILES + 8 - 1) with (MAX_FILES + 7) in H1 by ring.
    replace (TOTAL_SECTORS + 8 - 1) with (TOTAL_SECTORS + 7) in H2 by ring. lia. }
  destruct Hbsize as [Hb1 Hb2].
  unfold add_inode.
  pose proof (bitmap_first_unused_finds (ok_sector_size Hgeo) d INODE_BITMAP_START_SECTOR INODE_BITMAP_SECTORS
                INODE_BITMAP_SIZE b ltac:(intros; apply Hvalid; lia) ltac:(lia) ltac:(lia)
                Hbfree) as Hchild.
  destruct (bitmap_first_unused d INODE_BITMAP_START_SECTOR INODE_BITMAP_SECTORS
              INODE_BITMAP_SIZE) as [d1 child] eqn:Ealloc.
  cbn [snd] in Hchild.
  destruct (Z.ltb_spec child 0) as [|Hc0]; [lia|].
  destruct (allocate_inode Hgeo Hdir _ _ _ Ealloc Hc0) as [Hfree [Hset [Hcmax _]]].
  pose proof (allocate_frame Hgeo _ _ _ _ _ _ Ealloc) as Hframe1.
  assert (Hcp : child <> parent).
  { intros ->. rewrite Hused in Hfree. discriminate. }
  cbv zeta.
  change (INODE_TABLE_START_SECTOR + child ÷ INODES_PER_SECTOR)
    with (inode_sector_of child).
  change (INODE_TABLE_START_SECTOR + parent ÷ INODES_PER_SECTOR)
    with (inode_sector_of parent).
  change ((child - (inode_sector_of child - INODE_TABLE_START_SECTOR) * INODES_PER_SECTOR)
          * sizeof_inode) with (inode_offset_of child).
  change ((parent - (inode_sector_of parent - INODE_TABLE_START_SECTOR) * INODES_PER_SECTOR)
          * sizeof_inode) with (inode_offset_of parent).
  pose proof (inode_sector_valid Hgeo child ltac:(lia)) as Hcv.
  pose proof (inode_sector_valid Hgeo parent Hparent) as Hpv.
  pose proof (inode_sector_layout Hgeo child ltac:(lia)) as Hcl.
  pose proof (inode_sector_layout Hgeo parent Hparent) as Hpl.
  pose proof (inode_offset_range Hips child Hc0) as Hcr. cbv zeta in Hcr.
  pose proof (inode_offset_range Hips parent ltac:(lia)) as Hpr. cbv zeta in Hpr.
  set (cs := inode_sector_of child) in *.
  set (ps := inode_sector_of parent) in *.
  set (coff := inode_offset_of child) in *.
  set (poff := inode_offset_of parent) in *.
  set (n := inode_size_of d parent) in *.
  unfold Disk_Read at 1. rewrite Hcv, Hcr. cbn [assert bind].
  unfold Disk_Write at 1. rewrite Hcv.
  set (cb := set_inode_type (mem_fill (d1 cs) coff sizeof_inode Byte.x00) coff type).
  match goal with
  | |- context [Disk_Read ?dd ps] => set (d2 := dd)
  end.
  assert (Hd2cs : d2 cs = cb) by (unfold d2; rewrite Z.eqb_refl; reflexivity).
  assert (Hd2other : forall x, x <> cs -> d2 x = d1 x).
  { intros x Hx. unfold d2. destruct (Z.eqb_spec x cs); [contradiction|reflexivity]. }
  clearbody d2.
  unfold Disk_Read at 1. rewrite Hpv, Hpr. cbn [assert bind].
  set (pb := d2 ps) in *.
  assert (Hslot : forall x, poff <= x < poff + sizeof_inode -> pb x = d ps x).
  { intros x Hx. unfold pb. destruct (Z.eq_dec ps cs) as [E|Hne].
    - rewrite E, Hd2cs. unfold cb. rewrite (child_slot_frame Hgeo).
      + rewrite Hframe1 by lia. reflexivity.
      + destruct (slots_apart Hgeo child parent Hcp) as [Hx'|Hx']; [symmetry; exact E| |];
          fold coff poff in Hx'; lia.
    - rewrite Hd2other by exact Hne. rewrite Hframe1 by lia. reflexivity. }
  assert (Hpsize : inode_size pb poff = n).
  { unfold n, inode_size_of, inode_size. apply load_int_ext.
    intros x Hx. apply Hslot. unfold sizeof_inode. lia. }
  assert (Hpt : inode_type pb poff = 1).
  { rewrite <- Hptype. unfold inode_type_of, inode_type. apply load_int_ext.
    intros x Hx. apply Hslot. unfold sizeof_inode. lia. }
  assert (Hpdata : forall g, 0 <= g < MAX_SECTORS_PER_FILE ->
            inode_data pb poff g = inode_data_of d parent g).
  { intros g Hg. unfold inode_data_of, inode_data. apply load_int_ext.
    intros x Hx. apply Hslot. unfold sizeof_inode. lia. }
  rewrite Hpt, Hpsize. cbn [Z.eqb Pos.eqb negb].
  destruct (dirent_split Hdir n) as [Hgroup Hoff]; [lia|].
  set (group := n ÷ DIRENTS_PER_SECTOR) in *.
  assert (Hgmax : group < MAX_SECTORS_PER_FILE) by nia.
  assert (Hd2bits : forall x, 0 <= x < TOTAL_SECTORS ->
            bitmap_bit d2 SECTOR_BITMAP_START_SECTOR x
            = bitmap_bit d SECTOR_BITMAP_START_SECTOR x).
  { intros x Hx. pose proof (sector_bit_layout Hgeo x Hx) as Hsl.
    unfold bitmap_bit. rewrite Hd2other by lia. rewrite Hframe1 by lia. reflexivity. }
  destruct (Z.eqb_spec (group * DIRENTS_PER_SECTOR) n) as [Enew|Eold].
  - pose proof (bitmap_first_unused_finds (ok_sector_size Hgeo) d2 SECTOR_BITMAP_START_SECTOR
                  SECTOR_BITMAP_SECTORS SECTOR_BITMAP_SIZE s
                  ltac:(intros; apply Hvalid; lia) ltac:(lia) ltac:(lia)) as Hnew.
    rewrite Hd2bits in Hnew by exact Hs. specialize (Hnew Hsfree).
    destruct (bitmap_first_unused d2 SECTOR_BITMAP_START_SECTOR SECTOR_BITMAP_SECTORS
                SECTOR_BITMAP_SIZE) as [d3 newsec] eqn:Esec.
    cbn [snd] in Hnew.
    destruct (Z.ltb_spec newsec 0) as [|Hn0]; [lia|].
    destruct (allocate_sector Hgeo _ _ _ Esec Hn0) as [_ [_ [_ [Hnint _]]]].
    unfold add_dirent.
    rewrite data_set_data_same by (unfold int_min; lia).
    unfold Disk_Write.
    assert (Hnv : valid_sector newsec = true) by (apply valid_sector_range; lia).
    rewrite Hnv, Hpv. eexists. reflexivity.
  - destruct (Hblocks group) as [Hr _]; [lia|lia|].
    rewrite <- Hpdata in Hr by lia.
    assert (Hdv : valid_sector (inode_data pb poff group) = true)
      by (apply valid_sector_range; lia).
    unfold Disk_Read. rewrite Hdv. unfold add_dirent, Disk_Write.
    rewrite Hdv, Hpv. eexists. reflexivity.
Qed.

(** X23: [add_inode] succeeds when there is room: on a directory that
    can take the entry, with a free inode and a free sector on the
    disk, it returns 0. *)
Theorem add_inode_succeeds (d : disk) (type parent : Z) (file : cstring) (b s : Z) :
  metadata_reserved d ->
  dir_ready d parent file ->
  inode_type_of d parent = 1 ->
  0 <= b < MAX_FILES -> bitmap_bit d INODE_BITMAP_START_SECTOR b = false ->
  0 <= s < TOTAL_SECTORS -> bitmap_bit d SECTOR_BITMAP_START_SECTOR s = false ->
  exists d', add_inode d type parent file = Done (d', 0).
Proof. exact (add_inode_room d type parent file b s). Qed.

End Room.

(** ** The first file of a new volume *)

Section FirstFile.
Context {G : geometry}.
Hypothesis Hgeo : geometry_ok.
Hypothesis Hdir : directory_geometry.

(** X24: on a new volume with a spare inode, a spare data sector and
    room in an inode, [File_Create] on a path with one name of fewer
    than [MAX_NAME] bytes returns 0, and [File_Open] on that path then
    returns descriptor 0, for an empty file at offset 0 on a disk
    whose metadata sectors are marked used. *)
Theorem new_volume_first_file (p name : cstring) :
  1 < MAX_FILES ->
  DATABLOCK_START_SECTOR < TOTAL_SECTORS ->
  0 < MAX_SECTORS_PER_FILE ->
  hd_error p = Some slash ->
  path_names p = [name] ->
  Z.of_nat (List.length name) < MAX_NAME ->
  exists st' st'',
    File_Create (fst (FS_Boot None)) (Some p) = Done (st', 0)
    /\ File_Open st' (Some p) = Done (st'', 0)
    /\ fresh_open_file st'' 0
    /\ metadata_reserved (st_disk st'').
Proof.
  intros Hfiles Hdata Hmspf Hhd Hn Hlen.
  pose proof (ok_inodes_per_sector Hgeo) as Hips.
  pose proof (ok_metadata Hgeo) as Hfit.
  pose proof (dir_dirents_per_sector Hdir) as Hdps.
  pose proof (layout_nonneg Hgeo) as [Hl1 [Hl2 Hl3]].
  destruct (format_spec Hgeo blank_disk) as [d0 [E [_ [Hi [Hs [Hty [Hsz _]]]]]]].
  unfold FS_Boot. rewrite E. cbn [fst].
  set (st0 := {| st_disk := d0; open_files := no_open_files; osErrno := E_NONE |}).
  assert (Hmeta : metadata_reserved d0).
  { intros s Hs0. rewrite Hs by lia. apply Z.ltb_lt. lia. }
  assert (Hready : dir_ready d0 0 name).
  { constructor.
    - lia.
    - rewrite Hi by lia. reflexivity.
    - rewrite Hsz. nia.
    - intros g Hg Hlt. rewrite Hsz in Hlt. nia.
    - intros g g' Hg Hlt. rewrite Hsz in Hlt. nia.
    - exact Hlen.
    - intros g i Hg Hi0 Hlt. rewrite Hsz in Hlt. nia. }
  assert (Hroot : inode_sector_of 0 = INODE_TABLE_START_SECTOR).
  { unfold inode_sector_of. change (0 ÷ INODES_PER_SECTOR) with 0. ring. }
  assert (Hroot0 : inode_offset_of 0 = 0).
  { unfold inode_offset_of. rewrite Hroot. ring. }
  pose proof Hty as Hty0.
  unfold inode_type_of in Hty. unfold inode_size_of in Hsz.
  rewrite Hroot, Hroot0 in Hty, Hsz.
  assert (Hv0 : valid_sector INODE_TABLE_START_SECTOR = true).
  { apply valid_sector_range.
    unfold DATABLOCK_START_SECTOR, INODE_TABLE_START_SECTOR, SECTOR_BITMAP_START_SECTOR,
      INODE_BITMAP_START_SECTOR in *. pose proof (bitmaps_cover Hgeo). lia. }
  destruct p as [|c rest]; [discriminate|]. injection Hhd as ->.
  assert (Hpath : follow_path d0 (Some (slash :: rest)) = Done (PathOk 0 (-1) name)).
  { rewrite (follow_path_one_name d0 slash rest name Hn).
    change (negb (Byte.eqb slash slash)) with false. cbv iota.
    unfold Disk_Read. rewrite Hv0.
    rewrite illegal_filename_short by (unfold MAX_NAME in *; lia).
    change (negb (0 =? 0)) with false. cbv iota.
    unfold find_child_inode.
    replace (0 - (INODE_TABLE_START_SECTOR - INODE_TABLE_START_SECTOR) * INODES_PER_SECTOR)
      with 0 by ring.
    change (0 <=? 0) with true. destruct (Z.ltb_spec 0 INODES_PER_SECTOR); [|lia].
    cbn [andb assert bind]. change (0 * sizeof_inode) with 0.
    rewrite Hty, Hsz. reflexivity. }
  assert (Hdrange : 0 <= DATABLOCK_START_SECTOR < TOTAL_SECTORS).
  { unfold DATABLOCK_START_SECTOR, INODE_TABLE_START_SECTOR, SECTOR_BITMAP_START_SECTOR,
      INODE_BITMAP_START_SECTOR in *. lia. }
  assert (Hifree : bitmap_bit d0 INODE_BITMAP_START_SECTOR 1 = false).
  { rewrite Hi by lia. reflexivity. }
  assert (Hsfree : bitmap_bit d0 SECTOR_BITMAP_START_SECTOR DATABLOCK_START_SECTOR = false).
  { rewrite Hs by exact Hdrange. apply Z.ltb_irrefl. }
  destruct (add_inode_room Hgeo Hdir d0 0 0 name 1 DATABLOCK_START_SECTOR
              Hmeta Hready Hty0 ltac:(lia) Hifree Hdrange Hsfree) as [d' Eadd].
  assert (Hcreate : File_Create st0 (Some (slash :: rest)) = Done (set_disk st0 d', 0)).
  { unfold File_Create, create_file_or_directory. unfold cstring in *.
    cbn [st0 st_disk]. rewrite Hpath. cbn [bind].
    change (0 <=? 0) with true. change (0 <=? -1) with false. cbv iota.
    rewrite Eadd. reflexivity. }
  destruct (File_Create_Open_spec Hgeo Hdir st0 (slash :: rest) name (set_disk st0 d'))
    as [child [Hc [_ [_ [Hmeta' [_ [_ Hopen]]]]]]]; try assumption.
  assert (Hfd : new_file_fd (set_disk st0 d') = 0) by reflexivity.
  rewrite Hfd in Hopen. destruct Hopen as [st'' [Eopen [_ Hfresh]]]; [lia|].
  exists (set_disk st0 d'), st''. split; [exact Hcreate|]. split; [exact Eopen|].
  split; [exact Hfresh|].
  apply File_Open_disk in Eopen. rewrite Eopen. exact Hmeta'.
Qed.

End FirstFile.

(** ** Removing the last entry *)

Lemma load_int_shift (m m' : mem) (a b : Z) :
  (forall i, 0 <= i < 4 -> m (a + i) = m' (b + i)) -> load_int m a = load_int m' b.
Proof.
  intros H. unfold load_int.
  pose proof (H 0 ltac:(lia)) as H0. rewrite !Z.add_0_r in H0.
  rewrite H0, (H 1), (H 2), (H 3) by lia. reflexivity.
Qed.

Section Removal.
Context {G : geometry}.
Hypothesis Hgeo : geometry_ok.
Hypothesis Hdir : directory_geometry.

Lemma remove_inode_last_spec (d : disk) (type parent child m : Z) :
  let group := m ÷ DIRENTS_PER_SECTOR in
  let off := m - group * DIRENTS_PER_SECTOR in
  let dsec := inode_data_of d parent group in
  0 <= child < MAX_FILES ->
  0 <= parent < MAX_FILES ->
  inode_type_of d child = type ->
  inode_size_of d child = 0 ->
  inode_type_of d parent = 1 ->
  inode_size_of d parent = m + 1 ->
  0 <= m ->
  DATABLOCK_START_SECTOR <= dsec < TOTAL_SECTORS ->
  dirent_inode (d dsec) (off * sizeof_dirent) = child ->
  exists d',
    remove_inode d type parent child = Done (d', 0)
    /\ (forall b, 0 <= b < MAX_FILES ->
          bitmap_bit d' INODE_BITMAP_START_SECTOR b
          = if b =? child then false else bitmap_bit d INODE_BITMAP_START_SECTOR b)
    /\ (forall s, 0 <= s < TOTAL_SECTORS ->
          bitmap_bit d' SECTOR_BITMAP_START_SECTOR s
          = if (off =? 0) && (s =? dsec) then false
            else bitmap_bit d SECTOR_BITMAP_START_SECTOR s)
    /\ inode_type_of d' parent = 1
    /\ inode_size_of d' parent = m
    /\ (forall s, DATABLOCK_START_SECTOR <= s -> d' s = d s).
Proof.
  intros group off dsec Hchild Hparent Hctype Hcsize Hptype Hpsize Hm Hdsec Hlast.
  pose proof (ok_sector_size Hgeo) as Hss.
  pose proof (ok_inodes_per_sector Hgeo) as Hips.
  pose proof (ok_metadata Hgeo) as Hfit.
  pose proof (dir_dirents_per_sector Hdir) as Hdps.
  pose proof (layout_nonneg Hgeo) as [Hl1 [Hl2 Hl3]].
  assert (Hlay : INODE_BITMAP_START_SECTOR = 1
                 /\ SECTOR_BITMAP_START_SECTOR = 1 + INODE_BITMAP_SECTORS
                 /\ INODE_TABLE_START_SECTOR
                    = 1 + INODE_BITMAP_SECTORS + SECTOR_BITMAP_SECTORS).
  { unfold INODE_TABLE_START_SECTOR, SECTOR_BITMAP_START_SECTOR,
      INODE_BITMAP_START_SECTOR. lia. }
  destruct Hlay as [La [Lb Lc]].
  destruct (dirent_split Hdir m Hm) as [Hgroup Hoff]. fold group in Hgroup, Hoff.
  fold off in Hoff.
  pose proof (inode_sector_valid Hgeo child Hchild) as Hcv.
  pose proof (inode_sector_valid Hgeo parent Hparent) as Hpv.
  pose proof (inode_sector_layout Hgeo child Hchild) as Hcl.
  pose proof (inode_sector_layout Hgeo parent Hparent) as Hpl.
  pose proof (inode_offset_range Hips child ltac:(lia)) as Hcr. cbv zeta in Hcr.
  pose proof (inode_offset_range Hips parent ltac:(lia)) as Hpr. cbv zeta in Hpr.
  pose proof (inode_bit_layout Hgeo child Hchild) as Hibit.
  pose proof (sector_bit_layout Hgeo dsec ltac:(lia)) as Hsbit.
  pose proof (load_int_range (d (inode_sector_of parent)) (inode_offset_of parent)) as Hmint.
  fold (inode_size (d (inode_sector_of parent)) (inode_offset_of parent)) in Hmint.
  fold (inode_size_of d parent) in Hmint. rewrite Hpsize in Hmint.
  unfold inode_type_of in Hctype, Hptype. unfold inode_size_of in Hcsize, Hpsize.
  unfold inode_data_of in dsec.
  unfold remove_inode. cbv zeta.
  change (INODE_TABLE_START_SECTOR + child ÷ INODES_PER_SECTOR)
    with (inode_sector_of child).
  change (INODE_TABLE_START_SECTOR + parent ÷ INODES_PER_SECTOR)
    with (inode_sector_of parent).
  change ((child - (inode_sector_of child - INODE_TABLE_START_SECTOR) * INODES_PER_SECTOR)
          * sizeof_inode) with (inode_offset_of child).
  change ((parent - (inode_sector_of parent - INODE_TABLE_START_SECTOR) * INODES_PER_SECTOR)
          * sizeof_inode) with (inode_offset_of parent).
  set (cs := inode_sector_of child) in *.
  set (ps := inode_sector_of parent) in *.
  set (coff := inode_offset_of child) in *.
  set (poff := inode_offset_of parent) in *.
  unfold Disk_Read at 1. rewrite Hcv, Hcr. cbn [assert bind].
  rewrite Hctype, Z.eqb_refl, Hcsize. cbn [negb].
  change (0 <? 0) with false. rewrite andb_false_r.
  change (0 ÷ SECTOR_SIZE) with 0. cbn [Z.to_nat reclaim_blocks].
  assert (Hskip : (if type =? 0 then Done d else Done d) = Done d)
    by (destruct (type =? 0); reflexivity).
  rewrite Hskip. cbn [bind].
  destruct (bitmap_reset_spec Hss d INODE_BITMAP_START_SECTOR INODE_BITMAP_SECTORS child
              ltac:(lia)) as [_ HresetA].
  destruct HresetA as [dA [EA [HAclear [HAother HAframe]]]];
    [lia|apply valid_sector_range; lia|].
  rewrite EA. cbn [bind].
  assert (HdA : forall s, SECTOR_BITMAP_START_SECTOR <= s -> dA s = d s).
  { intros s Hs. apply HAframe. lia. }
  unfold Disk_Read at 1. rewrite Hpv, Hpr. cbn [assert bind].
  rewrite (HdA ps) by lia. rewrite Hptype. cbn [Z.eqb Pos.eqb assert bind].
  rewrite Hpsize. replace (m + 1 - 1) with m by ring.
  rewrite size_set_size by (unfold int_min; lia).
  fold group. rewrite data_set_size by lia. fold dsec. fold off.
  assert (Hdv : valid_sector dsec = true) by (apply valid_sector_range; lia).
  unfold Disk_Read at 1. rewrite Hdv.
  rewrite (HdA dsec) by lia.
  assert (Hlast' : dirent_inode
                     (memcpy zero_mem 0 (d dsec) (off * sizeof_dirent) sizeof_dirent) 0
                   = child).
  { rewrite <- Hlast. unfold dirent_inode. apply load_int_shift.
    intros i Hi. unfold memcpy, sizeof_dirent, MAX_NAME.
    destruct (Z.leb_spec 0 (0 + 16 + i)); [|lia].
    destruct (Z.ltb_spec (0 + 16 + i) (0 + (16 + 4))); [|lia].
    cbn [andb]. f_equal. lia. }
  rewrite Hlast', Z.eqb_refl.
  assert (Hreset : exists dB,
            (if off =? 0
             then '(d0, _) <- bitmap_reset dA SECTOR_BITMAP_START_SECTOR
                               SECTOR_BITMAP_SECTORS dsec ;; Done d0
             else Done dA) = Done dB
            /\ (forall s, 0 <= s < TOTAL_SECTORS ->
                  bitmap_bit dB SECTOR_BITMAP_START_SECTOR s
                  = if (off =? 0) && (s =? dsec) then false
                    else bitmap_bit dA SECTOR_BITMAP_START_SECTOR s)
            /\ (forall s, s < SECTOR_BITMAP_START_SECTOR \/ INODE_TABLE_START_SECTOR <= s ->
                  dB s = dA s)).
  { destruct (Z.eqb_spec off 0) as [E0|N0].
    - destruct (bitmap_reset_spec Hss dA SECTOR_BITMAP_START_SECTOR SECTOR_BITMAP_SECTORS
                  dsec ltac:(lia)) as [_ HresetB].
      destruct HresetB as [dB [EB [HBclear [HBother HBframe]]]];
        [lia|apply valid_sector_range; lia|].
      exists dB. rewrite EB. cbn [bind]. split; [reflexivity|]. split.
      + intros s Hs. cbn [andb]. destruct (Z.eqb_spec s dsec) as [->|Hne];
          [exact HBclear|apply HBother; lia].
      + intros s Hs. apply HBframe. lia.
    - exists dA. split; [reflexivity|]. split; [|reflexivity].
      intros s Hs. reflexivity. }
  destruct Hreset as [dB [EB [HBbits HBframe]]].
  rewrite EB. cbn [bind]. unfold Disk_Write. rewrite Hpv.
  eexists. split; [reflexivity|].
  assert (Hbitframe : forall start b,
            start + (b ÷ 8) ÷ SECTOR_SIZE <> ps ->
            bitmap_bit (fun s' : Z => if s' =? ps then set_inode_size (d ps) poff m
                                      else dB s') start b
            = bitmap_bit dB start b).
  { intros start b Hne. unfold bitmap_bit.
    destruct (Z.eqb_spec (start + (b ÷ 8) ÷ SECTOR_SIZE) ps); [contradiction|reflexivity]. }
  split.
  { intros b Hb. pose proof (inode_bit_layout Hgeo b Hb) as Hbl.
    rewrite Hbitframe by lia.
    transitivity (bitmap_bit dA INODE_BITMAP_START_SECTOR b).
    - unfold bitmap_bit. rewrite HBframe by lia. reflexivity.
    - destruct (Z.eqb_spec b child) as [->|Hne]; [exact HAclear|apply HAother; lia]. }
  split.
  { intros s Hs. pose proof (sector_bit_layout Hgeo s Hs) as Hsl.
    rewrite Hbitframe by lia. rewrite HBbits by exact Hs.
    destruct ((off =? 0) && (s =? dsec)); [reflexivity|].
    unfold bitmap_bit. rewrite HdA by lia. reflexivity. }
  split.
  { unfold inode_type_of. fold ps poff. rewrite Z.eqb_refl.
    rewrite type_set_size. exact Hptype. }
  split.
  { unfold inode_size_of. fold ps poff. rewrite Z.eqb_refl.
    apply size_set_size. unfold int_min. lia. }
  intros s Hs. destruct (Z.eqb_spec s ps); [lia|].
  rewrite HBframe by lia. apply HdA. lia.
Qed.

(** X25: [remove_inode] on the last entry of a directory, for an
    empty file or an empty directory: it returns 0, clears the bit of
    the inode, gives back the sector of the entry when the entry was
    alone in it, shortens the directory by one entry and touches no
    data sector. *)
Theorem remove_inode_last_entry (d : disk) (type parent child m : Z) :
  let group := m ÷ DIRENTS_PER_SECTOR in
  let off := m - group * DIRENTS_PER_SECTOR in
  let dsec := inode_data_of d parent group in
  0 <= child < MAX_FILES ->
  0 <= parent < MAX_FILES ->
  inode_type_of d child = type ->
  inode_size_of d child = 0 ->
  inode_type_of d parent = 1 ->
  inode_size_of d parent = m + 1 ->
  0 <= m ->
  DATABLOCK_START_SECTOR <= dsec < TOTAL_SECTORS ->
  dirent_inode (d dsec) (off * sizeof_dirent) = child ->
  exists d',
    remove_inode d type parent child = Done (d', 0)
    /\ (forall b, 0 <= b < MAX_FILES ->
          bitmap_bit d' INODE_BITMAP_START_SECTOR b
          = if b =? child then false else bitmap_bit d INODE_BITMAP_START_SECTOR b)
    /\ (forall s, 0 <= s < TOTAL_SECTORS ->
          bitmap_bit d' SECTOR_BITMAP_START_SECTOR s
          = if (off =? 0) && (s =? dsec) then false
            else bitmap_bit d SECTOR_BITMAP_START_SECTOR s)
    /\ inode_type_of d' parent = 1
    /\ inode_size_of d' parent = m
    /\ (forall s, DATABLOCK_START_SECTOR <= s -> d' s = d s).
Proof. exact (remove_inode_last_spec d type parent child m). Qed.

Lemma add_remove_spec (d : disk) (type parent : Z) (file : cstring) (d' : disk) :
  metadata_reserved d ->
  dir_ready d parent file ->
  int_min <= type <= int_max ->
  add_inode d type parent file = Done (d', 0) ->
  exists child d'',
    find_child_inode d' parent file (inode_sector_of parent) (d' (inode_sector_of parent))
    = Done (child, inode_sector_of child, d' (inode_sector_of child))
    /\ bitmap_bit d INODE_BITMAP_START_SECTOR child = false
    /\ remove_inode d' type parent child = Done (d'', 0)
    /\ (forall b, 0 <= b < MAX_FILES ->
          bitmap_bit d'' INODE_BITMAP_START_SECTOR b
          = bitmap_bit d INODE_BITMAP_START_SECTOR b)
    /\ (forall s, 0 <= s < TOTAL_SECTORS ->
          bitmap_bit d'' SECTOR_BITMAP_START_SECTOR s
          = bitmap_bit d SECTOR_BITMAP_START_SECTOR s)
    /\ inode_size_of d'' parent = inode_size_of d parent.
Proof.
  intros Hmeta Hready Htype H.
  destruct (add_inode_full Hgeo Hdir d type parent file d' Hmeta Hready Htype H)
    as [child [[Hc [Hcp [Hfree [Hset [Hty [Hsz [Hpty [Hpsz [_ Hfind]]]]]]]]] Hframe]].
  unfold add_inode_frame in Hframe. cbv zeta in Hframe.
  destruct Hframe as [Hib [Hsb [Hsf [Hds Hlast]]]].
  destruct (remove_inode_last_spec d' type parent child (inode_size_of d parent))
    as [d'' [E [Rib [Rsb [_ [Rsz _]]]]]]; try assumption.
  { apply (ready_parent _ _ _ Hready). }
  { apply (ready_room _ _ _ Hready). }
  exists child, d''. split; [exact Hfind|]. split; [exact Hfree|]. split; [exact E|].
  split.
  { intros b Hb. rewrite Rib by exact Hb.
    destruct (Z.eqb_spec b child) as [->|Hne]; [symmetry; exact Hfree|].
    apply Hib; assumption. }
  split; [|exact Rsz].
  intros s Hs. rewrite Rsb by exact Hs.
  destruct (Z.eqb_spec (inode_size_of d parent
                        - inode_size_of d parent ÷ DIRENTS_PER_SECTOR * DIRENTS_PER_SECTOR) 0)
    as [E0|N0]; cbn [andb].
  - destruct (Z.eqb_spec s (inode_data_of d' parent
                              (inode_size_of d parent ÷ DIRENTS_PER_SECTOR))) as [->|Hne].
    + symmetry. apply Hsf. exact E0.
    + apply Hsb; [exact Hs|right; exact Hne].
  - apply Hsb; [exact Hs|left; exact N0].
Qed.

(** X26: what [add_inode] made, [remove_inode] undoes: removing the
    inode that [add_inode] has just added returns 0 and leaves the
    inode bitmap, the sector bitmap and the size of the directory as
    they were before the entry was added. *)
Theorem add_inode_then_remove (d : disk) (type parent : Z) (file : cstring) (d' : disk) :
  metadata_reserved d ->
  dir_ready d parent file ->
  int_min <= type <= int_max ->
  add_inode d type parent file = Done (d', 0) ->
  exists child d'',
    find_child_inode d' parent file (inode_sector_of parent) (d' (inode_sector_of parent))
    = Done (child, inode_sector_of child, d' (inode_sector_of child))
    /\ bitmap_bit d INODE_BITMAP_START_SECTOR child = false
    /\ remove_inode d' type parent child = Done (d'', 0)
    /\ (forall b, 0 <= b < MAX_FILES ->
          bitmap_bit d'' INODE_BITMAP_START_SECTOR b
          = bitmap_bit d INODE_BITMAP_START_SECTOR b)
    /\ (forall s, 0 <= s < TOTAL_SECTORS ->
          bitmap_bit d'' SECTOR_BITMAP_START_SECTOR s
          = bitmap_bit d SECTOR_BITMAP_START_SECTOR s)
    /\ inode_size_of d'' parent = inode_size_of d parent.
Proof. exact (add_remove_spec d type parent file d'). Qed.

Lemma is_file_open_loop_miss (n : nat) (i : Z) (tab : Z -> open_file) (inode : Z) :
  (forall x, i <= x < i + Z.of_nat n -> of_inode (tab x) <> inode) ->
  is_file_open_loop n i tab inode = 0.
Proof.
  revert i. induction n as [|n IH]; intros i H; [reflexivity|].
  cbn [is_file_open_loop]. destruct (Z.eqb_spec (of_inode (tab i)) inode) as [E|_].
  - exfalso. apply (H i); [lia|exact E].
  - apply IH. intros x Hx. apply H. lia.
Qed.

(** X27: a file created in the root directory and not opened can be
    unlinked at once: [File_Unlink] on the path returns 0, and the
    bitmaps of inodes and sectors, the size of the root directory and
    the open-file table are as they were before [File_Create]. *)
Theorem File_Create_then_Unlink (st : state) (p name : cstring) (st' : state) :
  metadata_reserved (st_disk st) ->
  path_names p = [name] ->
  dir_ready (st_disk st) 0 name ->
  (forall fd, 0 <= fd < MAX_OPEN_FILES ->
     bitmap_bit (st_disk st) INODE_BITMAP_START_SECTOR (of_inode (open_files st fd)) = true) ->
  File_Create st (Some p) = Done (st', 0) ->
  exists st'',
    File_Unlink st' (Some p) = Done (st'', 0)
    /\ (forall b, 0 <= b < MAX_FILES ->
          bitmap_bit (st_disk st'') INODE_BITMAP_START_SECTOR b
          = bitmap_bit (st_disk st) INODE_BITMAP_START_SECTOR b)
    /\ (forall s, 0 <= s < TOTAL_SECTORS ->
          bitmap_bit (st_disk st'') SECTOR_BITMAP_START_SECTOR s
          = bitmap_bit (st_disk st) SECTOR_BITMAP_START_SECTOR s)
    /\ inode_size_of (st_disk st'') 0 = inode_size_of (st_disk st) 0
    /\ open_files st'' = open_files st.
Proof.
  intros Hmeta Hn Hready Hslots H.
  unfold File_Create, create_file_or_directory in H. unfold cstring in *.
  destruct p as [|c rest]; [discriminate|].
  pose proof (follow_path_one_name (st_disk st) c rest name Hn) as HR.
  destruct (follow_path (st_disk st) (Some (c :: rest))) as [[|parent ch last]|] eqn:ER;
    cbn [bind] in H; try discriminate H.
  destruct (negb (Byte.eqb c slash)) eqn:Ec; [discriminate|].
  destruct (Disk_Read (st_disk st) INODE_TABLE_START_SECTOR) as [cbuf|] eqn:Erd;
    [|discriminate].
  apply Disk_Read_Some in Erd. destruct Erd as [Hv0 ->].
  destruct (negb (illegal_filename name =? 0)) eqn:Eill; [discriminate|].
  symmetry in HR. apply bind_Done in HR.
  destruct HR as [[[r csec] cbuf] [Efind HR]].
  destruct (r <? -1); [discriminate|]. injection HR as <- <- <-.
  destruct (Z.leb_spec 0 0); [|lia].
  destruct (Z.leb_spec 0 r); [discriminate|].
  destruct (add_inode (st_disk st) 0 0 name) as [[d' ret]|] eqn:Eadd;
    cbn [bind] in H; [|discriminate].
  destruct (Z.leb_spec 0 ret) as [Hret|]; [|discriminate].
  injection H as <-.
  apply add_inode_ret in Eadd as Hret0; [|exact Hret]. subst ret.
  assert (Hint : int_min <= 0 <= int_max) by (unfold int_min, int_max; lia).
  destruct (add_remove_spec (st_disk st) 0 0 name d' Hmeta Hready Hint Eadd)
    as [child [d'' [Hfind [Hfree [Erem [Hib [Hsb Hsz]]]]]]].
  assert (Hroot : inode_sector_of 0 = INODE_TABLE_START_SECTOR).
  { unfold inode_sector_of. change (0 ÷ INODES_PER_SECTOR) with 0. ring. }
  rewrite Hroot in Hfind.
  assert (Hc : 0 <= child).
  { destruct (add_inode_spec Hgeo Hdir (st_disk st) 0 0 name d' Hmeta Hready Hint Eadd)
      as [child' [Hc' [_ [_ [_ [_ [_ [_ [_ [_ Hfind']]]]]]]]]].
    rewrite Hroot in Hfind'. rewrite Hfind in Hfind'. injection Hfind' as ->. lia. }
  assert (Hpath : follow_path d' (Some (c :: rest)) = Done (PathOk 0 child name)).
  { rewrite (follow_path_one_name d' c rest name Hn), Ec.
    unfold Disk_Read. rewrite Hv0, Eill, Hfind. cbn [bind].
    destruct (Z.ltb_spec child (-1)); [lia|reflexivity]. }
  assert (Hclosed : is_file_open (set_disk st d') child = 0).
  { unfold is_file_open. cbn [set_disk open_files]. apply is_file_open_loop_miss.
    intros x Hx E. rewrite <- E in Hfree. rewrite Hslots in Hfree; [discriminate|].
    unfold MAX_OPEN_FILES in *. lia. }
  exists (set_disk (set_disk st d') d''). split.
  { unfold File_Unlink. cbn [set_disk st_disk]. unfold cstring in *. rewrite Hpath.
    cbn [bind]. destruct (Z.leb_spec 0 0); [|lia]. destruct (Z.leb_spec 0 child); [|lia].
    rewrite Hclosed. cbn [Z.eqb negb]. rewrite Erem. cbn [bind]. reflexivity. }
  cbn [set_disk st_disk open_files]. auto.
Qed.

End Removal.

(** ** Runs on the sample geometry *)

Lemma pair_of_snd {A B : Type} (x : A * B) (b : B) : snd x = b -> x = (fst x, b).
Proof. destruct x. simpl. intros ->. reflexivity. Qed.

Section ExtraRuns.
#[local] Existing Instance sample_geometry.

Lemma disk_of_run (m : exec (disk * Z)) (r : Z) :
  observe m snd = Some r -> m = Done (disk_of m, r).
Proof.
  destruct m as [[d r']|]; simpl; [|discriminate].
  intros H. injection H as ->. reflexivity.
Qed.

Lemma read_of_run (m : exec (state * pointer * Z)) (r : Z) :
  observe m snd = Some r -> m = Done (fst (read_of m), snd (read_of m), r).
Proof.
  destruct m as [[[s b] r']|]; simpl; [|discriminate].
  intros H. injection H as ->. reflexivity.
Qed.

Lemma sample_directory_geometry : directory_geometry.
Proof. constructor; vm_compute; congruence. Qed.

(** The root directory of [created_a_b] can take an entry "c". *)
Lemma created_a_b_ready : dir_ready (st_disk (state_of created_a_b)) 0 (c_str "c").
Proof.
  assert (Hsz : inode_size_of (st_disk (state_of created_a_b)) 0 = 2)
    by (vm_compute; reflexivity).
  constructor.
  - vm_compute. split; congruence.
  - vm_compute. reflexivity.
  - rewrite Hsz. vm_compute. split; congruence.
  - intros g Hg Hlt. rewrite Hsz in Hlt. change DIRENTS_PER_SECTOR with 25 in Hlt.
    assert (g = 0) by lia. subst g. vm_compute. repeat split; congruence.
  - intros g g' Hg Hlt. rewrite Hsz in Hlt. change DIRENTS_PER_SECTOR with 25 in Hlt. lia.
  - vm_compute. reflexivity.
  - intros g i Hg Hi Hlt. rewrite Hsz in Hlt. change DIRENTS_PER_SECTOR with 25 in Hlt, Hi.
    assert (g = 0) by lia. subst g.
    assert (Hi2 : i = 0 \/ i = 1) by lia.
    destruct Hi2 as [->| ->]; vm_compute; reflexivity.
Qed.


Lemma create_existing_fails_witness :
  create_file_or_directory (state_of created_a_b) 0 (path "/a")
  = Done (set_errno (state_of created_a_b) E_CREATE, -1).
Proof.
  apply (@create_existing_fails sample_geometry (state_of created_a_b) 0 (path "/a")
           0 1 (c_str "a")).
  - vm_compute. reflexivity.
  - lia.
Defined.

Lemma File_Open_lowest_free_witness :
  let st := state_of created_a_b in
  let st' := state_of (File_Open st (path "/a")) in
  0 <= 1
  /\ inode_type_of (st_disk st) 1 = 0
  /\ 0 <= 0 < MAX_OPEN_FILES
  /\ of_inode (open_files st 0) <= 0
  /\ (forall x, 0 <= x < 0 -> 0 < of_inode (open_files st x))
  /\ open_files st' 0
     = {| of_inode := 1;
          of_size := inode_size_of (st_disk st) 1;
          of_pos := 0 |}
  /\ (forall x, x <> 0 -> open_files st' x = open_files st x)
  /\ st_disk st' = st_disk st
  /\ osErrno st' = osErrno st.
Proof.
  intros st st'.
  apply (@File_Open_lowest_free sample_geometry st (path "/a") 0 1 (c_str "a") st' 0).
  - vm_compute. reflexivity.
  - apply state_of_run. vm_compute. reflexivity.
  - lia.
Defined.

Lemma File_Open_twice_witness :
  let st := state_of created_a_b in
  let st1 := state_of (File_Open st (path "/a")) in
  let st2 := state_of (File_Open st1 (path "/a")) in
  1 <> 0
  /\ of_inode (open_files st2 0) = 1
  /\ of_inode (open_files st2 1) = 1
  /\ open_files st2 0 = open_files st1 0.
Proof.
  intros st st1 st2.
  apply (@File_Open_twice sample_geometry st (path "/a") 0 1 (c_str "a") st1 st2 0 1).
  - vm_compute. reflexivity.
  - apply state_of_run. vm_compute. reflexivity.
  - lia.
  - vm_compute. reflexivity.
  - apply state_of_run. vm_compute. reflexivity.
  - lia.
Defined.

Lemma bad_descriptor_refused_witness :
  File_Read booted 3 letters 10 = Done (set_errno booted E_BAD_FD, letters, -1)
  /\ File_Write booted 3 letters 10 = Done (set_errno booted E_BAD_FD, -1)
  /\ File_Close booted 3 = Done (set_errno booted E_BAD_FD, -1).
Proof.
  apply (@bad_descriptor_refused sample_geometry booted 3 letters 10).
  right. split; [reflexivity|]. vm_compute. congruence.
Defined.

Lemma File_Close_frees_slot_witness :
  let st := state_of opened_f in
  let st' := state_of (File_Close st 0) in
  0 <= 0 < MAX_OPEN_FILES
  /\ 0 < of_inode (open_files st 0)
  /\ of_inode (open_files st' 0) = 0
  /\ (forall x, x <> 0 -> open_files st' x = open_files st x)
  /\ st_disk st' = st_disk st
  /\ File_Close st' 0 = Done (set_errno st' E_BAD_FD, -1)
  /\ 0 <= new_file_fd st' <= 0.
Proof.
  intros st st'.
  apply (File_Close_frees_slot st 0 st').
  - unfold MAX_OPEN_FILES. lia.
  - apply state_of_run. vm_compute. reflexivity.
Defined.

Lemma File_Seek_by_descriptor_witness :
  let st := state_of written_100 in
  File_Seek st 0 40
  = if 0 <? 0 then Done (set_errno st E_GENERAL, -1)
    else if (of_size (open_files st 0) <? 40) || (40 <? 0)
    then Done (set_errno st E_SEEK_OUT_OF_BOUNDS, -1)
    else Done (set_open_file st 0 (with_pos (open_files st 0) 40), 40).
Proof.
  intros st. apply (File_Seek_by_descriptor st 0 40). split; [lia|reflexivity].
Defined.

Lemma File_Read_one_block_witness :
  let st := state_of rewound in
  let run := File_Read st 0 (Some (zero_mem, 0)) 10 in
  let st' := fst (read_of run) in
  let f := open_files st 0 in
  10 <= 10
  /\ (10 = 0 <-> 10 = 0 \/ of_pos f = of_size f)
  /\ of_pos f + 10 <= of_size f
  /\ of_pos f + 10 <= of_pos f ÷ SECTOR_SIZE * SECTOR_SIZE + SECTOR_SIZE
  /\ (exists bmem',
        snd (read_of run) = Some (bmem', 0)
        /\ forall x,
             bmem' x
             = if (0 <=? x) && (x <? 0 + 10)
               then st_disk st
                      (inode_data_of (st_disk st) (of_inode f)
                         (of_pos f ÷ SECTOR_SIZE))
                      (of_pos f - of_pos f ÷ SECTOR_SIZE * SECTOR_SIZE + (x - 0))
               else zero_mem x)
  /\ open_files st' 0 = with_pos f (of_pos f + 10)
  /\ (forall x, x <> 0 -> open_files st' x = open_files st x)
  /\ st_disk st' = st_disk st.
Proof.
  intros st run st' f.
  apply (@File_Read_one_block sample_geometry eq_refl st 0 zero_mem 0 10 st'
           (snd (read_of run)) 10).
  - apply read_of_run. vm_compute. reflexivity.
  - lia.
  - vm_compute. split; congruence.
Defined.


Lemma reading_calls_keep_disk_witness :
  let st := state_of written_100 in
  st_disk (state_of (run_call st (CallFileRead 0 (Some (zero_mem, 0)) 10))) = st_disk st.
Proof.
  intros st.
  apply (@reading_calls_keep_disk sample_geometry st
           (CallFileRead 0 (Some (zero_mem, 0)) 10) _ 0).
  - reflexivity.
  - apply state_of_run. vm_compute. reflexivity.
Defined.

Lemma path_calls_keep_table_witness :
  let st := state_of opened_f in
  open_files (state_of (run_call st (CallFileCreate (path "/g")))) = open_files st.
Proof.
  intros st.
  apply (@path_calls_keep_table sample_geometry st (CallFileCreate (path "/g")) _ 0).
  - reflexivity.
  - apply state_of_run. vm_compute. reflexivity.
Defined.

Lemma Dir_Unlink_not_empty_witness :
  Dir_Unlink (state_of made_dir) (path "/d") = Done (state_of made_dir, -2).
Proof.
  apply (@Dir_Unlink_not_empty sample_geometry eq_refl (state_of made_dir) (c_str "/d")
           0 1 (c_str "d")).
  - reflexivity.
  - vm_compute. reflexivity.
  - lia.
  - vm_compute. reflexivity.
  - vm_compute. reflexivity.
Defined.

Lemma unlink_wrong_type_witness :
  let st := state_of made_dir in
  Dir_Unlink st (path "/d/x") = Done (st, -3)
  /\ File_Unlink st (path "/d") = Done (set_errno st E_GENERAL, -1).
Proof.
  intros st. split.
  - destruct (@unlink_wrong_type sample_geometry eq_refl st (c_str "/d/x") 1 2 (c_str "x"))
      as [H _].
    + vm_compute. reflexivity.
    + lia.
    + apply H; [reflexivity|]. vm_compute. congruence.
  - destruct (@unlink_wrong_type sample_geometry eq_refl st (c_str "/d") 0 1 (c_str "d"))
      as [_ H].
    + vm_compute. reflexivity.
    + lia.
    + apply H; [vm_compute; congruence|]. vm_compute. reflexivity.
Defined.

Lemma Dir_Size_contract_witness :
  let st := state_of created_a_b in
  Dir_Size st (path "/")
  = if 0 <? 0 then Done (set_errno st E_NO_SUCH_DIR, -1)
    else if inode_type_of (st_disk st) 0 =? 1
    then Done (st, inode_size_of (st_disk st) 0 * sizeof_dirent)
    else Done (set_errno st E_GENERAL, -1).
Proof.
  intros st.
  apply (@Dir_Size_contract sample_geometry eq_refl st (c_str "/") 0 0 []).
  - vm_compute. reflexivity.
  - vm_compute. split; congruence.
Defined.

Lemma bitmap_first_unused_lowest_witness :
  bitmap_bit (st_disk (state_of created_a_b)) INODE_BITMAP_START_SECTOR 2 = true.
Proof.
  apply (@bitmap_first_unused_lowest sample_geometry eq_refl
           (st_disk (state_of created_a_b)) INODE_BITMAP_START_SECTOR
           INODE_BITMAP_SECTORS INODE_BITMAP_SIZE
           (fst (bitmap_first_unused (st_disk (state_of created_a_b))
                   INODE_BITMAP_START_SECTOR INODE_BITMAP_SECTORS INODE_BITMAP_SIZE))
           3).
  - apply pair_of_snd. vm_compute. reflexivity.
  - lia.
Defined.

Lemma bitmap_reset_clears_witness :
  let d := st_disk (state_of created_a_b) in
  exists d',
    bitmap_reset d INODE_BITMAP_START_SECTOR INODE_BITMAP_SECTORS 2 = Done (d', 0)
    /\ bitmap_bit d' INODE_BITMAP_START_SECTOR 2 = false
    /\ (forall b, 0 <= b -> b <> 2 ->
          bitmap_bit d' INODE_BITMAP_START_SECTOR b
          = bitmap_bit d INODE_BITMAP_START_SECTOR b)
    /\ (forall s, s <> INODE_BITMAP_START_SECTOR + (2 ÷ 8) ÷ SECTOR_SIZE -> d' s = d s).
Proof.
  intros d.
  destruct (@bitmap_reset_clears sample_geometry eq_refl d INODE_BITMAP_START_SECTOR
              INODE_BITMAP_SECTORS 2) as [_ H]; [lia|].
  apply H; reflexivity.
Defined.

Lemma bitmap_init_first_bits_witness :
  (forall b, 0 <= b < 1 * SECTOR_SIZE * 8 ->
     bitmap_bit (bitmap_init blank_disk 1 1 3) 1 b = (b <? 3))
  /\ (forall s, ~ (1 <= s < 1 + 1) -> bitmap_init blank_disk 1 1 3 s = blank_disk s).
Proof.
  apply (@bitmap_init_first_bits sample_geometry eq_refl blank_disk 1 1 3).
  intros i Hi. assert (i = 0) by lia. subst i. reflexivity.
Defined.

Lemma FS_Boot_new_volume_witness :
  exists st,
    FS_Boot None = (st, 0)
    /\ FS_Boot (Some (st_disk st)) = (st, 0)
    /\ (forall b, 0 <= b < MAX_FILES ->
          bitmap_bit (st_disk st) INODE_BITMAP_START_SECTOR b = (b =? 0))
    /\ (forall s, 0 <= s < TOTAL_SECTORS ->
          bitmap_bit (st_disk st) SECTOR_BITMAP_START_SECTOR s
          = (s <? DATABLOCK_START_SECTOR))
    /\ inode_type_of (st_disk st) 0 = 1
    /\ inode_size_of (st_disk st) 0 = 0
    /\ (forall fd, of_inode (open_files st fd) = 0).
Proof.
  apply (@FS_Boot_new_volume sample_geometry).
  constructor; vm_compute; congruence.
Defined.


Lemma add_inode_then_find_witness :
  let d := st_disk (state_of created_a_b) in
  let d' := disk_of (add_inode d 0 0 (c_str "c")) in
  exists child,
    0 <= child < MAX_FILES
    /\ child <> 0
    /\ bitmap_bit d INODE_BITMAP_START_SECTOR child = false
    /\ bitmap_bit d' INODE_BITMAP_START_SECTOR child = true
    /\ inode_type_of d' child = 0
    /\ inode_size_of d' child = 0
    /\ inode_type_of d' 0 = 1
    /\ inode_size_of d' 0 = inode_size_of d 0 + 1
    /\ metadata_reserved d'
    /\ find_child_inode d' 0 (c_str "c") (inode_sector_of 0) (d' (inode_sector_of 0))
       = Done (child, inode_sector_of child, d' (inode_sector_of child)).
Proof.
  intros d d'.
  apply (@add_inode_then_find sample_geometry sample_geometry_ok sample_directory_geometry
           d 0 0 (c_str "c") d').
  - apply booted_metadata_reserved. vm_compute. reflexivity.
  - exact created_a_b_ready.
  - vm_compute. split; congruence.
  - apply disk_of_run. vm_compute. reflexivity.
Defined.

Lemma File_Create_then_Open_witness :
  let st := state_of created_a_b in
  let st' := state_of (File_Create st (path "/c")) in
  exists child,
    0 < child < MAX_FILES
    /\ bitmap_bit (st_disk st) INODE_BITMAP_START_SECTOR child = false
    /\ follow_path (st_disk st') (path "/c") = Done (PathOk 0 child (c_str "c"))
    /\ metadata_reserved (st_disk st')
    /\ open_files st' = open_files st
    /\ (new_file_fd st' < 0 ->
        File_Open st' (path "/c") = Done (set_errno st' E_TOO_MANY_OPEN_FILES, -1))
    /\ (0 <= new_file_fd st' ->
        exists st'',
          File_Open st' (path "/c") = Done (st'', new_file_fd st')
          /\ of_inode (open_files st'' (new_file_fd st')) = child
          /\ fresh_open_file st'' (new_file_fd st')).
Proof.
  intros st st'.
  apply (@File_Create_then_Open sample_geometry sample_geometry_ok
           sample_directory_geometry st (c_str "/c") (c_str "c") st').
  - apply booted_metadata_reserved. vm_compute. reflexivity.
  - vm_compute. reflexivity.
  - exact created_a_b_ready.
  - apply state_of_run. vm_compute. reflexivity.
Defined.

Lemma add_inode_succeeds_witness :
  exists d', add_inode (st_disk (state_of created_a_b)) 0 0 (c_str "c") = Done (d', 0).
Proof.
  apply (@add_inode_succeeds sample_geometry sample_geometry_ok sample_directory_geometry
           (st_disk (state_of created_a_b)) 0 0 (c_str "c") 3 9999).
  - apply booted_metadata_reserved. vm_compute. reflexivity.
  - exact created_a_b_ready.
  - vm_compute. reflexivity.
  - vm_compute. split; congruence.
  - vm_compute. reflexivity.
  - vm_compute. split; congruence.
  - vm_compute. reflexivity.
Defined.

Lemma new_volume_first_file_witness :
  exists st' st'',
    File_Create (fst (FS_Boot None)) (path "/f") = Done (st', 0)
    /\ File_Open st' (path "/f") = Done (st'', 0)
    /\ fresh_open_file st'' 0
    /\ metadata_reserved (st_disk st'').
Proof.
  apply (@new_volume_first_file sample_geometry sample_geometry_ok
           sample_directory_geometry (c_str "/f") (c_str "f")); reflexivity.
Defined.

Lemma remove_inode_last_entry_witness :
  let d := st_disk (state_of created_a_b) in
  let dsec := inode_data_of d 0 (1 ÷ DIRENTS_PER_SECTOR) in
  let off := 1 - 1 ÷ DIRENTS_PER_SECTOR * DIRENTS_PER_SECTOR in
  exists d',
    remove_inode d 0 0 2 = Done (d', 0)
    /\ (forall b, 0 <= b < MAX_FILES ->
          bitmap_bit d' INODE_BITMAP_START_SECTOR b
          = if b =? 2 then false else bitmap_bit d INODE_BITMAP_START_SECTOR b)
    /\ (forall s, 0 <= s < TOTAL_SECTORS ->
          bitmap_bit d' SECTOR_BITMAP_START_SECTOR s
          = if (off =? 0) && (s =? dsec) then false
            else bitmap_bit d SECTOR_BITMAP_START_SECTOR s)
    /\ inode_type_of d' 0 = 1
    /\ inode_size_of d' 0 = 1
    /\ (forall s, DATABLOCK_START_SECTOR <= s -> d' s = d s).
Proof.
  intros d dsec off.
  apply (@remove_inode_last_entry sample_geometry sample_geometry_ok
           sample_directory_geometry d 0 0 2 1).
  - vm_compute. split; congruence.
  - vm_compute. split; congruence.
  - vm_compute. reflexivity.
  - vm_compute. reflexivity.
  - vm_compute. reflexivity.
  - vm_compute. reflexivity.
  - lia.
  - vm_compute. split; congruence.
  - vm_compute. reflexivity.
Defined.

Lemma add_inode_then_remove_witness :
  let d := st_disk (state_of created_a_b) in
  let d' := disk_of (add_inode d 0 0 (c_str "c")) in
  exists child d'',
    find_child_inode d' 0 (c_str "c") (inode_sector_of 0) (d' (inode_sector_of 0))
    = Done (child, inode_sector_of child, d' (inode_sector_of child))
    /\ bitmap_bit d INODE_BITMAP_START_SECTOR child = false
    /\ remove_inode d' 0 0 child = Done (d'', 0)
    /\ (forall b, 0 <= b < MAX_FILES ->
          bitmap_bit d'' INODE_BITMAP_START_SECTOR b
          = bitmap_bit d INODE_BITMAP_START_SECTOR b)
    /\ (forall s, 0 <= s < TOTAL_SECTORS ->
          bitmap_bit d'' SECTOR_BITMAP_START_SECTOR s
          = bitmap_bit d SECTOR_BITMAP_START_SECTOR s)
    /\ inode_size_of d'' 0 = inode_size_of d 0.
Proof.
  intros d d'.
  apply (@add_inode_then_remove sample_geometry sample_geometry_ok
           sample_directory_geometry d 0 0 (c_str "c") d').
  - apply booted_metadata_reserved. vm_compute. reflexivity.
  - exact created_a_b_ready.
  - vm_compute. split; congruence.
  - apply disk_of_run. vm_compute. reflexivity.
Defined.

Lemma File_Create_then_Unlink_witness :
  let st := state_of created_a_b in
  let st' := state_of (File_Create st (path "/c")) in
  exists st'',
    File_Unlink st' (path "/c") = Done (st'', 0)
    /\ (forall b, 0 <= b < MAX_FILES ->
          bitmap_bit (st_disk st'') INODE_BITMAP_START_SECTOR b
          = bitmap_bit (st_disk st) INODE_BITMAP_START_SECTOR b)
    /\ (forall s, 0 <= s < TOTAL_SECTORS ->
          bitmap_bit (st_disk st'') SECTOR_BITMAP_START_SECTOR s
          = bitmap_bit (st_disk st) SECTOR_BITMAP_START_SECTOR s)
    /\ inode_size_of (st_disk st'') 0 = inode_size_of (st_disk st) 0
    /\ open_files st'' = open_files st.
Proof.
  intros st st'.
  apply (@File_Create_then_Unlink sample_geometry sample_geometry_ok
           sample_directory_geometry st (c_str "/c") (c_str "c") st').
  - apply booted_metadata_reserved. vm_compute. reflexivity.
  - vm_compute. reflexivity.
  - exact created_a_b_ready.
  - intros fd Hfd. vm_compute. reflexivity.
  - apply state_of_run. vm_compute. reflexivity.
Defined.

End ExtraRuns.
